(** * Claude Subagent Generator: rate limiting, validation, sanitising,
    form state and specification rendering

  A shallow embedding of [src/main/ipcHandlers.js],
  [src/renderer/hooks/useAgentGenerator.js],
  [src/renderer/services/agentGenerator.js] and
  [src/renderer/services/templateProcessor.js], with the properties the
  specification states about them, and of what surrounds them:
  [src/main/preload.js], [src/renderer/hooks/useTheme.js] and the
  components [DocumentUpload], [TemplateForm] and [GenerateButton]. *)

From Stdlib Require Import ZArith NArith Lia Bool.
From Stdlib Require Import Strings.String Strings.Ascii DecimalString.
From stdpp Require Import gmap list strings sorting.

Local Open Scope Z_scope.

(** ** JavaScript strings

  A JavaScript string is a finite sequence of UTF-16 code units;
  [String.prototype.length] is the number of code units. *)

Abbreviation jsstring := (list N) (only parsing).

Definition lit (s : string) : jsstring :=
List.map N_of_ascii (list_ascii_of_string s).

Definition jslength {A : Type} (s : list A) : Z := Z.of_nat (List.length s).

Definition str_eqb (a b : jsstring) : bool := bool_decide (a = b).

(** Line terminators: LF, CR, LS, PS. *)
Definition isLineTerminator (c : N) : bool :=
  ((c =? 0x000A) || (c =? 0x000D) || (c =? 0x2028) || (c =? 0x2029))%N.

(** The code units that [String.prototype.trim] strips and that [\s]
    matches in a regular expression: WhiteSpace and LineTerminator. *)
Definition isWhiteSpace (c : N) : bool :=
  ((c =? 0x0009) || (c =? 0x000A) || (c =? 0x000B) || (c =? 0x000C)
   || (c =? 0x000D) || (c =? 0x0020) || (c =? 0x00A0) || (c =? 0x1680)
   || ((0x2000 <=? c) && (c <=? 0x200A))
   || (c =? 0x2028) || (c =? 0x2029) || (c =? 0x202F) || (c =? 0x205F)
   || (c =? 0x3000) || (c =? 0xFEFF))%N.

Fixpoint trimStart (s : jsstring) : jsstring :=
  match s with
  | [] => []
  | c :: rest => if isWhiteSpace c then trimStart rest else s
  end.

Definition trimEnd (s : jsstring) : jsstring :=
  List.rev (trimStart (List.rev s)).

(** [s.trim()] *)
Definition trim (s : jsstring) : jsstring := trimEnd (trimStart s).

(** Truthiness of a string: every string but the empty one. *)
Definition truthy (s : jsstring) : bool :=
  match s with [] => false | _ => true end.

(** [array.join(sep)] on an array of strings. *)
Fixpoint join (sep : jsstring) (l : list jsstring) : jsstring :=
  match l with
  | [] => []
  | [x] => x
  | x :: rest => x ++ sep ++ join sep rest
  end.

Fixpoint startsWith (s prefix : jsstring) {struct prefix} : bool :=
  match prefix, s with
  | [], _ => true
  | p :: prefix', c :: s' => (p =? c)%N && startsWith s' prefix'
  | _ :: _, [] => false
  end.

(** [s.includes(search)] *)
Fixpoint includes (s search : jsstring) : bool :=
  startsWith s search ||
  match s with
  | [] => false
  | _ :: rest => includes rest search
  end.

(** Decimal rendering of an integer, as a template literal renders a
    count or a length. *)
Definition numberToString (z : Z) : jsstring :=
  lit (NilEmpty.string_of_int (Z.to_int z)).

(** An object with string keys whose values are arrays of strings, keys
    in insertion order (the order of [Object.values]). *)
Abbreviation jsobject := (list (list N * list (list N))) (only parsing).

(** [o[key]] on own properties; [None] is [undefined]. *)
Fixpoint getProp (key : jsstring) (o : jsobject) : option (list jsstring) :=
  match o with
  | [] => None
  | (k, v) :: rest => if str_eqb k key then Some v else getProp key rest
  end.

(** [{...o, [key]: v}]: an existing key keeps its place, a new key goes
    last. *)
Fixpoint setProp (key : jsstring) (v : list jsstring) (o : jsobject) : jsobject :=
  match o with
  | [] => [(key, v)]
  | (k, w) :: rest =>
      if str_eqb k key then (k, v) :: rest else (k, w) :: setProp key v rest
  end.

(** ** The sliding-window rate limiter of [ipcHandlers.js] *)

Module RateLimiter.

Definition RATE_LIMIT_WINDOW : Z := 60000.

Definition RATE_LIMITS : list (jsstring * Z) :=
  [ (lit "save-agent", 10);
    (lit "load-agents", 20);
    (lit "get-existing-agents", 20);
    (lit "process-pdf", 5);
    (lit "load-settings", 30);
    (lit "save-settings", 20);
    (lit "load-template", 10);
    (lit "consult-agent", 30);
    (lit "get-app-version", 60) ].

(** [RATE_LIMITS] is an object literal, so a property read also sees the
    members every object inherits from [Object.prototype]; these are
    functions (or, for [__proto__], an object), never numbers. *)
Definition objectPrototypeKeys : list jsstring :=
  [ lit "constructor"; lit "__defineGetter__"; lit "__defineSetter__";
    lit "hasOwnProperty"; lit "__lookupGetter__"; lit "__lookupSetter__";
    lit "isPrototypeOf"; lit "propertyIsEnumerable"; lit "toString";
    lit "valueOf"; lit "__proto__"; lit "toLocaleString" ].

Fixpoint ownProperty (key : jsstring) (o : list (jsstring * Z)) : option Z :=
  match o with
  | [] => None
  | (k, v) :: rest => if str_eqb k key then Some v else ownProperty key rest
  end.

Definition inherited (key : jsstring) : bool :=
  existsb (str_eqb key) objectPrototypeKeys.

(** The value of [RATE_LIMITS[channel] || 10]: a number, or a value that
    is not a number (an inherited member, which is truthy). *)
Inductive limit := Quota (n : Z) | NotANumber.

Definition limitOf (channel : jsstring) : limit :=
  match ownProperty channel RATE_LIMITS with
  | Some n => Quota (if n =? 0 then 10 else n)
  | None => if inherited channel then NotANumber else Quota 10
  end.

(** [validRequests.length >= limit]; a comparison with a value that
    converts to NaN is false. *)
Definition reached (len : Z) (l : limit) : bool :=
  match l with
  | Quota n => n <=? len
  | NotANumber => false
  end.

(** [rateLimitMap]: a [Map] from channel names to arrays of timestamps. *)
Abbreviation rateLimitMap := (gmap (list N) (list Z)) (only parsing).

(** [now - timestamp < RATE_LIMIT_WINDOW] *)
Definition inWindow (now t : Z) : Prop := now - t < RATE_LIMIT_WINDOW.

#[global] Instance inWindow_dec now t : Decision (inWindow now t).
Proof. unfold inWindow. apply _. Defined.

(** [isRateLimited(channel)], with [Date.now()] passed in as [now].  The
    array stored in the map is the very array the timestamp is pushed
    on, so the stored list includes the pushed timestamp. *)
Definition isRateLimited (now : Z) (channel : jsstring) (m : rateLimitMap)
  : bool * rateLimitMap :=
  let limit := limitOf channel in
  let requests := default [] (m !! channel) in
  let validRequests := filter (inWindow now) requests in
  if reached (jslength validRequests) limit
  then (true, <[channel := validRequests]> m)
  else (false, <[channel := validRequests ++ [now]]> m).

(** A history of calls, oldest first. *)
Record request := Request { requestChannel : jsstring; requestTime : Z }.

(** Running a history: for every call whether it was rejected, and the
    map reached. *)
Fixpoint run (h : list request) (m : rateLimitMap)
  : list (request * bool) * rateLimitMap :=
  match h with
  | [] => ([], m)
  | c :: rest =>
      let r := isRateLimited (requestTime c) (requestChannel c) m in
      let rs := run rest (snd r) in
      ((c, fst r) :: fst rs, snd rs)
  end.

(** Timestamps of the earlier requests on [channel] that were let
    through. *)
Definition accepted (channel : jsstring) (log : list (request * bool)) : list Z :=
  List.map (fun e => requestTime (fst e))
    (List.filter (fun e => str_eqb (requestChannel (fst e)) channel && negb (snd e)) log).

(** The static quota the specification speaks of: the entry of
    [RATE_LIMITS], 10 for a channel that is not listed. *)
Definition quotaOf (channel : jsstring) : Z :=
  default 10 (ownProperty channel RATE_LIMITS).

(** The array stored for a channel ([[]] when the channel has no entry). *)
Definition stored (m : rateLimitMap) (channel : jsstring) : list Z :=
  default [] (m !! channel).

End RateLimiter.

(** ** Values, errors and effects of the main process *)

(** A value that crosses the IPC boundary.  Of a number only whether it
    is zero is ever observed ([NaN] behaves as zero there). *)
#[warnings="-register-all"]
Inductive jsval :=
  | JUndefined
  | JNull
  | JBoolean (b : bool)
  | JNumber (z : Z)
  | JString (s : jsstring)
  | JObject (fields : list (jsstring * jsval)).

Inductive jstype := TUndefined | TObject | TBoolean | TNumber | TString.

#[global] Instance jstype_eq_dec : EqDecision jstype.
Proof. solve_decision. Defined.

(** [typeof v] *)
Definition typeOf (v : jsval) : jstype :=
  match v with
  | JUndefined => TUndefined
  | JNull | JObject _ => TObject
  | JBoolean _ => TBoolean
  | JNumber _ => TNumber
  | JString _ => TString
  end.

(** Truthiness. *)
Definition toBoolean (v : jsval) : bool :=
  match v with
  | JUndefined | JNull => false
  | JBoolean b => b
  | JNumber z => negb (z =? 0)
  | JString s => truthy s
  | JObject _ => true
  end.

Fixpoint lookupField (key : jsstring) (fields : list (jsstring * jsval)) : jsval :=
  match fields with
  | [] => JUndefined
  | (k, v) :: rest => if str_eqb k key then v else lookupField key rest
  end.

(** [v.key] for the property names the handlers read, none of which is a
    member of a prototype: an own property of an object, [undefined]
    otherwise. *)
Definition getField (key : jsstring) (v : jsval) : jsval :=
  match v with
  | JObject fields => lookupField key fields
  | _ => JUndefined
  end.

(** [v.length] of a value known to be a string. *)
Definition lengthOf (v : jsval) : Z :=
  match v with
  | JString s => jslength s
  | _ => 0
  end.

(** What is thrown and caught.  [throw] takes any value and a promise
    can be rejected with any value, so a [catch] block may receive
    [null], [undefined], a primitive or an object of any shape; an
    [Error] object is an object with a [message] and, for the errors
    of [fs], a [code].  Of an [Error] made without a message the
    [message] is the empty string of the prototype, which is falsy as
    [undefined] is. *)
Abbreviation jsError := jsval (only parsing).

(** [new Error(message)], as far as it is read. *)
Definition newError (message : jsstring) : jsError :=
  JObject [ (lit "message", JString message) ].

(** The [TypeError] raised where a property of [null] or [undefined]
    is read, with the message V8, the engine of Electron, gives it. *)
Definition cannotRead (v : jsval) (property : string) : jsError :=
  newError (lit "Cannot read properties of "
            ++ (match v with JNull => lit "null" | _ => lit "undefined" end)
            ++ lit " (reading '" ++ lit property ++ lit "')").

(** The [TypeError] raised where what is called is no function. *)
Definition notAFunction (callee : string) : jsError :=
  newError (lit callee ++ lit " is not a function").

(** How a computation ends: with a value, or with a thrown value. *)
Inductive completion (A : Type) :=
  | Return (a : A)
  | Throw (e : jsError).
Arguments Return {A} a.
Arguments Throw {A} e.

(** [v.key] for a value that may be [null] or [undefined], of which no
    property can be read. *)
Definition getMember (key : string) (v : jsval) : completion jsval :=
  match v with
  | JUndefined | JNull => Throw (cannotRead v key)
  | _ => Return (getField (lit key) v)
  end.

(** [v === 'text'] for a string literal. *)
Definition equalsString (v : jsval) (text : jsstring) : bool :=
  match v with
  | JString s => str_eqb s text
  | _ => false
  end.

(** What a handler does besides computing its result. *)
Inductive effect :=
  | ConsoleWarn
  | ConsoleError
  | Called (operation : string).

#[global] Instance effect_eq_dec : EqDecision effect.
Proof. solve_decision. Defined.

(** The state of the main process the handlers touch: [rateLimitMap]
    and, as a log, the effects so far. *)
Record world := World {
  limits : gmap (list N) (list Z);
  effects : list effect
}.

(** Computations of the main process. *)
Definition M (A : Type) : Type := world → completion A * world.

#[global] Instance M_ret : MRet M := λ A a w, (Return a, w).

#[global] Instance M_bind : MBind M := λ A B f m w,
  match m w with
  | (Return a, w') => f a w'
  | (Throw e, w') => (Throw e, w')
  end.

(** [throw e] *)
Definition throw {A} (e : jsError) : M A := λ w, (Throw e, w).

(** [try { body } catch (error) { handler }] *)
Definition tryCatch {A} (body : M A) (handler : jsError → M A) : M A := λ w,
  match body w with
  | (Return a, w') => (Return a, w')
  | (Throw e, w') => handler e w'
  end.

(** A call of an operation outside this file, which ends as [outcome]
    says. *)
Definition call {A} (operation : string) (outcome : completion A) : M A := λ w,
  (outcome, {| limits := limits w; effects := effects w ++ [Called operation] |}).

(** [console.error(...)] *)
Definition consoleError : M unit := λ w,
  (Return tt, {| limits := limits w; effects := effects w ++ [ConsoleError] |}).

(** ** The validators, the sanitiser and the handlers of [ipcHandlers.js] *)

Module IpcHandlers.
Import RateLimiter.

(** [isRateLimited(channel)] in the main process: [now] is what
    [Date.now()] returns; a rejection is logged by [console.warn]. *)
Definition isRateLimitedM (now : Z) (channel : jsstring) : M bool := λ w,
  let r := isRateLimited now channel (limits w) in
  (Return (fst r),
   {| limits := snd r;
      effects := effects w ++ (if fst r then [ConsoleWarn] else []) |}).

(** *** [validators] *)

Definition validateAgentData (agentData : jsval) : completion bool :=
  if negb (toBoolean agentData) || negb (bool_decide (typeOf agentData = TObject))
  then Throw (newError (lit "Invalid agent data: must be an object"))
  else
    let name := getField (lit "name") agentData in
    if negb (toBoolean name) || negb (bool_decide (typeOf name = TString))
    then Throw (newError (lit "Invalid agent data: name is required and must be a string"))
    else if 200 <? lengthOf name
    then Throw (newError (lit "Invalid agent data: name too long (max 200 characters)"))
    else
      let content := getField (lit "content") agentData in
      if negb (toBoolean content) || negb (bool_decide (typeOf content = TString))
      then Throw (newError (lit "Invalid agent data: content is required and must be a string"))
      else if 1000000 <? lengthOf content
      then Throw (newError (lit "Invalid agent data: content too large (max 1MB)"))
      else
        let metadata := getField (lit "metadata") agentData in
        if toBoolean metadata && negb (bool_decide (typeOf metadata = TObject))
        then Throw (newError (lit "Invalid agent data: metadata must be an object"))
        else Return true.

(** [['light', 'dark'].includes(theme)] *)
Definition isTheme (theme : jsval) : bool :=
  match theme with
  | JString s => str_eqb s (lit "light") || str_eqb s (lit "dark")
  | _ => false
  end.

(** The [forEach] over the names of the boolean flags. *)
Fixpoint validateFlags (keys : list jsstring) (settings : jsval) : completion unit :=
  match keys with
  | [] => Return tt
  | key :: rest =>
      let v := getField key settings in
      if negb (bool_decide (typeOf v = TUndefined))
         && negb (bool_decide (typeOf v = TBoolean))
      then Throw (newError (lit "Invalid settings: " ++ key ++ lit " must be a boolean"))
      else validateFlags rest settings
  end.

Definition validateSettings (settings : jsval) : completion bool :=
  if negb (toBoolean settings) || negb (bool_decide (typeOf settings = TObject))
  then Throw (newError (lit "Invalid settings: must be an object"))
  else
    let theme := getField (lit "theme") settings in
    if toBoolean theme && negb (isTheme theme)
    then Throw (newError [73;110;118;97;108;105;100;32;115;101;116;116;105;110;103;115;58;32;116;104;101;109;101;32;109;117;115;116;32;98;101;32;34;108;105;103;104;116;34;32;111;114;32;34;100;97;114;107;34]%N)
    else
      match validateFlags [lit "autoSave"; lit "consultAgents"] settings with
      | Throw e => Throw e
      | Return _ => Return true
      end.

(** What [fs.stat] resolves to, as far as it is read. *)
Record stats := Stats { isFile : bool; size : Z }.

Definition MAX_FILE_SIZE : Z := 10 * 1024 * 1024.

Section WithPath.

(** [path.isAbsolute] of Node's [path] module, which depends on the
    platform. *)
Variable isAbsolute : jsstring → bool.

Definition validatePdfPath (filePath : jsval) (stat : completion stats) : M bool :=
  if negb (toBoolean filePath) || negb (bool_decide (typeOf filePath = TString))
  then throw (newError (lit "Invalid file path: must be a string"))
  else if negb (isAbsolute (match filePath with JString p => p | _ => [] end))
  then throw (newError (lit "Invalid file path: must be absolute"))
  else
    tryCatch
      (stats ← call "fs.stat" stat;
       if negb (isFile stats)
       then throw (newError (lit "Invalid file path: not a file"))
       else if MAX_FILE_SIZE <? size stats
       then throw (newError (lit "File too large: maximum "
                             ++ numberToString (MAX_FILE_SIZE / 1024 / 1024)
                             ++ lit "MB allowed"))
       else mret true)
      (λ error,
         code ← (λ w, (getMember "code" error, w)) : M jsval;
         if equalsString code (lit "ENOENT")
         then throw (newError (lit "File not found"))
         else throw error).

End WithPath.

(** The class [[a-zA-Z0-9-_]]. *)
Definition isSafeChar (c : N) : bool :=
  (((97 <=? c) && (c <=? 122)) || ((65 <=? c) && (c <=? 90))
   || ((48 <=? c) && (c <=? 57)) || (c =? 45) || (c =? 95))%N.

(** [/^[a-zA-Z0-9-_]+$/.test(s)] *)
Definition isSafeName (s : jsstring) : bool :=
  truthy s && forallb isSafeChar s.

Definition validateAgentType (agentType : jsval) : completion bool :=
  if negb (toBoolean agentType) || negb (bool_decide (typeOf agentType = TString))
  then Throw (newError (lit "Invalid agent type: must be a non-empty string"))
  else if 100 <? lengthOf agentType
  then Throw (newError (lit "Invalid agent type: too long (max 100 characters)"))
  else if negb (isSafeName (match agentType with JString s => s | _ => [] end))
  then Throw (newError (lit "Invalid agent type: only alphanumeric, hyphens, and underscores allowed"))
  else Return true.

(** *** [sanitizeErrorMessage] *)

(** [message.replace(regex, replacement)] for a global regular expression
    none of whose matches is empty.  [matchAt prev s] is the length of
    the match that starts at the head of [s], if there is one, [prev]
    being the code unit before it; the scan goes from left to right and
    resumes behind each match.  [skip] counts the code units of the
    current match still to be passed over. *)
Fixpoint replaceFrom (matchAt : option N → jsstring → option nat)
    (replacement : jsstring) (skip : nat) (prev : option N) (s : jsstring)
  : jsstring :=
  match s with
  | [] => []
  | c :: rest =>
      match skip with
      | S k => replaceFrom matchAt replacement k (Some c) rest
      | O =>
          match matchAt prev s with
          | Some (S n) => replacement ++ replaceFrom matchAt replacement n (Some c) rest
          | _ => c :: replaceFrom matchAt replacement 0 (Some c) rest
          end
      end
  end.

Definition replaceAll (matchAt : option N → jsstring → option nat)
    (replacement : jsstring) (s : jsstring) : jsstring :=
  replaceFrom matchAt replacement 0 None s.

(** The length of the longest prefix all of whose code units satisfy
    [p]: what a greedy [p*] takes. *)
Fixpoint runLength (p : N → bool) (s : jsstring) : nat :=
  match s with
  | [] => 0
  | c :: rest => if p c then S (runLength p rest) else 0
  end.

Definition nonSpace (c : N) : bool := negb (isWhiteSpace c).
Definition notLineTerminator (c : N) : bool := negb (isLineTerminator c).
Definition isDigit (c : N) : bool := ((48 <=? c) && (c <=? 57))%N.
Definition isUpper (c : N) : bool := ((65 <=? c) && (c <=? 90))%N.

(** The class [\w]. *)
Definition isWordChar (c : N) : bool :=
  (((97 <=? c) && (c <=? 122)) || ((65 <=? c) && (c <=? 90))
   || ((48 <=? c) && (c <=? 57)) || (c =? 95))%N.

(** [/\/[^\s]+/] at the head of [s]. *)
Definition unixPathAt (prev : option N) (s : jsstring) : option nat :=
  match s with
  | c :: rest =>
      if (c =? 47)%N
      then match runLength nonSpace rest with
           | O => None
           | S n => Some (S (S n))
           end
      else None
  | [] => None
  end.

(** [/[A-Z]:\\[^\s]+/] at the head of [s]. *)
Definition windowsPathAt (prev : option N) (s : jsstring) : option nat :=
  match s with
  | drive :: colon :: backslash :: rest =>
      if isUpper drive && (colon =? 58)%N && (backslash =? 92)%N
      then match runLength nonSpace rest with
           | O => None
           | S n => Some (3 + S n)%nat
           end
      else None
  | _ => None
  end.

(** [\b] before a word character: no word character precedes it. *)
Definition wordBoundaryAfter (prev : option N) : bool :=
  match prev with
  | Some p => negb (isWordChar p)
  | None => true
  end.

(** [/\bat\s+.*$/m] at the head of [s]: [\b] holds before the [a] when
    no word character precedes it; the greedy [\s+] and [.*] take the
    longest runs, after which [$] holds, the text being at its end or
    at a line terminator. *)
Definition stackLocationAt (prev : option N) (s : jsstring) : option nat :=
  match s with
  | a :: t :: rest =>
      if (a =? 97)%N && (t =? 116)%N && wordBoundaryAfter prev
      then match runLength isWhiteSpace rest with
           | O => None
           | S n =>
               Some (2 + S n + runLength notLineTerminator (drop (S n) rest))%nat
           end
      else None
  | _ => None
  end.

(** The code unit [c] at the head of [s]: what follows it. *)
Definition expect (c : N) (s : jsstring) : option jsstring :=
  match s with
  | d :: rest => if (d =? c)%N then Some rest else None
  | [] => None
  end.

(** [\d+] at the head of [s]: what follows the longest run of digits. *)
Definition digits (s : jsstring) : option jsstring :=
  match runLength isDigit s with
  | O => None
  | S n => Some (drop (S n) s)
  end.

(** [/:\d+:\d+\)/] at the head of [s]: what follows the match. *)
Definition lineColumnTail (s : jsstring) : option jsstring :=
  s1 ← expect 58 s;
  s2 ← digits s1;
  s3 ← expect 58 s2;
  s4 ← digits s3;
  expect 41 s4.

(** The length of that match. *)
Definition lineColumnTailAt (s : jsstring) : option nat :=
  (λ rest, List.length s - List.length rest)%nat <$> lineColumnTail s.

(** The lazy [.*?] followed by the tail: the shortest stretch of code
    units other than line terminators after which the tail matches. *)
Fixpoint lazyLineColumn (s : jsstring) : option nat :=
  match lineColumnTailAt s with
  | Some n => Some n
  | None =>
      match s with
      | [] => None
      | c :: rest =>
          if isLineTerminator c then None
          else
            match lazyLineColumn rest with
            | Some n => Some (S n)
            | None => None
            end
      end
  end.

(** [/\(.*?:\d+:\d+\)/] at the head of [s]. *)
Definition lineColumnAt (prev : option N) (s : jsstring) : option nat :=
  match s with
  | c :: rest =>
      if (c =? 40)%N
      then match lazyLineColumn rest with
           | Some n => Some (S n)
           | None => None
           end
      else None
  | [] => None
  end.

Definition defaultMessage : jsstring := lit "An error occurred".

(** The four [replace] calls in their order. *)
Definition stripped (message : jsstring) : jsstring :=
  replaceAll lineColumnAt []
    (replaceAll stackLocationAt []
       (replaceAll windowsPathAt (lit "[path]")
          (replaceAll unixPathAt (lit "[path]") message))).

(** [sanitizeErrorMessage(error)].  Reading [error.message] throws
    for [null] and [undefined]; a message that is truthy and no string
    has no method [replace], so that the call throws. *)
Definition sanitizeErrorMessage (error : jsError) : completion jsstring :=
  match getMember "message" error with
  | Throw e => Throw e
  | Return m =>
      let message := if toBoolean m then m else JString defaultMessage in
      match message with
      | JString text =>
          let sanitized := stripped text in
          Return (if truthy (trim sanitized) then trim sanitized else defaultMessage)
      | _ => Throw (notAFunction "message.replace")
      end
  end.

(** *** The handlers registered by [setupIpcHandlers] *)

Definition rateLimitMessage : jsstring :=
  lit "Rate limit exceeded. Please try again later.".

(** [{ success: false, error: message }] *)
Definition failure (message : jsstring) : jsval :=
  JObject [ (lit "success", JBoolean false); (lit "error", JString message) ].

(** [{ success: false, error: message, settings: {} }] *)
Definition settingsFailure (message : jsstring) : jsval :=
  JObject [ (lit "success", JBoolean false); (lit "error", JString message);
            (lit "settings", JObject []) ].

Fixpoint setField (key : jsstring) (v : jsval) (fields : list (jsstring * jsval))
  : list (jsstring * jsval) :=
  match fields with
  | [] => [(key, v)]
  | (k, w) :: rest =>
      if str_eqb k key then (k, v) :: rest else (k, w) :: setField key v rest
  end.

(** [{ ...base, ...result }] for an object [result] given by its own
    properties. *)
Definition spread (base result : list (jsstring * jsval)) : list (jsstring * jsval) :=
  List.fold_left (λ acc kv, setField (fst kv) (snd kv) acc) result base.

(** What [pdfParse] resolves to, as far as it is read. *)
Record pdfData := PdfData { pdfText : jsval; numpages : jsval; info : jsval }.

Section Handlers.

Variable isAbsolute : jsstring → bool.

(** [Date.now()] at the call. *)
Variable now : Z.

(** The [try] block of the [save-agent] handler. *)
Definition saveAgentAttempt (agentData : jsval)
    (saveAgent : completion (list (jsstring * jsval))) : M jsval :=
  limited ← isRateLimitedM now (lit "save-agent");
  if limited : bool then mret (failure rateLimitMessage)
  else
    _ ← (λ w, (validateAgentData agentData, w)) : M bool;
    result ← call "fileManager.saveAgent" saveAgent;
    mret (JObject (spread [ (lit "success", JBoolean true) ] result)).

Definition saveAgentHandler (agentData : jsval)
    (saveAgent : completion (list (jsstring * jsval))) : M jsval :=
  tryCatch
    (saveAgentAttempt agentData saveAgent)
    (λ error,
       _ ← consoleError;
       message ← (λ w, (sanitizeErrorMessage error, w)) : M jsstring;
       mret (failure message)).

(** The [try] block of the [load-agents] handler. *)
Definition loadAgentsAttempt (loadGeneratedAgents : completion jsval) : M jsval :=
  limited ← isRateLimitedM now (lit "load-agents");
  if limited : bool then mret (failure rateLimitMessage)
  else
    agents ← call "fileManager.loadGeneratedAgents" loadGeneratedAgents;
    mret (JObject [ (lit "success", JBoolean true); (lit "agents", agents) ]).

Definition loadAgentsHandler (loadGeneratedAgents : completion jsval) : M jsval :=
  tryCatch
    (loadAgentsAttempt loadGeneratedAgents)
    (λ error,
       _ ← consoleError;
       message ← (λ w, (sanitizeErrorMessage error, w)) : M jsstring;
       mret (failure message)).

(** The [try] block of the [get-existing-agents] handler. *)
Definition getExistingAgentsAttempt (loadExistingAgents : completion jsval) : M jsval :=
  limited ← isRateLimitedM now (lit "get-existing-agents");
  if limited : bool then mret (failure rateLimitMessage)
  else
    agents ← call "fileManager.loadExistingAgents" loadExistingAgents;
    mret (JObject [ (lit "success", JBoolean true); (lit "agents", agents) ]).

Definition getExistingAgentsHandler (loadExistingAgents : completion jsval) : M jsval :=
  tryCatch
    (getExistingAgentsAttempt loadExistingAgents)
    (λ error,
       _ ← consoleError;
       message ← (λ w, (sanitizeErrorMessage error, w)) : M jsstring;
       mret (failure message)).

(** The [try] block of the [process-pdf] handler. *)
Definition processPdfAttempt (filePath : jsval) (stat : completion stats)
    (required : completion unit) (readFile : completion jsval)
    (parsed : completion pdfData) : M jsval :=
  limited ← isRateLimitedM now (lit "process-pdf");
  if limited : bool then mret (failure rateLimitMessage)
  else
    _ ← validatePdfPath isAbsolute filePath stat;
    _ ← call "require" required;
    dataBuffer ← call "fs.readFile" readFile;
    pdfData ← call "pdfParse" parsed;
    mret (JObject [ (lit "success", JBoolean true);
                    (lit "text", pdfText pdfData);
                    (lit "pages", numpages pdfData);
                    (lit "info", info pdfData) ]).

Definition processPdfHandler (filePath : jsval) (stat : completion stats)
    (required : completion unit) (readFile : completion jsval)
    (parsed : completion pdfData) : M jsval :=
  tryCatch
    (processPdfAttempt filePath stat required readFile parsed)
    (λ error,
       _ ← consoleError;
       message ← (λ w, (sanitizeErrorMessage error, w)) : M jsstring;
       mret (failure message)).

(** The [try] block of the [load-settings] handler. *)
Definition loadSettingsAttempt (loadSettings : completion jsval) : M jsval :=
  limited ← isRateLimitedM now (lit "load-settings");
  if limited : bool then mret (settingsFailure rateLimitMessage)
  else
    settings ← call "fileManager.loadSettings" loadSettings;
    mret (JObject [ (lit "success", JBoolean true); (lit "settings", settings) ]).

Definition loadSettingsHandler (loadSettings : completion jsval) : M jsval :=
  tryCatch
    (loadSettingsAttempt loadSettings)
    (λ error,
       _ ← consoleError;
       message ← (λ w, (sanitizeErrorMessage error, w)) : M jsstring;
       mret (settingsFailure message)).

(** The [try] block of the [save-settings] handler. *)
Definition saveSettingsAttempt (settings : jsval) (saveSettings : completion unit) : M jsval :=
  limited ← isRateLimitedM now (lit "save-settings");
  if limited : bool then mret (failure rateLimitMessage)
  else
    _ ← (λ w, (validateSettings settings, w)) : M bool;
    _ ← call "fileManager.saveSettings" saveSettings;
    mret (JObject [ (lit "success", JBoolean true) ]).

Definition saveSettingsHandler (settings : jsval) (saveSettings : completion unit) : M jsval :=
  tryCatch
    (saveSettingsAttempt settings saveSettings)
    (λ error,
       _ ← consoleError;
       message ← (λ w, (sanitizeErrorMessage error, w)) : M jsstring;
       mret (failure message)).

(** The [try] block of the [load-template] handler. *)
Definition loadTemplateAttempt (loadTemplate : completion jsval) : M jsval :=
  limited ← isRateLimitedM now (lit "load-template");
  if limited : bool then mret (failure rateLimitMessage)
  else
    template ← call "fileManager.loadTemplate" loadTemplate;
    mret (JObject [ (lit "success", JBoolean true); (lit "template", template) ]).

Definition loadTemplateHandler (loadTemplate : completion jsval) : M jsval :=
  tryCatch
    (loadTemplateAttempt loadTemplate)
    (λ error,
       _ ← consoleError;
       message ← (λ w, (sanitizeErrorMessage error, w)) : M jsstring;
       mret (failure message)).

(** The [try] block of the [get-app-version] handler. *)
Definition getAppVersionAttempt (getVersion : completion jsstring) : M jsval :=
  limited ← isRateLimitedM now (lit "get-app-version");
  if limited : bool then mret (failure rateLimitMessage)
  else
    version ← call "app.getVersion" getVersion;
    mret (JString version).

Definition getAppVersionHandler (getVersion : completion jsstring) : M jsval :=
  tryCatch
    (getAppVersionAttempt getVersion)
    (λ error,
       _ ← consoleError;
       mret (JString (lit "1.0.0"))).

(** The [try] block of the [consult-agent] handler. *)
Definition consultAgentAttempt (agentType query : jsval)
    (consultAgent : completion jsval) : M jsval :=
  limited ← isRateLimitedM now (lit "consult-agent");
  if limited : bool then mret (failure rateLimitMessage)
  else
    _ ← (λ w, (validateAgentType agentType, w)) : M bool;
    if negb (toBoolean query) || negb (bool_decide (typeOf query = TString))
    then throw (newError (lit "Invalid query: must be a non-empty string"))
    else if 10000 <? lengthOf query
    then throw (newError (lit "Query too long: maximum 10,000 characters allowed"))
    else
      response ← call "fileManager.consultAgent" consultAgent;
      mret (JObject [ (lit "success", JBoolean true); (lit "response", response) ]).

Definition consultAgentHandler (agentType query : jsval)
    (consultAgent : completion jsval) : M jsval :=
  tryCatch
    (consultAgentAttempt agentType query consultAgent)
    (λ error,
       _ ← consoleError;
       message ← (λ w, (sanitizeErrorMessage error, w)) : M jsstring;
       mret (failure message)).

(** An invocation of a channel by the renderer: the arguments sent and
    how the operations the handler may call would end. *)
Inductive invocation :=
  | SaveAgent (agentData : jsval) (saveAgent : completion (list (jsstring * jsval)))
  | LoadAgents (loadGeneratedAgents : completion jsval)
  | GetExistingAgents (loadExistingAgents : completion jsval)
  | ProcessPdf (filePath : jsval) (stat : completion stats)
      (required : completion unit) (readFile : completion jsval)
      (parsed : completion pdfData)
  | LoadSettings (loadSettings : completion jsval)
  | SaveSettings (settings : jsval) (saveSettings : completion unit)
  | LoadTemplate (loadTemplate : completion jsval)
  | GetAppVersion (getVersion : completion jsstring)
  | ConsultAgent (agentType query : jsval) (consultAgent : completion jsval).

Definition channelOf (i : invocation) : jsstring :=
  match i with
  | SaveAgent _ _ => lit "save-agent"
  | LoadAgents _ => lit "load-agents"
  | GetExistingAgents _ => lit "get-existing-agents"
  | ProcessPdf _ _ _ _ _ => lit "process-pdf"
  | LoadSettings _ => lit "load-settings"
  | SaveSettings _ _ => lit "save-settings"
  | LoadTemplate _ => lit "load-template"
  | GetAppVersion _ => lit "get-app-version"
  | ConsultAgent _ _ _ => lit "consult-agent"
  end.

(** [ipcMain.handle]: the handler registered for the channel is run. *)
Definition handle (i : invocation) : M jsval :=
  match i with
  | SaveAgent agentData saveAgent => saveAgentHandler agentData saveAgent
  | LoadAgents loadGeneratedAgents => loadAgentsHandler loadGeneratedAgents
  | GetExistingAgents loadExistingAgents => getExistingAgentsHandler loadExistingAgents
  | ProcessPdf filePath stat required readFile parsed =>
      processPdfHandler filePath stat required readFile parsed
  | LoadSettings loadSettings => loadSettingsHandler loadSettings
  | SaveSettings settings saveSettings => saveSettingsHandler settings saveSettings
  | LoadTemplate loadTemplate => loadTemplateHandler loadTemplate
  | GetAppVersion getVersion => getAppVersionHandler getVersion
  | ConsultAgent agentType query consultAgent =>
      consultAgentHandler agentType query consultAgent
  end.

(** The [try] block of the handler registered for the channel. *)
Definition attempt (i : invocation) : M jsval :=
  match i with
  | SaveAgent agentData saveAgent => saveAgentAttempt agentData saveAgent
  | LoadAgents loadGeneratedAgents => loadAgentsAttempt loadGeneratedAgents
  | GetExistingAgents loadExistingAgents => getExistingAgentsAttempt loadExistingAgents
  | ProcessPdf filePath stat required readFile parsed =>
      processPdfAttempt filePath stat required readFile parsed
  | LoadSettings loadSettings => loadSettingsAttempt loadSettings
  | SaveSettings settings saveSettings => saveSettingsAttempt settings saveSettings
  | LoadTemplate loadTemplate => loadTemplateAttempt loadTemplate
  | GetAppVersion getVersion => getAppVersionAttempt getVersion
  | ConsultAgent agentType query consultAgent =>
      consultAgentAttempt agentType query consultAgent
  end.

End Handlers.

End IpcHandlers.

(** ** Documents and template data shared by the renderer *)

(** An uploaded document; [docText] is [None] when the [text] property is
    absent. *)
Record document := Document {
  docName : jsstring;
  docPath : jsstring;
  docText : option jsstring;
  docPages : Z
}.

(** The eight category names of the template. *)
Definition categories : list jsstring :=
  [ lit "coreFunctions"; lit "domainExpertise"; lit "inputTypes";
    lit "validationRules"; lit "outputFormat";
    lit "performanceConstraints"; lit "styleGuide";
    lit "integrationTargets" ].

(** [f.trim()] used as a condition. *)
Definition filled (f : jsstring) : bool := truthy (trim f).

(** [arr.filter((f) => f.trim()).length] *)
Definition countFilled (arr : list jsstring) : Z :=
  jslength (List.filter filled arr).

(** ** [TemplateProcessor] of [templateProcessor.js] *)

Module TemplateProcessor.

(** [item && item.trim() !== ''] *)
Definition nonEmptyItem (item : jsstring) : bool :=
  truthy item && negb (str_eqb (trim item) []).

(** The [forEach] over the category names that adds up [totalFields];
    [None] when [templateData[category]] is [undefined] and the call of
    [filter] on it throws. *)
Fixpoint sumCategories (cats : list jsstring) (templateData : jsobject)
    (totalFields : Z) : option Z :=
  match cats with
  | [] => Some totalFields
  | category :: rest =>
      match getProp category templateData with
      | None => None
      | Some arr =>
          let count := jslength (List.filter nonEmptyItem arr) in
          sumCategories rest templateData (totalFields + count)
      end
  end.

Definition estimateComplexity (templateData : jsobject) (documents : list document)
  : option jsstring :=
  match sumCategories categories templateData 0 with
  | None => None
  | Some totalFields =>
      let documentCount := jslength documents in
      if (50 <? totalFields) || (5 <? documentCount) then Some (lit "high")
      else if (15 <? totalFields) || (2 <? documentCount) then Some (lit "medium")
      else Some (lit "low")
  end.

(** [joinFields(fields)]; [None] is a value that is not an array, such
    as the [undefined] of a category that is absent. *)
Definition joinFields (fields : option (list jsstring)) : jsstring :=
  match fields with
  | None => lit "Not specified"
  | Some arr =>
      let filtered := List.filter nonEmptyItem arr in
      if jslength filtered =? 0 then lit "Not specified"
      else join (lit "; ") filtered
  end.

(** [filterEmpty] of [extractRequirements]: [(arr || []).filter(...)]. *)
Definition filterEmpty (arr : option (list jsstring)) : list jsstring :=
  List.filter nonEmptyItem (default [] arr).

Record requirements := Requirements {
  functions : list jsstring;
  inputs : list jsstring;
  outputs : list jsstring;
  constraints : list jsstring
}.

Definition extractRequirements (templateData : jsobject) : requirements :=
  {| functions :=
       filterEmpty (getProp (lit "coreFunctions") templateData)
       ++ filterEmpty (getProp (lit "domainExpertise") templateData);
     inputs :=
       filterEmpty (getProp (lit "inputTypes") templateData)
       ++ filterEmpty (getProp (lit "validationRules") templateData);
     outputs := filterEmpty (getProp (lit "outputFormat") templateData);
     constraints :=
       filterEmpty (getProp (lit "performanceConstraints") templateData)
       ++ filterEmpty (getProp (lit "styleGuide") templateData)
       ++ filterEmpty (getProp (lit "integrationTargets") templateData) |}.

(** The [forEach] of [validateTemplateData] over the category names,
    which counts the categories that have a value and pushes a warning
    for every other one but [coreFunctions]; [None] when
    [templateData[category]] is [undefined] and the call of [some] on it
    throws. *)
Fixpoint checkCategories (cats : list jsstring) (templateData : jsobject)
    (filledCategories : Z) (warnings : list jsstring)
  : option (Z * list jsstring) :=
  match cats with
  | [] => Some (filledCategories, warnings)
  | category :: rest =>
      match getProp category templateData with
      | None => None
      | Some arr =>
          if existsb nonEmptyItem arr
          then checkCategories rest templateData (filledCategories + 1) warnings
          else if negb (str_eqb category (lit "coreFunctions"))
          then checkCategories rest templateData filledCategories
                 (warnings ++ [lit "Category " ++ category ++ lit " is empty"])
          else checkCategories rest templateData filledCategories warnings
      end
  end.

(** [Math.round((filled / total) * 100)] for counts [0 <= filled <=
    total = 8]: quotient and product are exact in floating point, and
    [Math.round] rounds a half upwards. *)
Definition percentage (filled total : Z) : Z :=
  (2 * 100 * filled + total) / (2 * total).

Record validation := Validation {
  isValid : bool;
  errors : list jsstring;
  warnings : list jsstring;
  completeness : Z
}.

(** [validateTemplateData]; [None] when a category is absent and the
    method throws. *)
Definition validateTemplateData (templateData : jsobject) : option validation :=
  coreFunctions ← getProp (lit "coreFunctions") templateData;
  let hasCoreFunction := existsb nonEmptyItem coreFunctions in
  let errors :=
    if negb hasCoreFunction
    then [lit "At least one core function must be specified"]
    else [] in
  checked ← checkCategories categories templateData 0 [];
  Some {| isValid := jslength errors =? 0;
          errors := errors;
          warnings := snd checked;
          completeness := percentage (fst checked) (jslength categories) |}.

Record statistics := Statistics {
  totalFields : Z;
  totalCategories : Z;
  statDocumentCount : Z;
  statDocumentPages : Z;
  estimatedComplexity : jsstring
}.

(** [generateStatistics]; [None] when a category is absent and the
    method throws. *)
Definition generateStatistics (templateData : jsobject) (documents : list document)
  : option statistics :=
  totalFields ← sumCategories categories templateData 0;
  let documentCount := jslength documents in
  let totalDocumentPages :=
    List.fold_left
      (λ sum doc, sum + (if docPages doc =? 0 then 0 else docPages doc))
      documents 0 in
  complexity ← estimateComplexity templateData documents;
  Some {| totalFields := totalFields;
          totalCategories := jslength categories;
          statDocumentCount := documentCount;
          statDocumentPages := totalDocumentPages;
          estimatedComplexity := complexity |}.

(** [GetSubstitution] for a pattern that is a string, which has no
    captures: in the replacement text [$$] stands for [$], [$&] for the
    matched text, [$`] for the text before the match and [$'] for the
    text after it; any other [$] stands for itself. *)
Fixpoint getSubstitution (matched before after replacement : jsstring) : jsstring :=
  match replacement with
  | [] => []
  | c :: rest =>
      if (c =? 36)%N
      then match rest with
           | d :: rest' =>
               if (d =? 36)%N
               then 36%N :: getSubstitution matched before after rest'
               else if (d =? 38)%N
               then matched ++ getSubstitution matched before after rest'
               else if (d =? 96)%N
               then before ++ getSubstitution matched before after rest'
               else if (d =? 39)%N
               then after ++ getSubstitution matched before after rest'
               else c :: getSubstitution matched before after rest
           | [] => [c]
           end
      else c :: getSubstitution matched before after rest
  end.

(** [whole.replaceAll(search, replacement)] for a [search] that is not
    empty, read from left to right: [seen] is the part of [whole]
    already passed, [s] the part still ahead, and [skip] counts the
    code units of the current match still to be passed over. *)
Fixpoint replaceAllFrom (search replacement seen : jsstring) (skip : nat)
    (s : jsstring) : jsstring :=
  match s with
  | [] => []
  | c :: rest =>
      match skip with
      | S k => replaceAllFrom search replacement (seen ++ [c]) k rest
      | O =>
          if startsWith s search
          then getSubstitution search seen (drop (List.length search) s) replacement
               ++ replaceAllFrom search replacement (seen ++ [c])
                    (List.length search - 1) rest
          else c :: replaceAllFrom search replacement (seen ++ [c]) 0 rest
      end
  end.

Definition stringReplaceAll (search replacement whole : jsstring) : jsstring :=
  replaceAllFrom search replacement [] 0 whole.

(** The [metadata] of [fillTemplate]: [type], and [prefix], which is
    empty when the property is absent or falsy. *)
Record metadata := Metadata {
  metaType : jsstring;
  metaPrefix : jsstring
}.

(** [metadata.prefix || metadata.type.replace(/-/g, '_')] *)
Definition prefixOf (meta : metadata) : jsstring :=
  if truthy (metaPrefix meta) then metaPrefix meta
  else List.map (λ c, if (c =? 45)%N then 95%N else c) (metaType meta).

(** The object [replacements], in the order of its keys. *)
Definition replacements (templateData : jsobject) (meta : metadata)
  : list (jsstring * jsstring) :=
  [ (lit "[SUBAGENT_TYPE]", metaType meta);
    (lit "[CORE_FUNCTION]", joinFields (getProp (lit "coreFunctions") templateData));
    (lit "[DOMAIN]", joinFields (getProp (lit "domainExpertise") templateData));
    (lit "[INPUT_TYPES]", joinFields (getProp (lit "inputTypes") templateData));
    (lit "[VALIDATION]", joinFields (getProp (lit "validationRules") templateData));
    (lit "[OUTPUT_FORMAT]", joinFields (getProp (lit "outputFormat") templateData));
    (lit "[PERFORMANCE]",
      joinFields (getProp (lit "performanceConstraints") templateData));
    (lit "[STYLE_GUIDE]", joinFields (getProp (lit "styleGuide") templateData));
    (lit "[INTEGRATION_TARGETS]",
      joinFields (getProp (lit "integrationTargets") templateData));
    (lit "[PREFIX]", prefixOf meta);
    (lit "[TEST_COVERAGE]",
      joinFields (Some (default [] (getProp (lit "testCoverage") templateData)))) ].

(** [fillTemplate] for the template [this.template]. *)
Definition fillTemplate (template : jsstring) (templateData : jsobject)
    (meta : metadata) : jsstring :=
  List.fold_left
    (λ result entry, stringReplaceAll (fst entry) (snd entry) result)
    (replacements templateData meta) template.

End TemplateProcessor.

(** ** [HeadArchitectAgent] of [agentGenerator.js] *)

Module HeadArchitectAgent.

Record analysis := Analysis {
  coreFunctionCount : Z;
  domainExpertiseCount : Z;
  hasDocuments : bool;
  documentCount : Z;
  totalDocumentPages : Z;
  complexity : jsstring;
  suggestedConsultants : list jsstring
}.

(** A consultation as [createSpecification] reads it: [agentType] is the
    empty string when the property is absent or falsy, [available] is the
    truthiness of that property. *)
Record consultation := Consultation {
  agentType : jsstring;
  available : bool
}.

(** The keyword table of [suggestConsultants], in the order of the object
    literal. *)
Definition agentKeywords : list (jsstring * list jsstring) :=
  [ (lit "backend-developer",
      [lit "api"; lit "backend"; lit "server"; lit "database"; lit "rest"]);
    (lit "frontend-developer",
      [lit "ui"; lit "frontend"; lit "react"; lit "component"; lit "interface"]);
    (lit "security-engineer",
      [lit "security"; lit "authentication"; lit "authorization"; lit "encryption"]);
    (lit "database-optimizer",
      [lit "database"; lit "query"; lit "optimization"; lit "sql"]);
    (lit "code-reviewer",
      [lit "quality"; lit "review"; lit "best practice"; lit "standards"]);
    (lit "documentation-engineer",
      [lit "documentation"; lit "readme"; lit "guide"; lit "manual"]);
    (lit "test-automator",
      [lit "test"; lit "testing"; lit "qa"; lit "validation"]);
    (lit "performance-engineer",
      [lit "performance"; lit "optimization"; lit "speed"; lit "efficiency"]) ].

Section WithLowerCase.

(** [String.prototype.toLowerCase], a built-in of the language. *)
Variable toLowerCase : jsstring → jsstring.

(** [Object.values(templateData).flat().join(' ').toLowerCase()] *)
Definition allText (templateData : jsobject) : jsstring :=
  toLowerCase (join (lit " ") (List.concat (List.map snd templateData))).

(** The [for ... of] loop over the table, pushing on [consultants]. *)
Fixpoint collectConsultants (text : jsstring)
    (table : list (jsstring * list jsstring)) (consultants : list jsstring)
  : list jsstring :=
  match table with
  | [] => consultants
  | (agent, keywords) :: rest =>
      if existsb (fun keyword => includes text keyword) keywords
      then collectConsultants text rest (consultants ++ [agent])
      else collectConsultants text rest consultants
  end.

Definition suggestConsultants (templateData : jsobject) : list jsstring :=
  let consultants := collectConsultants (allText templateData) agentKeywords [] in
  firstn 3 consultants.

(** [analyzeInputData]; [None] when [templateData.coreFunctions] or
    [templateData.domainExpertise] is [undefined]. *)
Definition analyzeInputData (templateData : jsobject) (documents : list document)
  : option analysis :=
  match getProp (lit "coreFunctions") templateData,
        getProp (lit "domainExpertise") templateData with
  | Some coreFunctions, Some domainExpertise =>
      let totalFields :=
        List.fold_left (fun sum category => sum + countFilled category)
          (List.map snd templateData) 0 in
      let complexity :=
        if (50 <? totalFields) || (5 <? jslength documents) then lit "complex"
        else if (20 <? totalFields) || (2 <? jslength documents) then lit "moderate"
        else lit "simple" in
      Some {|
        coreFunctionCount := countFilled coreFunctions;
        domainExpertiseCount := countFilled domainExpertise;
        hasDocuments := 0 <? jslength documents;
        documentCount := jslength documents;
        totalDocumentPages :=
          List.fold_left (fun sum doc => sum + docPages doc) documents 0;
        complexity := complexity;
        suggestedConsultants := suggestConsultants templateData
      |}
  | _, _ => None
  end.

End WithLowerCase.

(** [arr.filter((f) => f.trim()).forEach((x) => sections.push(`- ${x}`))]:
    the lines pushed. *)
Definition bullets (arr : list jsstring) : list jsstring :=
  List.map (λ x, lit "- " ++ x) (List.filter filled arr).

(** [.forEach((func, i) => sections.push(`${i + 1}. ${func}`))] *)
Definition numbered (arr : list jsstring) : list jsstring :=
  imap (λ i func, numberToString (Z.of_nat i + 1) ++ lit ". " ++ func)
    (List.filter filled arr).

(** The line pushed for a document. *)
Definition documentLine (doc : document) : jsstring :=
  lit "- **" ++ docName doc ++ lit "** (" ++ numberToString (docPages doc)
  ++ lit " pages, "
  ++ numberToString (match docText doc with Some t => jslength t | None => 0 end)
  ++ lit " characters)".

(** The lines pushed by the [forEach] over the consultations. *)
Definition consultationLines (consultations : list consultation) : list jsstring :=
  List.map
    (λ c, lit "- **" ++ agentType c ++ lit "**: "
          ++ (if available c then lit "Provided guidance" else lit "Not available"))
    (List.filter (λ c, truthy (agentType c)) consultations).

(** The array [sections] at the end of [createSpecification].  [generated]
    is [new Date().toISOString()]; the unused parameter [_template] is
    left out.  A block of pushes guarded by a condition appends its
    lines when the condition holds and nothing otherwise.  The result is
    [None] when one of the eight category properties read from
    [templateData] is [undefined], where the method throws a
    [TypeError]. *)
Definition specificationSections (generated agentName agentType' : jsstring)
    (templateData : jsobject) (documents : list document) (analysis' : analysis)
    (consultations : list consultation) : option (list jsstring) :=
  coreFunctions ← getProp (lit "coreFunctions") templateData;
  domainExpertise ← getProp (lit "domainExpertise") templateData;
  inputTypes ← getProp (lit "inputTypes") templateData;
  validationRules ← getProp (lit "validationRules") templateData;
  outputFormat ← getProp (lit "outputFormat") templateData;
  performanceConstraints ← getProp (lit "performanceConstraints") templateData;
  styleGuide ← getProp (lit "styleGuide") templateData;
  integrationTargets ← getProp (lit "integrationTargets") templateData;
  let sections : list jsstring := [] in
  (* Header *)
  let sections := sections ++
    [ lit "# Subagent: " ++ agentName;
      [];
      lit "**Generated**: " ++ generated;
      lit "**Version**: 1.0.0";
      lit "**Type**: " ++ agentType';
      lit "**Complexity**: " ++ complexity analysis';
      [];
      lit "---";
      [] ] in
  (* Overview *)
  let sections := sections ++
    [ lit "## Overview";
      lit "This is a specialized " ++ agentType' ++ lit " subagent designed for:" ] in
  let sections := sections ++ numbered coreFunctions in
  let sections := sections ++ [ [] ] in
  (* Core Specifications *)
  let sections := sections ++ [ lit "## Core Specifications"; [] ] in
  let sections := sections ++
    (if existsb filled coreFunctions
     then [ lit "### Primary Functions" ] ++ bullets coreFunctions ++ [ [] ]
     else []) in
  let sections := sections ++
    (if existsb filled domainExpertise
     then [ lit "### Domain Expertise" ] ++ bullets domainExpertise ++ [ [] ]
     else []) in
  (* Technical Requirements *)
  let sections := sections ++ [ lit "## Technical Requirements"; [] ] in
  let sections := sections ++
    (if existsb filled inputTypes
     then [ lit "### Input Interface"; lit "**Expected inputs:**" ]
           ++ bullets inputTypes ++ [ [] ]
     else []) in
  let sections := sections ++
    (if existsb filled validationRules
     then [ lit "### Validation Rules" ] ++ bullets validationRules ++ [ [] ]
     else []) in
  let sections := sections ++
    (if existsb filled outputFormat
     then [ lit "### Output Contract"; lit "**Return format:**" ]
           ++ bullets outputFormat ++ [ [] ]
     else []) in
  let sections := sections ++
    (if existsb filled performanceConstraints
     then [ lit "### Performance Constraints" ]
           ++ bullets performanceConstraints ++ [ [] ]
     else []) in
  let sections := sections ++
    (if existsb filled styleGuide
     then [ lit "## Implementation Guidelines"; []; lit "### Code Style" ]
           ++ bullets styleGuide ++ [ [] ]
     else []) in
  let sections := sections ++
    (if existsb filled integrationTargets
     then [ lit "### Integration Points"; lit "Must interface with:" ]
           ++ bullets integrationTargets ++ [ [] ]
     else []) in
  (* Document Analysis *)
  let sections := sections ++
    (if 0 <? jslength documents
     then
           [ lit "## Contextual Documentation";
             [];
             lit "This subagent was generated with "
               ++ numberToString (jslength documents) ++ lit " supporting document(s):" ]
           ++ List.map documentLine documents
           ++ [ [];
                lit "### Key Insights from Documents";
                lit "The uploaded documents provide additional context and requirements that should be considered in the implementation.";
                [] ]
     else []) in
  (* Consultant Recommendations *)
  let sections := sections ++
    (if 0 <? jslength consultations
     then
           [ lit "## Expert Consultations";
             [];
             lit "This subagent design was informed by consulting the following expert agents:" ]
           ++ consultationLines consultations ++ [ [] ]
     else []) in
  (* Quality Criteria *)
  let sections := sections ++
    [ lit "## Quality Criteria";
      [];
      lit "This subagent must meet the following quality standards:";
      lit "- Production-ready code, not proof-of-concept";
      lit "- Comprehensive error handling with informative messages";
      lit "- Type hints for all functions where applicable";
      lit "- Inline documentation for complex logic";
      lit "- Test coverage for critical functionality";
      lit "- Idempotent operations where applicable";
      [] ] in
  (* Usage Instructions *)
  let sections := sections ++
    [ lit "## Usage Instructions";
      [];
      lit "This subagent should be used for tasks related to " ++ agentType' ++ lit ".";
      lit "Import and integrate according to your project structure.";
      [] ] in
  (* Footer *)
  let sections := sections ++
    [ lit "---";
      [];
      lit "*Generated by Claude Subagent Generator v1.0.0*";
      lit "*Head Architect: Complexity " ++ complexity analysis' ++ lit ", "
        ++ numberToString (jslength consultations) ++ lit " consultations*" ] in
  Some sections.

(** [createSpecification]: [sections.join('\n')]. *)
Definition createSpecification (generated agentName agentType' : jsstring)
    (templateData : jsobject) (documents : list document) (analysis' : analysis)
    (consultations : list consultation) : option jsstring :=
  join [10%N] <$>
    specificationSections generated agentName agentType' templateData documents
      analysis' consultations.

(** *** Consulting the existing agents and generating *)

(** How a promise of [window.electronAPI] settles: fulfilled with a
    value, or rejected with an error whose [message] is given. *)
Inductive promise (A : Type) :=
  | Fulfilled (value : A)
  | Failed (message : option jsstring).
Arguments Fulfilled {A} value.
Arguments Failed {A} message.

(** What [window.electronAPI.consultAgent] resolves to, as far as it is
    read: [success] and [response], which is [None] when it is falsy. *)
Record consultReply := ConsultReply {
  replySuccess : bool;
  replyResponse : option consultation
}.

(** What the service does besides computing its result. *)
Inductive event :=
  | LoadTemplateCalled
  | ConsultAgentCalled (agentType query : jsstring)
  | ErrorLogged.

#[global] Instance event_eq_dec : EqDecision event.
Proof. solve_decision. Defined.

(** The message of the error [generateSubagent] caught: that of a
    rejected promise, or that of a [TypeError] raised by the engine,
    whose wording the language does not fix. *)
Inductive failureMessage :=
  | Reported (message : option jsstring)
  | EngineTypeError.

(** What [generateSubagent] resolves to: [{ success: true,
    specification, metadata }], or [{ success: false, error }]. *)
Inductive generation :=
  | Generated (specification name kind timestamp : jsstring)
      (consultedAgents : list jsstring)
  | NotGenerated (error : failureMessage).

Section Generation.

Variable toLowerCase : jsstring → jsstring.

(** How [window.electronAPI.consultAgent] answers a call, which may
    depend on everything that has happened before. *)
Variable respond : list event → jsstring → jsstring → promise (option consultReply).

(** [consultAgent(agentType, query)]: [null], here [None], when the
    call fails, when its result is [null] or [undefined], or when its
    result does not report success. *)
Definition consultAgent (agentType' query : jsstring) (log : list event)
  : option consultation * list event :=
  let log' := log ++ [ConsultAgentCalled agentType' query] in
  match respond log agentType' query with
  | Fulfilled (Some result) =>
      (if replySuccess result then replyResponse result else None, log')
  | Fulfilled None => (None, log' ++ [ErrorLogged])
  | Failed _ => (None, log' ++ [ErrorLogged])
  end.

Definition practicesQuery (agentType' : jsstring) : jsstring :=
  lit "What are the best practices for creating a " ++ agentType'
  ++ lit " subagent?".

Definition guidanceQuery (agentType' : jsstring) : jsstring :=
  lit "Provide guidance for implementing a " ++ agentType'
  ++ lit " subagent with your expertise".

(** The [for ... of] loop over [analysis.suggestedConsultants]. *)
Fixpoint consultSuggested (agentType' : jsstring) (suggested : list jsstring)
    (consultations : list consultation) (log : list event)
  : list consultation * list event :=
  match suggested with
  | [] => (consultations, log)
  | agentName :: rest =>
      let r := consultAgent agentName (guidanceQuery agentType') log in
      consultSuggested agentType' rest
        (match fst r with
         | Some c => consultations ++ [c]
         | None => consultations
         end)
        (snd r)
  end.

Definition consultExistingAgents (agentType' : jsstring) (analysis' : analysis)
    (log : list event) : list consultation * list event :=
  let r := consultAgent (lit "code-reviewer") (practicesQuery agentType') log in
  consultSuggested agentType' (suggestedConsultants analysis')
    (match fst r with
     | Some c => [c]
     | None => []
     end)
    (snd r).

(** [generateSubagent]; [loadTemplate] is how the promise of
    [window.electronAPI.loadTemplate()] settles ([None]: with [null] or
    [undefined]), [generated] and [timestamp] are the two readings of
    [new Date().toISOString()]. *)
Definition generateSubagent (loadTemplate : promise (option unit))
    (generated timestamp : jsstring)
    (templateData : jsobject) (documents : list document)
    (agentName agentType' : jsstring) (log : list event)
  : generation * list event :=
  let log0 := log ++ [LoadTemplateCalled] in
  match loadTemplate with
  | Failed message => (NotGenerated (Reported message), log0 ++ [ErrorLogged])
  | Fulfilled None => (NotGenerated EngineTypeError, log0 ++ [ErrorLogged])
  | Fulfilled (Some _) =>
      match analyzeInputData toLowerCase templateData documents with
      | None => (NotGenerated EngineTypeError, log0 ++ [ErrorLogged])
      | Some analysis' =>
          let r := consultExistingAgents agentType' analysis' log0 in
          match createSpecification generated agentName agentType' templateData
                  documents analysis' (fst r) with
          | None => (NotGenerated EngineTypeError, snd r ++ [ErrorLogged])
          | Some specification =>
              (Generated specification agentName agentType' timestamp
                 (List.map agentType (fst r)),
               snd r)
          end
      end
  end.

End Generation.

End HeadArchitectAgent.

(** ** The hook [useAgentGenerator] *)

Module UseAgentGenerator.

(** The object [generateAgent] builds. *)
Record agentData := AgentData {
  agentName : jsstring;
  agentKind : jsstring;
  agentTemplateData : jsobject;
  agentDocuments : list document;
  agentTimestamp : jsstring
}.

(** The five [useState] cells; [None] is [null] (or [undefined]). *)
Record state := State {
  loading : bool;
  error : option jsstring;
  generatedAgent : option agentData;
  templateData : jsobject;
  documents : list document
}.

(** [Array(12).fill('')] *)
Definition emptyFields : list jsstring := replicate 12 [].

Definition emptyTemplateData : jsobject :=
  [ (lit "coreFunctions", emptyFields);
    (lit "domainExpertise", emptyFields);
    (lit "inputTypes", emptyFields);
    (lit "validationRules", emptyFields);
    (lit "outputFormat", emptyFields);
    (lit "performanceConstraints", emptyFields);
    (lit "styleGuide", emptyFields);
    (lit "integrationTargets", emptyFields) ].

Definition initialState : state :=
  {| loading := false; error := None; generatedAgent := None;
     templateData := emptyTemplateData; documents := [] |}.

(** [prev[category].map((item, i) => (i === index ? value : item))] *)
Definition replaceAt (index : Z) (value : jsstring) (arr : list jsstring)
  : list jsstring :=
  imap (λ i item, if Z.of_nat i =? index then value else item) arr.

(** [updateTemplateField]: the updater passed to [setTemplateData].  When
    [prev[category]] is [undefined] (or an inherited member, which has
    no [map]) the updater throws and no state is produced. *)
Definition updateTemplateField (category : jsstring) (index : Z) (value : jsstring)
    (st : state) : option state :=
  match getProp category (templateData st) with
  | None => None
  | Some arr =>
      Some {| loading := loading st; error := error st;
              generatedAgent := generatedAgent st;
              templateData := setProp category (replaceAt index value arr) (templateData st);
              documents := documents st |}
  end.

(** The argument of [addDocument]. *)
Record file := File { fileName : jsstring; filePath : jsstring }.

(** What [window.electronAPI.processPDF] resolves to. *)
Record pdfResult := PdfResult {
  success : bool;
  text : option jsstring;
  pages : Z;
  resultError : option jsstring
}.

(** The promise resolves to a result or rejects with an error whose
    [message] is given. *)
Inductive outcome (A : Type) :=
  | Resolved (result : A)
  | Rejected (message : option jsstring).
Arguments Resolved {A} result.
Arguments Rejected {A} message.

(** [addDocument].  The callback is created by [useCallback] in a render
    and closes over the [documents] of that render, [documentsAtRender];
    the guard reads that array, whereas [setDocuments((prev) => ...)]
    appends to the list the state holds when the promise settles. *)
Definition addDocument (documentsAtRender : list document) (f : file)
    (processPDF : outcome pdfResult) (st : state) : state :=
  if 12 <=? jslength documentsAtRender
  then {| loading := loading st; error := Some (lit "Maximum 12 documents allowed");
          generatedAgent := generatedAgent st; templateData := templateData st;
          documents := documents st |}
  else
    match processPDF with
    | Resolved result =>
        if success result
        then {| loading := false; error := None;
                generatedAgent := generatedAgent st; templateData := templateData st;
                documents :=
                  documents st ++
                  [ {| docName := fileName f; docPath := filePath f;
                       docText := text result; docPages := pages result |} ] |}
        else {| loading := false; error := resultError result;
                generatedAgent := generatedAgent st; templateData := templateData st;
                documents := documents st |}
    | Rejected message =>
        {| loading := false; error := message;
           generatedAgent := generatedAgent st; templateData := templateData st;
           documents := documents st |}
    end.

(** [prev.filter((_, i) => i !== index)] *)
Fixpoint removeIndex (index : Z) (i : Z) (docs : list document) : list document :=
  match docs with
  | [] => []
  | d :: rest =>
      if i =? index then removeIndex index (i + 1) rest
      else d :: removeIndex index (i + 1) rest
  end.

Definition removeDocument (index : Z) (st : state) : state :=
  {| loading := loading st; error := error st;
     generatedAgent := generatedAgent st; templateData := templateData st;
     documents := removeIndex index 0 (documents st) |}.

(** [generateAgent]; [timestamp] is [new Date().toISOString()]. *)
Definition generateAgent (name kind timestamp : jsstring) (st : state)
  : agentData * state :=
  let agentData :=
    {| agentName := name; agentKind := kind;
       agentTemplateData := templateData st; agentDocuments := documents st;
       agentTimestamp := timestamp |} in
  (agentData,
   {| loading := false; error := None; generatedAgent := Some agentData;
      templateData := templateData st; documents := documents st |}).

(** What [window.electronAPI.saveAgent] resolves to, as far as
    [saveAgent] reads it. *)
Record saveResult := SaveResult {
  saveSuccess : bool;
  saveError : option jsstring
}.

Definition saveAgent (saved : outcome saveResult) (st : state)
  : option saveResult * state :=
  match saved with
  | Resolved result =>
      if saveSuccess result
      then (Some result,
            {| loading := false; error := None;
               generatedAgent := generatedAgent st; templateData := templateData st;
               documents := documents st |})
      else (None,
            {| loading := false; error := saveError result;
               generatedAgent := generatedAgent st; templateData := templateData st;
               documents := documents st |})
  | Rejected message =>
      (None,
       {| loading := false; error := message;
          generatedAgent := generatedAgent st; templateData := templateData st;
          documents := documents st |})
  end.

Definition resetForm (st : state) : state :=
  {| loading := loading st; error := None; generatedAgent := None;
     templateData := emptyTemplateData; documents := [] |}.

(** The operations the hook hands out, and a run of them. *)
Inductive operation :=
  | UpdateTemplateField (category : jsstring) (index : Z) (value : jsstring)
  | AddDocument (documentsAtRender : list document) (f : file)
      (processPDF : outcome pdfResult)
  | RemoveDocument (index : Z)
  | GenerateAgent (name kind timestamp : jsstring)
  | SaveAgent (saved : outcome saveResult)
  | ResetForm.

Definition step (o : operation) (st : state) : option state :=
  match o with
  | UpdateTemplateField category index value =>
      updateTemplateField category index value st
  | AddDocument documentsAtRender f processPDF =>
      Some (addDocument documentsAtRender f processPDF st)
  | RemoveDocument index => Some (removeDocument index st)
  | GenerateAgent name kind timestamp => Some (snd (generateAgent name kind timestamp st))
  | SaveAgent saved => Some (snd (saveAgent saved st))
  | ResetForm => Some (resetForm st)
  end.

Fixpoint steps (os : list operation) (st : state) : option state :=
  match os with
  | [] => Some st
  | o :: rest =>
      match step o st with
      | None => None
      | Some st' => steps rest st'
      end
  end.

End UseAgentGenerator.

(** ** The components that use the hook *)

Module Components.
Import UseAgentGenerator.

(** A file of the selection of [DocumentUpload]: its name, path and
    MIME type, and how [window.electronAPI.processPDF] would settle for
    it. *)
Record selected := Selected {
  selectedName : jsstring;
  selectedPath : jsstring;
  selectedType : jsstring;
  selectedOutcome : outcome pdfResult
}.

(** [handleFileSelect] of [DocumentUpload]: the loop over the selected
    files.  [agentGenerator] is the object of the render in which the
    handler was created, so that every call of [addDocument] is one of
    the callback of that render, which closes over [documentsAtRender]. *)
Definition handleFileSelect (documentsAtRender : list document)
    (files : list selected) (st : state) : state :=
  List.fold_left
    (λ st file,
       if str_eqb (selectedType file) (lit "application/pdf")
       then addDocument documentsAtRender
              {| fileName := selectedName file; filePath := selectedPath file |}
              (selectedOutcome file) st
       else st)
    files st.

(** [item.trim() !== ''] *)
Definition notBlank (field : jsstring) : bool := negb (str_eqb (trim field) []).

(** [getFilledCount(category)] of [TemplateForm]; [None] when
    [templateData[category]] is [undefined]. *)
Definition getFilledCount (category : jsstring) (st : state) : option Z :=
  arr ← getProp category (templateData st);
  Some (jslength (List.filter notBlank arr)).

(** [getTotalFilledFields()] of [GenerateButton]. *)
Definition getTotalFilledFields (st : state) : Z :=
  List.fold_left
    (λ total category, total + jslength (List.filter notBlank category))
    (List.map snd (templateData st)) 0.

(** [canGenerate] of [GenerateButton]. *)
Definition canGenerate (st : state) : bool :=
  (0 <? getTotalFilledFields st) || (0 <? jslength (documents st)).

End Components.

(** ** The hook [useTheme] *)

Module UseTheme.

(** The state cell [theme] and the ref [initialLoadRef]. *)
Record themeState := ThemeState {
  theme : jsval;
  initialLoad : bool
}.

Definition initialTheme : themeState :=
  {| theme := JString (lit "dark"); initialLoad := true |}.

(** [v === 'text'] for a string literal. *)
Definition isText (v : jsval) (text : jsstring) : bool :=
  match v with
  | JString s => str_eqb s text
  | _ => false
  end.

(** [isDarkMode] *)
Definition isDarkMode (st : themeState) : bool := isText (theme st) (lit "dark").

(** What [window.electronAPI.loadSettings()] resolves to, as far as it
    is read: the truthiness of [success] and, unless [settings] is
    [null] or [undefined], the value of [settings.theme]. *)
Record settingsReply := SettingsReply {
  loadSuccess : bool;
  loadedTheme : option jsval
}.

(** [loadTheme], with [window.electronAPI] present, from the point at
    which the promise of [loadSettings] settles; [None] is a promise
    that is rejected or resolves to [null] or [undefined].  In that
    case, and where [settings] cannot be read, the function throws
    before it reaches the assignment to the ref. *)
Definition loadTheme (reply : option settingsReply) (st : themeState) : themeState :=
  match reply with
  | None => st
  | Some result =>
      if loadSuccess result
      then match loadedTheme result with
           | None => st
           | Some stored =>
               if toBoolean stored && initialLoad st
               then {| theme := stored; initialLoad := false |}
               else {| theme := theme st; initialLoad := false |}
           end
      else {| theme := theme st; initialLoad := false |}
  end.

(** [toggleTheme], with [window.electronAPI] present: the callback of
    the render that saw [themeAtRender]; the result is the new state
    and the argument of [window.electronAPI.saveSettings]. *)
Definition toggleTheme (themeAtRender : jsval) (st : themeState) : themeState * jsval :=
  let newTheme :=
    if isText themeAtRender (lit "dark") then lit "light" else lit "dark" in
  ({| theme := JString newTheme; initialLoad := false |},
   JObject [ (lit "theme", JString newTheme) ]).

(** What happens to the hook, in the order in which it happens. *)
Inductive occurrence :=
  | SettingsLoaded (reply : option settingsReply)
  | Toggled.

(** A run in which every toggle comes from the current render. *)
Fixpoint replay (os : list occurrence) (st : themeState) : themeState :=
  match os with
  | [] => st
  | SettingsLoaded reply :: rest => replay rest (loadTheme reply st)
  | Toggled :: rest => replay rest (fst (toggleTheme (theme st) st))
  end.

End UseTheme.

(** ** The preload script *)

Module Preload.

(** The methods of [window.electronAPI] and the channel each of them
    invokes. *)
Definition exposed : list (string * jsstring) :=
  [ ("saveAgent"%string, lit "save-agent");
    ("loadAgents"%string, lit "load-agents");
    ("getExistingAgents"%string, lit "get-existing-agents");
    ("processPDF"%string, lit "process-pdf");
    ("loadSettings"%string, lit "load-settings");
    ("saveSettings"%string, lit "save-settings");
    ("consultAgent"%string, lit "consult-agent");
    ("loadTemplate"%string, lit "load-template");
    ("getAppVersion"%string, lit "get-app-version") ].

End Preload.

(** * The vocabulary of the specification *)

(** A field holds something: at least one code unit that is not white
    space. *)
Definition nonBlank (f : jsstring) : Prop := Exists (λ c, isWhiteSpace c = false) f.

#[global] Instance nonBlank_dec f : Decision (nonBlank f).
Proof. unfold nonBlank. apply _. Defined.

(** The number of fields, of a list of fields, that hold something. *)
Definition filledFields (fields : list jsstring) : Z :=
  jslength (filter nonBlank fields).

(** All field values of a template data object, in the order of its keys. *)
Definition allFields (templateData : jsobject) : list jsstring :=
  List.concat (List.map snd templateData).

(** The field values of the eight named categories. *)
Definition categoryFields (templateData : jsobject) : list jsstring :=
  List.concat (List.map (λ c, default [] (getProp c templateData)) categories).

(** The three complexity tiers and their selection by two cutoffs on the
    number of filled fields and the cutoffs 2 and 5 on the documents. *)
Inductive tier := Bottom | Middle | Top.

Definition tierBy (lo hi fields docs : Z) : tier :=
  if decide (fields > hi ∨ docs > 5) then Top
  else if decide (fields > lo ∨ docs > 2) then Middle
  else Bottom.

Definition analysisTierName (t : tier) : jsstring :=
  match t with
  | Bottom => lit "simple"
  | Middle => lit "moderate"
  | Top => lit "complex"
  end.

Definition estimateTierName (t : tier) : jsstring :=
  match t with
  | Bottom => lit "low"
  | Middle => lit "medium"
  | Top => lit "high"
  end.

(** [keyword] occurs as a substring of [text]. *)
Definition occursIn (keyword text : jsstring) : Prop :=
  ∃ pre post, text = pre ++ keyword ++ post.

Lemma startsWith_spec s p : startsWith s p = true ↔ ∃ post, s = p ++ post.
Proof.
  revert s. induction p as [|c p IH]; intros s; cbn.
  - split; [intros _; by exists s | done].
  - destruct s as [|d s]; cbn.
    + split; [done | intros [post [=]]].
    + rewrite andb_true_iff, N.eqb_eq, IH. split.
      * intros [-> [post ->]]. by exists post.
      * intros [post [= -> ->]]. split; [done | by exists post].
Qed.

Lemma includes_spec s k : includes s k = true ↔ occursIn k s.
Proof.
  unfold occursIn. induction s as [|d s IH]; cbn [includes].
  - rewrite orb_false_r, startsWith_spec. split.
    + intros [post ->]. by exists [], post.
    + intros (pre & post & H). symmetry in H.
      apply app_eq_nil in H as [-> H]. apply app_eq_nil in H as [-> ->].
      by exists [].
  - rewrite orb_true_iff, startsWith_spec, IH. split.
    + intros [[post ->]|(pre & post & ->)]; [by exists [], post | by exists (d :: pre), post].
    + intros ([|e pre] & post & H); cbn in H.
      * left. by exists post.
      * injection H as -> ->. right. by exists pre, post.
Qed.

#[global] Instance occursIn_dec k s : Decision (occursIn k s).
Proof.
  destruct (includes s k) eqn:E.
  - left. by apply includes_spec.
  - right. intros H. apply includes_spec in H. congruence.
Defined.

(** A table entry matches a text when one of its keywords occurs in it. *)
Definition matchesText (text : jsstring) (entry : jsstring * list jsstring) : Prop :=
  Exists (λ keyword, occursIn keyword text) (snd entry).

#[global] Instance matchesText_dec text entry : Decision (matchesText text entry).
Proof. unfold matchesText. apply _. Defined.

(** A stand-in for [toLowerCase] when an example is evaluated: it agrees
    with the built-in on ASCII text. *)
Definition asciiLowerCase (s : jsstring) : jsstring :=
  List.map (λ c, if ((65 <=? c) && (c <=? 90))%N then (c + 32)%N else c) s.

(** Template data of the shape the form keeps (eight categories of twelve
    fields) with sixteen fields filled in. *)
Definition sixteenFilled : jsobject :=
  [ (lit "coreFunctions", replicate 12 (lit "Handle API requests"));
    (lit "domainExpertise", replicate 4 (lit "REST") ++ replicate 8 []);
    (lit "inputTypes", replicate 12 []);
    (lit "validationRules", replicate 12 []);
    (lit "outputFormat", replicate 12 []);
    (lit "performanceConstraints", replicate 12 []);
    (lit "styleGuide", replicate 12 []);
    (lit "integrationTargets", replicate 12 []) ].

(** For each category, the heading of its section in the generated
    specification and the lines that precede its list items. *)
Definition categorySections : list (jsstring * (jsstring * list jsstring)) :=
  [ (lit "coreFunctions",
      (lit "### Primary Functions", [lit "### Primary Functions"]));
    (lit "domainExpertise",
      (lit "### Domain Expertise", [lit "### Domain Expertise"]));
    (lit "inputTypes",
      (lit "### Input Interface",
       [lit "### Input Interface"; lit "**Expected inputs:**"]));
    (lit "validationRules",
      (lit "### Validation Rules", [lit "### Validation Rules"]));
    (lit "outputFormat",
      (lit "### Output Contract",
       [lit "### Output Contract"; lit "**Return format:**"]));
    (lit "performanceConstraints",
      (lit "### Performance Constraints", [lit "### Performance Constraints"]));
    (lit "styleGuide",
      (lit "### Code Style",
       [lit "## Implementation Guidelines"; []; lit "### Code Style"]));
    (lit "integrationTargets",
      (lit "### Integration Points",
       [lit "### Integration Points"; lit "Must interface with:"])) ].

(** A list item of the markdown document. *)
Definition listItem (entry : jsstring) : jsstring := lit "- " ++ entry.

(** The list item that names a consultation. *)
Definition consultationItem (c : HeadArchitectAgent.consultation) : jsstring :=
  lit "- **" ++ HeadArchitectAgent.agentType c ++ lit "**: "
  ++ (if HeadArchitectAgent.available c
      then lit "Provided guidance" else lit "Not available").

(** The footer line. *)
Definition footerLine (tierName : jsstring) (consultations : Z) : jsstring :=
  lit "*Head Architect: Complexity " ++ tierName ++ lit ", "
  ++ numberToString consultations ++ lit " consultations*".

(** The lines of the generated specification grouped by the block of
    statements of [createSpecification] that pushes them; a block guarded
    by a condition that fails contributes no line. *)
Definition categoryBlock (title arr : list jsstring) : list jsstring :=
  if existsb filled arr
  then title ++ HeadArchitectAgent.bullets arr ++ [ [] ]
  else [].

Definition specificationBlocks (generated agentName agentType' : jsstring)
    (coreFunctions domainExpertise inputTypes validationRules outputFormat
       performanceConstraints styleGuide integrationTargets : list jsstring)
    (documents : list document) (analysis' : HeadArchitectAgent.analysis)
    (consultations : list HeadArchitectAgent.consultation)
  : list (list jsstring) :=
  [ [ lit "# Subagent: " ++ agentName;
      [];
      lit "**Generated**: " ++ generated;
      lit "**Version**: 1.0.0";
      lit "**Type**: " ++ agentType';
      lit "**Complexity**: " ++ HeadArchitectAgent.complexity analysis';
      [];
      lit "---";
      [] ];
    [ lit "## Overview";
      lit "This is a specialized " ++ agentType' ++ lit " subagent designed for:" ];
    HeadArchitectAgent.numbered coreFunctions;
    [ [] ];
    [ lit "## Core Specifications"; [] ];
    categoryBlock [ lit "### Primary Functions" ] coreFunctions;
    categoryBlock [ lit "### Domain Expertise" ] domainExpertise;
    [ lit "## Technical Requirements"; [] ];
    categoryBlock [ lit "### Input Interface"; lit "**Expected inputs:**" ] inputTypes;
    categoryBlock [ lit "### Validation Rules" ] validationRules;
    categoryBlock [ lit "### Output Contract"; lit "**Return format:**" ] outputFormat;
    categoryBlock [ lit "### Performance Constraints" ] performanceConstraints;
    categoryBlock [ lit "## Implementation Guidelines"; []; lit "### Code Style" ]
      styleGuide;
    categoryBlock [ lit "### Integration Points"; lit "Must interface with:" ]
      integrationTargets;
    (if 0 <? jslength documents
     then [ lit "## Contextual Documentation";
            [];
            lit "This subagent was generated with "
              ++ numberToString (jslength documents) ++ lit " supporting document(s):" ]
          ++ List.map HeadArchitectAgent.documentLine documents
          ++ [ [];
               lit "### Key Insights from Documents";
               lit "The uploaded documents provide additional context and requirements that should be considered in the implementation.";
               [] ]
     else []);
    (if 0 <? jslength consultations
     then [ lit "## Expert Consultations";
            [];
            lit "This subagent design was informed by consulting the following expert agents:" ]
          ++ HeadArchitectAgent.consultationLines consultations ++ [ [] ]
     else []);
    [ lit "## Quality Criteria";
      [];
      lit "This subagent must meet the following quality standards:";
      lit "- Production-ready code, not proof-of-concept";
      lit "- Comprehensive error handling with informative messages";
      lit "- Type hints for all functions where applicable";
      lit "- Inline documentation for complex logic";
      lit "- Test coverage for critical functionality";
      lit "- Idempotent operations where applicable";
      [] ];
    [ lit "## Usage Instructions";
      [];
      lit "This subagent should be used for tasks related to " ++ agentType' ++ lit ".";
      lit "Import and integrate according to your project structure.";
      [] ];
    [ lit "---";
      [];
      lit "*Generated by Claude Subagent Generator v1.0.0*";
      footerLine (HeadArchitectAgent.complexity analysis') (jslength consultations) ] ].

(** The shape of the template data: the eight categories, in their
    order, each with twelve fields. *)
Definition twelveEach (templateData : jsobject) : Prop :=
  List.map fst templateData = categories
  ∧ Forall (λ entry, List.length (snd entry) = 12%nat) templateData.

(** An object that reports a failure: [success] is [false] and [error]
    is a string that is not empty. *)
Definition reportsFailure (r : jsval) : Prop :=
  getField (lit "success") r = JBoolean false
  ∧ ∃ message, getField (lit "error") r = JString message ∧ message ≠ [].

(** How the [catch] block of a handler ends for the value caught: with
    the object it returns, or with what the sanitiser throws. *)
Definition caught (i : IpcHandlers.invocation) (error : jsError) : completion jsval :=
  match i with
  | IpcHandlers.GetAppVersion _ => Return (JString (lit "1.0.0"))
  | IpcHandlers.LoadSettings _ =>
      match IpcHandlers.sanitizeErrorMessage error with
      | Return message => Return (IpcHandlers.settingsFailure message)
      | Throw e => Throw e
      end
  | _ =>
      match IpcHandlers.sanitizeErrorMessage error with
      | Return message => Return (IpcHandlers.failure message)
      | Throw e => Throw e
      end
  end.

(** A thrown value of which a message can be made: a value other than
    [null] and [undefined] whose [message] is a string, or is falsy,
    which counts as the empty message. *)
Definition hasMessage (error : jsError) (message : jsstring) : Prop :=
  error ≠ JNull ∧ error ≠ JUndefined
  ∧ (getField (lit "message") error = JString message
     ∨ (toBoolean (getField (lit "message") error) = false ∧ message = [])).

(** A thrown value of which none can be made: [null], [undefined], or
    a value whose [message] is truthy and is no string. *)
Definition hasNoMessage (error : jsError) : Prop :=
  error = JNull ∨ error = JUndefined
  ∨ (toBoolean (getField (lit "message") error) = true
     ∧ typeOf (getField (lit "message") error) ≠ TString).

(** What a handler returns when the rate limiter rejects the request. *)
Definition rejected (i : IpcHandlers.invocation) : jsval :=
  match i with
  | IpcHandlers.LoadSettings _ => IpcHandlers.settingsFailure IpcHandlers.rateLimitMessage
  | _ => IpcHandlers.failure IpcHandlers.rateLimitMessage
  end.

Definition isCall (e : effect) : Prop :=
  match e with
  | Called _ => True
  | _ => False
  end.

(** The failures inside a [try] block: an input that a validator rejects
    and an operation called by the handler that ends in an error, each
    with the error raised. *)
Inductive raises (isAbsolute : jsstring → bool)
  : IpcHandlers.invocation → jsError → Prop :=
  | invalid_agent_data agentData saveAgent e :
      IpcHandlers.validateAgentData agentData = Throw e →
      raises isAbsolute (IpcHandlers.SaveAgent agentData saveAgent) e
  | save_agent_fails agentData ok e :
      IpcHandlers.validateAgentData agentData = Return ok →
      raises isAbsolute (IpcHandlers.SaveAgent agentData (Throw e)) e
  | load_agents_fails e :
      raises isAbsolute (IpcHandlers.LoadAgents (Throw e)) e
  | existing_agents_fails e :
      raises isAbsolute (IpcHandlers.GetExistingAgents (Throw e)) e
  | path_not_a_string filePath stat required readFile parsed :
      toBoolean filePath = false ∨ typeOf filePath ≠ TString →
      raises isAbsolute
        (IpcHandlers.ProcessPdf filePath stat required readFile parsed)
        (newError (lit "Invalid file path: must be a string"))
  | path_not_absolute p stat required readFile parsed :
      p ≠ [] → isAbsolute p = false →
      raises isAbsolute
        (IpcHandlers.ProcessPdf (JString p) stat required readFile parsed)
        (newError (lit "Invalid file path: must be absolute"))
  | file_not_found p e required readFile parsed :
      p ≠ [] → isAbsolute p = true →
      getField (lit "code") e = JString (lit "ENOENT") →
      raises isAbsolute
        (IpcHandlers.ProcessPdf (JString p) (Throw e) required readFile parsed)
        (newError (lit "File not found"))
  | stat_fails p e required readFile parsed :
      p ≠ [] → isAbsolute p = true →
      e ≠ JNull → e ≠ JUndefined →
      getField (lit "code") e ≠ JString (lit "ENOENT") →
      raises isAbsolute
        (IpcHandlers.ProcessPdf (JString p) (Throw e) required readFile parsed) e
  | stat_fails_without_value p e required readFile parsed :
      p ≠ [] → isAbsolute p = true →
      e = JNull ∨ e = JUndefined →
      raises isAbsolute
        (IpcHandlers.ProcessPdf (JString p) (Throw e) required readFile parsed)
        (cannotRead e "code")
  | not_a_file p st required readFile parsed :
      p ≠ [] → isAbsolute p = true → IpcHandlers.isFile st = false →
      raises isAbsolute
        (IpcHandlers.ProcessPdf (JString p) (Return st) required readFile parsed)
        (newError (lit "Invalid file path: not a file"))
  | file_too_large p st required readFile parsed :
      p ≠ [] → isAbsolute p = true → IpcHandlers.isFile st = true →
      IpcHandlers.MAX_FILE_SIZE < IpcHandlers.size st →
      raises isAbsolute
        (IpcHandlers.ProcessPdf (JString p) (Return st) required readFile parsed)
        (newError (lit "File too large: maximum 10MB allowed"))
  | require_fails p st e readFile parsed :
      p ≠ [] → isAbsolute p = true → IpcHandlers.isFile st = true →
      IpcHandlers.size st ≤ IpcHandlers.MAX_FILE_SIZE →
      raises isAbsolute
        (IpcHandlers.ProcessPdf (JString p) (Return st) (Throw e) readFile parsed) e
  | read_file_fails p st e parsed :
      p ≠ [] → isAbsolute p = true → IpcHandlers.isFile st = true →
      IpcHandlers.size st ≤ IpcHandlers.MAX_FILE_SIZE →
      raises isAbsolute
        (IpcHandlers.ProcessPdf (JString p) (Return st) (Return tt) (Throw e) parsed) e
  | pdf_parse_fails p st buffer e :
      p ≠ [] → isAbsolute p = true → IpcHandlers.isFile st = true →
      IpcHandlers.size st ≤ IpcHandlers.MAX_FILE_SIZE →
      raises isAbsolute
        (IpcHandlers.ProcessPdf (JString p) (Return st) (Return tt) (Return buffer)
           (Throw e)) e
  | load_settings_fails e :
      raises isAbsolute (IpcHandlers.LoadSettings (Throw e)) e
  | invalid_settings settings saveSettings e :
      IpcHandlers.validateSettings settings = Throw e →
      raises isAbsolute (IpcHandlers.SaveSettings settings saveSettings) e
  | save_settings_fails settings ok e :
      IpcHandlers.validateSettings settings = Return ok →
      raises isAbsolute (IpcHandlers.SaveSettings settings (Throw e)) e
  | load_template_fails e :
      raises isAbsolute (IpcHandlers.LoadTemplate (Throw e)) e
  | get_version_fails e :
      raises isAbsolute (IpcHandlers.GetAppVersion (Throw e)) e
  | invalid_agent_type agentType query consultAgent e :
      IpcHandlers.validateAgentType agentType = Throw e →
      raises isAbsolute (IpcHandlers.ConsultAgent agentType query consultAgent) e
  | invalid_query agentType query consultAgent ok :
      IpcHandlers.validateAgentType agentType = Return ok →
      toBoolean query = false ∨ typeOf query ≠ TString →
      raises isAbsolute (IpcHandlers.ConsultAgent agentType query consultAgent)
        (newError (lit "Invalid query: must be a non-empty string"))
  | query_too_long agentType q consultAgent ok :
      IpcHandlers.validateAgentType agentType = Return ok →
      10000 < jslength q →
      raises isAbsolute (IpcHandlers.ConsultAgent agentType (JString q) consultAgent)
        (newError (lit "Query too long: maximum 10,000 characters allowed"))
  | consult_agent_fails agentType q ok e :
      IpcHandlers.validateAgentType agentType = Return ok →
      q ≠ [] → jslength q ≤ 10000 →
      raises isAbsolute (IpcHandlers.ConsultAgent agentType (JString q) (Throw e)) e.







(** The pattern matched by [matchAt] has a match somewhere in [s], the
    code unit [prev] preceding [s]. *)
Fixpoint matchesSomewhere (matchAt : option N → jsstring → option nat)
    (prev : option N) (s : jsstring) : bool :=
  match s with
  | [] => false
  | c :: rest =>
      match matchAt prev s with
      | Some (S _) => true
      | _ => false
      end
      || matchesSomewhere matchAt (Some c) rest
  end.

(** What holds of the rate limiter's map after any history run from
    the empty map: within any window that ends at or after the last
    request, a channel's stored times are the times of its accepted
    requests; every stored time is the time of a request; and a listed
    or unlisted channel stores no more times than its quota. *)
Definition inv (h : list RateLimiter.request)
    (log : list (RateLimiter.request * bool))
    (m : gmap (list N) (list Z)) : Prop :=
  ∀ c,
    (∀ now, Forall (λ d, RateLimiter.requestTime d ≤ now) h →
       filter (RateLimiter.inWindow now) (RateLimiter.stored m c)
       = filter (RateLimiter.inWindow now) (RateLimiter.accepted c log))
    ∧ (∀ t, t ∈ RateLimiter.stored m c →
         ∃ d, d ∈ h ∧ RateLimiter.requestTime d = t)
    ∧ (RateLimiter.inherited c = false →
       jslength (RateLimiter.stored m c) ≤ RateLimiter.quotaOf c).





(** ** What the handlers let through *)

(** An agent to save: an object with a name of 1 to 200 code units, a
    content of 1 to 1,000,000 code units and, if it has metadata, an
    object as metadata. *)
Definition acceptableAgentData (agentData : jsval) : Prop :=
  ∃ fields name content,
    agentData = JObject fields
    ∧ lookupField (lit "name") fields = JString name
    ∧ name ≠ [] ∧ jslength name ≤ 200
    ∧ lookupField (lit "content") fields = JString content
    ∧ content ≠ [] ∧ jslength content ≤ 1000000
    ∧ (toBoolean (lookupField (lit "metadata") fields) = false
       ∨ typeOf (lookupField (lit "metadata") fields) = TObject).

(** Settings to save: an object whose theme, unless it is falsy, is
    ['light'] or ['dark'] and whose two flags, where present, are
    booleans. *)
Definition acceptableSettings (settings : jsval) : Prop :=
  ∃ fields,
    settings = JObject fields
    ∧ (toBoolean (lookupField (lit "theme") fields) = false
       ∨ lookupField (lit "theme") fields = JString (lit "light")
       ∨ lookupField (lit "theme") fields = JString (lit "dark"))
    ∧ ∀ key, key ∈ [lit "autoSave"; lit "consultAgents"] →
        typeOf (lookupField key fields) = TUndefined
        ∨ typeOf (lookupField key fields) = TBoolean.

(** An agent type: 1 to 100 letters, digits, hyphens and underscores. *)
Definition acceptableAgentType (agentType : jsval) : Prop :=
  ∃ s,
    agentType = JString s ∧ s ≠ [] ∧ jslength s ≤ 100
    ∧ Forall (λ c, IpcHandlers.isSafeChar c = true) s.

(** A query: a string of 1 to 10,000 code units. *)
Definition acceptableQuery (query : jsval) : Prop :=
  ∃ q, query = JString q ∧ q ≠ [] ∧ jslength q ≤ 10000.

(** A file to parse: an absolute path at which [fs.stat] finds a file
    of at most 10 MB. *)
Definition acceptablePdf (isAbsolute : jsstring → bool) (filePath : jsval)
    (stat : completion IpcHandlers.stats) : Prop :=
  ∃ p st,
    filePath = JString p ∧ p ≠ [] ∧ isAbsolute p = true
    ∧ stat = Return st
    ∧ IpcHandlers.isFile st = true
    ∧ IpcHandlers.size st ≤ IpcHandlers.MAX_FILE_SIZE.

Definition acceptable (isAbsolute : jsstring → bool) (i : IpcHandlers.invocation)
  : Prop :=
  match i with
  | IpcHandlers.SaveAgent agentData _ => acceptableAgentData agentData
  | IpcHandlers.ProcessPdf filePath stat _ _ _ => acceptablePdf isAbsolute filePath stat
  | IpcHandlers.SaveSettings settings _ => acceptableSettings settings
  | IpcHandlers.ConsultAgent agentType query _ =>
      acceptableAgentType agentType ∧ acceptableQuery query
  | _ => True
  end.

(** The operations a handler calls behind its checks, in the order of
    the calls. *)
Definition guardedOperations (i : IpcHandlers.invocation) : list string :=
  match i with
  | IpcHandlers.SaveAgent _ _ => ["fileManager.saveAgent"%string]
  | IpcHandlers.LoadAgents _ => ["fileManager.loadGeneratedAgents"%string]
  | IpcHandlers.GetExistingAgents _ => ["fileManager.loadExistingAgents"%string]
  | IpcHandlers.ProcessPdf _ _ _ _ _ =>
      ["require"%string; "fs.readFile"%string; "pdfParse"%string]
  | IpcHandlers.LoadSettings _ => ["fileManager.loadSettings"%string]
  | IpcHandlers.SaveSettings _ _ => ["fileManager.saveSettings"%string]
  | IpcHandlers.LoadTemplate _ => ["fileManager.loadTemplate"%string]
  | IpcHandlers.GetAppVersion _ => ["app.getVersion"%string]
  | IpcHandlers.ConsultAgent _ _ _ => ["fileManager.consultAgent"%string]
  end.

(** All the operations a handler may call: for [process-pdf] also
    [fs.stat], which is part of the check of the path. *)
Definition operationsOf (i : IpcHandlers.invocation) : list string :=
  match i with
  | IpcHandlers.ProcessPdf _ _ _ _ _ => "fs.stat"%string :: guardedOperations i
  | _ => guardedOperations i
  end.

(** Serving requests one after the other: each is the time at which it
    is handled and the invocation; the result is the replies and the
    state of the main process reached. *)
Fixpoint serve (isAbsolute : jsstring → bool)
    (calls : list (Z * IpcHandlers.invocation)) (w : world)
  : list (completion jsval) * world :=
  match calls with
  | [] => ([], w)
  | call :: rest =>
      let r := IpcHandlers.handle isAbsolute (fst call) (snd call) w in
      let rs := serve isAbsolute rest (snd r) in
      (fst r :: fst rs, snd rs)
  end.

(** The calls as the limiter sees them. *)
Definition requestsOf (calls : list (Z * IpcHandlers.invocation))
  : list RateLimiter.request :=
  List.map (λ call, RateLimiter.Request (IpcHandlers.channelOf (snd call)) (fst call))
    calls.

(** The errors with which the operations an invocation may call would
    end. *)
Definition thrown {A} (outcome : completion A) : list jsError :=
  match outcome with
  | Throw e => [e]
  | Return _ => []
  end.

Definition operationErrors (i : IpcHandlers.invocation) : list jsError :=
  match i with
  | IpcHandlers.SaveAgent _ saveAgent => thrown saveAgent
  | IpcHandlers.LoadAgents loadGeneratedAgents => thrown loadGeneratedAgents
  | IpcHandlers.GetExistingAgents loadExistingAgents => thrown loadExistingAgents
  | IpcHandlers.ProcessPdf _ stat required readFile parsed =>
      thrown stat ++ thrown required ++ thrown readFile ++ thrown parsed
  | IpcHandlers.LoadSettings loadSettings => thrown loadSettings
  | IpcHandlers.SaveSettings _ saveSettings => thrown saveSettings
  | IpcHandlers.LoadTemplate loadTemplate => thrown loadTemplate
  | IpcHandlers.GetAppVersion getVersion => thrown getVersion
  | IpcHandlers.ConsultAgent _ _ consultAgent => thrown consultAgent
  end.

(** The messages of the errors the checks of the handlers throw. *)
Definition validationMessages : list jsstring :=
  [ lit "Invalid agent data: must be an object";
    lit "Invalid agent data: name is required and must be a string";
    lit "Invalid agent data: name too long (max 200 characters)";
    lit "Invalid agent data: content is required and must be a string";
    lit "Invalid agent data: content too large (max 1MB)";
    lit "Invalid agent data: metadata must be an object";
    lit "Invalid settings: must be an object";
    [73;110;118;97;108;105;100;32;115;101;116;116;105;110;103;115;58;32;116;104;101;109;101;32;109;117;115;116;32;98;101;32;34;108;105;103;104;116;34;32;111;114;32;34;100;97;114;107;34]%N;
    lit "Invalid settings: autoSave must be a boolean";
    lit "Invalid settings: consultAgents must be a boolean";
    lit "Invalid file path: must be a string";
    lit "Invalid file path: must be absolute";
    lit "Invalid file path: not a file";
    lit "File too large: maximum 10MB allowed";
    lit "File not found";
    lit "Invalid agent type: must be a non-empty string";
    lit "Invalid agent type: too long (max 100 characters)";
    lit "Invalid agent type: only alphanumeric, hyphens, and underscores allowed";
    lit "Invalid query: must be a non-empty string";
    lit "Query too long: maximum 10,000 characters allowed" ].

(** ** Template data as [TemplateProcessor] sees it *)

(** A category has a value: one of its fields holds something. *)
Definition hasValue (templateData : jsobject) (category : jsstring) : Prop :=
  Exists nonBlank (default [] (getProp category templateData)).

#[global] Instance hasValue_dec templateData category :
  Decision (hasValue templateData category).
Proof. unfold hasValue. apply _. Defined.

(** A category for which [validateTemplateData] warns: one without a
    value, other than [coreFunctions]. *)
Definition warnedAbout (templateData : jsobject) (category : jsstring) : Prop :=
  ¬ hasValue templateData category ∧ category ≠ lit "coreFunctions".

#[global] Instance warnedAbout_dec templateData category :
  Decision (warnedAbout templateData category).
Proof. unfold warnedAbout. apply _. Defined.

(** The warning for a category. *)
Definition emptyWarning (category : jsstring) : jsstring :=
  lit "Category " ++ category ++ lit " is empty".

(** ** What the generation service does *)

(** The calls of [window.electronAPI.consultAgent] among some events. *)
Definition isConsultation (e : HeadArchitectAgent.event) : Prop :=
  match e with
  | HeadArchitectAgent.ConsultAgentCalled _ _ => True
  | _ => False
  end.

#[global] Instance isConsultation_dec e : Decision (isConsultation e).
Proof. destruct e; cbn; apply _. Defined.

(** The consultations [generateSubagent] asks for: [code-reviewer]
    first, then the consultants suggested for the template data. *)
Definition plannedConsultations (toLowerCase : jsstring → jsstring)
    (templateData : jsobject) (agentType' : jsstring)
  : list HeadArchitectAgent.event :=
  HeadArchitectAgent.ConsultAgentCalled (lit "code-reviewer")
    (HeadArchitectAgent.practicesQuery agentType')
  :: List.map
       (λ agentName,
          HeadArchitectAgent.ConsultAgentCalled agentName
            (HeadArchitectAgent.guidanceQuery agentType'))
       (HeadArchitectAgent.suggestConsultants toLowerCase templateData).

(** ** Runs of the hook and uploads *)

(** Every [addDocument] of the run is the callback of the render that
    shows the documents held at that point. *)
Fixpoint currentRender (os : list UseAgentGenerator.operation)
    (st : UseAgentGenerator.state) : Prop :=
  match os with
  | [] => True
  | o :: rest =>
      match o with
      | UseAgentGenerator.AddDocument documentsAtRender _ _ =>
          documentsAtRender = UseAgentGenerator.documents st
      | _ => True
      end
      ∧ match UseAgentGenerator.step o st with
        | Some st' => currentRender rest st'
        | None => True
        end
  end.

(** The document a selected file becomes: a PDF whose processing
    succeeds. *)
Definition parsedDocument (file : Components.selected) : option document :=
  if str_eqb (Components.selectedType file) (lit "application/pdf")
  then match Components.selectedOutcome file with
       | UseAgentGenerator.Resolved result =>
           if UseAgentGenerator.success result
           then Some {| docName := Components.selectedName file;
                        docPath := Components.selectedPath file;
                        docText := UseAgentGenerator.text result;
                        docPages := UseAgentGenerator.pages result |}
           else None
       | UseAgentGenerator.Rejected _ => None
       end
  else None.

(** ** Templates *)

(** A template cut into pieces: text, and slots, each for one of the
    placeholders by its position in the list of replacements. *)
Inductive piece :=
  | Text (s : jsstring)
  | Slot (k : nat).

(** The pieces written out, with [strings] standing in the slots. *)
Definition renderWith (strings : list jsstring) (pieces : list piece) : jsstring :=
  List.concat
    (List.map
       (λ p, match p with
             | Text s => s
             | Slot k => default [] (strings !! k)
             end)
       pieces).

(** [search] has no occurrence that begins in [s], whatever follows
    [s]: at no position of [s] does [search] begin, nor does what is
    left of [s] from there begin [search]. *)
Fixpoint clearOf (search s : jsstring) : bool :=
  match s with
  | [] => true
  | _ :: rest =>
      negb (startsWith s search) && negb (startsWith search s) && clearOf search rest
  end.

(** A text without ['['] and without ['$']. *)
Definition plain (s : jsstring) : Prop := (91%N ∉ s) ∧ (36%N ∉ s).

(** The eleven placeholders, in the order in which [fillTemplate]
    replaces them. *)
Definition placeholders : list jsstring :=
  [ lit "[SUBAGENT_TYPE]"; lit "[CORE_FUNCTION]"; lit "[DOMAIN]";
    lit "[INPUT_TYPES]"; lit "[VALIDATION]"; lit "[OUTPUT_FORMAT]";
    lit "[PERFORMANCE]"; lit "[STYLE_GUIDE]"; lit "[INTEGRATION_TARGETS]";
    lit "[PREFIX]"; lit "[TEST_COVERAGE]" ].

(** A template in pieces whose placeholders are its slots: no
    placeholder begins in a text, and every slot is one of the eleven. *)
Definition slotted (pieces : list piece) : Prop :=
  Forall (λ p, match p with
               | Text s => Forall (λ search, clearOf search s = true) placeholders
               | Slot k => (k < List.length placeholders)%nat
               end) pieces.

(** * Properties *)

(** ** Strings and arrays *)

Lemma filter_bool_decide {A} (b : A → bool) (P : A → Prop) `{!∀ x, Decision (P x)} l :
  (∀ x, b x = true ↔ P x) → List.filter b l = filter P l.
Proof.
  intros Hb. induction l as [|x l IH]; [done|].
  cbn [List.filter]. rewrite filter_cons, IH.
  destruct (b x) eqn:E.
  - rewrite decide_True; [done | by apply Hb].
  - rewrite decide_False; [done|]. intros HP. apply Hb in HP. congruence.
Qed.

Lemma trimStart_nil s :
  trimStart s = [] ↔ Forall (λ c, isWhiteSpace c = true) s.
Proof.
  induction s as [|c s IH]; cbn.
  - split; [constructor | done].
  - destruct (isWhiteSpace c) eqn:E.
    + rewrite IH. split; [by constructor | by inversion 1].
    + split; [done | inversion 1; congruence].
Qed.

Lemma trim_nil s : trim s = [] ↔ Forall (λ c, isWhiteSpace c = true) s.
Proof.
  unfold trim, trimEnd. split.
  - intros H. apply (f_equal (@List.rev N)) in H.
    rewrite List.rev_involutive in H. cbn in H.
    apply trimStart_nil in H. apply Forall_forall. intros c Hc.
    destruct (isWhiteSpace c) eqn:E; [done|]. exfalso.
    assert (Hs : ∀ t, c ∈ t → c ∈ trimStart t).
    { induction t as [|d t IHt]; [done|]. cbn. intros Hd.
      destruct (isWhiteSpace d) eqn:Ed; [|done].
      apply elem_of_cons in Hd as [->|Hd]; [congruence | by apply IHt]. }
    apply Hs in Hc. rewrite Forall_forall in H.
    specialize (H c). rewrite E in H. discriminate H.
    apply list_elem_of_In, List.in_rev. rewrite List.rev_involutive.
    by apply list_elem_of_In.
  - intros H. apply trimStart_nil in H. by rewrite H.
Qed.

Lemma filled_nonBlank f : filled f = true ↔ nonBlank f.
Proof.
  unfold filled, nonBlank. rewrite Exists_exists.
  destruct (trim f) as [|c r] eqn:E; cbn.
  - apply trim_nil in E. rewrite Forall_forall in E. split; [done|].
    intros (c & Hc & Hw). rewrite (E c Hc) in Hw. discriminate.
  - split; [intros _ | done].
    destruct (decide (Forall (λ c, isWhiteSpace c = true) f)) as [Hf|Hf].
    + apply trim_nil in Hf. congruence.
    + apply not_Forall_Exists in Hf; [|apply _].
      apply Exists_exists in Hf as (d & Hd & Hw).
      exists d. split; [done|]. cbn in Hw. by destruct (isWhiteSpace d).
Qed.

Lemma str_eqb_eq a b : str_eqb a b = true ↔ a = b.
Proof. unfold str_eqb. apply bool_decide_eq_true. Qed.

Lemma str_eqb_refl a : str_eqb a a = true.
Proof. by apply str_eqb_eq. Qed.

Lemma str_eqb_neq a b : a ≠ b → str_eqb a b = false.
Proof. intros H. unfold str_eqb. by apply bool_decide_eq_false. Qed.

Lemma jslength_app {A} (l k : list A) : jslength (l ++ k) = jslength l + jslength k.
Proof. unfold jslength. rewrite length_app. lia. Qed.

Lemma jslength_filter_le {A} (P : A → Prop) `{!∀ x, Decision (P x)} (l : list A) :
  jslength (filter P l) ≤ jslength l.
Proof. unfold jslength. pose proof (length_filter P l). lia. Qed.


Module RateLimiterSpec.
Import RateLimiter.

Lemma run_snoc h c m :
  run (h ++ [c]) m =
  let rs := run h m in
  let r := isRateLimited (requestTime c) (requestChannel c) (snd rs) in
  (fst rs ++ [(c, fst r)], snd r).
Proof.
  revert m. induction h as [|d h IH]; intros m; simpl; [done|].
  rewrite IH. simpl. done.
Qed.

Lemma ownProperty_RATE_LIMITS c n :
  ownProperty c RATE_LIMITS = Some n → 5 ≤ n ≤ 60.
Proof.
  unfold RATE_LIMITS. cbn [ownProperty].
  repeat (destruct (str_eqb _ c); [intros [= <-]; lia|]).
  discriminate.
Qed.

Lemma quotaOf_pos c : 5 ≤ quotaOf c.
Proof.
  unfold quotaOf. destruct (ownProperty c RATE_LIMITS) as [n|] eqn:E; cbn; [|lia].
  apply ownProperty_RATE_LIMITS in E. lia.
Qed.

Lemma limitOf_quota c : inherited c = false → limitOf c = Quota (quotaOf c).
Proof.
  intros Hc. unfold limitOf, quotaOf. rewrite Hc.
  destruct (ownProperty c RATE_LIMITS) as [n|] eqn:E; [|done].
  apply ownProperty_RATE_LIMITS in E.
  destruct (Z.eqb_spec n 0); [lia|done].
Qed.

Lemma accepted_snoc c log d b :
  accepted c (log ++ [(d, b)]) =
  accepted c log ++ (if str_eqb (requestChannel d) c && negb b then [requestTime d] else []).
Proof.
  unfold accepted. rewrite List.filter_app, List.map_app. cbn.
  by destruct (str_eqb (requestChannel d) c && negb b).
Qed.

(** A later reading of the clock sees a subset of the earlier window. *)
Lemma filter_window_later now1 now2 (l : list Z) :
  now1 ≤ now2 →
  filter (inWindow now2) (filter (inWindow now1) l) = filter (inWindow now2) l.
Proof.
  intros Hle. apply list_filter_filter_l.
  intros t. unfold inWindow. lia.
Qed.

Lemma stored_insert m c l c' :
  stored (<[c := l]> m) c' = if decide (c = c') then l else stored m c'.
Proof. unfold stored. rewrite lookup_insert. by case_decide. Qed.

Lemma isRateLimited_stored now c m :
  stored (snd (isRateLimited now c m)) c =
  filter (inWindow now) (stored m c) ++
    (if fst (isRateLimited now c m) then [] else [now]).
Proof.
  unfold isRateLimited. fold (stored m c).
  destruct (reached _ _); cbn; rewrite stored_insert;
    (case_decide; [|done]); by rewrite ?app_nil_r.
Qed.

Lemma isRateLimited_stored_ne now c m c' :
  c ≠ c' → stored (snd (isRateLimited now c m)) c' = stored m c'.
Proof.
  intros Hne. unfold isRateLimited.
  destruct (reached _ _); cbn; rewrite stored_insert; by case_decide.
Qed.

Lemma isRateLimited_fst now c m :
  inherited c = false →
  fst (isRateLimited now c m) =
  bool_decide (quotaOf c ≤ jslength (filter (inWindow now) (stored m c))).
Proof.
  intros Hc. unfold isRateLimited. fold (stored m c).
  rewrite (limitOf_quota c Hc). cbn [reached].
  destruct (Z.leb_spec (quotaOf c) (jslength (filter (inWindow now) (stored m c))));
    cbn [fst]; symmetry; [by apply bool_decide_eq_true | apply bool_decide_eq_false; lia].
Qed.

Lemma run_inv h :
  StronglySorted Z.le (List.map requestTime h) →
  inv h (fst (run h ∅)) (snd (run h ∅)).
Proof.
  induction h as [|d h IH] using rev_ind; intros Hs.
  - intros c. pose proof (quotaOf_pos c).
    cbn [run fst snd]. unfold stored. rewrite lookup_empty.
    split_and!; [done| |intros _; unfold jslength; cbn [default List.length]; lia].
    intros t Ht. by apply elem_of_nil in Ht.
  - rewrite List.map_app in Hs. cbn in Hs.
    apply StronglySorted_app in Hs as (Hle & Hs & _).
    specialize (IH Hs). rewrite run_snoc. cbn zeta. cbn [fst snd].
    set (m := snd (run h ∅)) in *. set (log := fst (run h ∅)) in *.
    intros c. destruct (IH c) as (Ha & Hb & Hc).
    destruct (decide (requestChannel d = c)) as [<-|Hne].
    + rewrite isRateLimited_stored, accepted_snoc, str_eqb_refl. cbn [andb].
      split_and!.
      * intros now Hnow. apply Forall_app in Hnow as [Hh Hd].
        rewrite Forall_singleton in Hd.
        rewrite !filter_app, filter_window_later by done.
        rewrite Ha by done.
        by destruct (fst (isRateLimited _ _ _)).
      * intros t Ht. apply elem_of_app in Ht as [Ht|Ht].
        -- apply list_elem_of_filter in Ht as [_ Ht].
           destruct (Hb t Ht) as (d' & Hd' & <-).
           exists d'. split; [|done]. apply elem_of_app. by left.
        -- destruct (fst (isRateLimited _ _ _)); [by apply elem_of_nil in Ht|].
           apply list_elem_of_singleton in Ht as ->.
           exists d. split; [|done]. apply elem_of_app. right. by apply list_elem_of_singleton.
      * intros Hin. rewrite jslength_app.
        rewrite (isRateLimited_fst _ _ _ Hin).
        pose proof (jslength_filter_le (inWindow (requestTime d)) (stored m (requestChannel d))).
        specialize (Hc Hin).
        case_bool_decide; unfold jslength in *; cbn [List.length]; lia.
    + rewrite isRateLimited_stored_ne, accepted_snoc by done.
      rewrite str_eqb_neq by done. cbn [andb]. rewrite app_nil_r.
      split_and!; [| |done].
      * intros now Hnow. apply Forall_app in Hnow as [Hh _]. by apply Ha.
      * intros t Ht. destruct (Hb t Ht) as (d' & Hd' & <-).
        exists d'. split; [|done]. apply elem_of_app. by left.
Qed.

Lemma isRateLimited_snd now c m :
  snd (isRateLimited now c m) =
  <[c := filter (inWindow now) (stored m c) ++
         (if fst (isRateLimited now c m) then [] else [now])]> m.
Proof.
  unfold isRateLimited. fold (stored m c).
  destruct (reached _ _); cbn [fst snd]; by rewrite ?app_nil_r.
Qed.

Lemma sorted_history h now :
  StronglySorted Z.le (List.map requestTime h ++ [now]) →
  StronglySorted Z.le (List.map requestTime h) ∧ Forall (λ d, requestTime d ≤ now) h.
Proof.
  intros Hs. apply StronglySorted_app in Hs as (Hle & Hs & _).
  split; [done|]. apply Forall_forall. intros d Hd.
  apply Hle; [|by apply list_elem_of_singleton].
  apply list_elem_of_fmap. by exists d.
Qed.

(** C1: on every channel a request is rejected exactly when the requests
    let through earlier whose timestamps lie within the 60,000 ms before
    [now] already number the channel's quota of [RATE_LIMITS] (10 for an
    unlisted channel); otherwise it is let through and [now] is recorded
    in the channel's window. *)
Theorem isRateLimited_sliding_window (h : list request) (now : Z) (channel : jsstring) :
  StronglySorted Z.le (List.map requestTime h ++ [now]) →
  inherited channel = false →
  let log := fst (run h ∅) in
  let m := snd (run h ∅) in
  let recent := filter (inWindow now) (accepted channel log) in
  let r := isRateLimited now channel m in
  (fst r = true ↔ quotaOf channel ≤ jslength recent)
  ∧ (fst r = true → snd r = <[channel := recent]> m)
  ∧ (fst r = false → snd r = <[channel := recent ++ [now]]> m).
Proof.
  intros Hs Hin log m recent r.
  apply sorted_history in Hs as [Hs Hnow].
  destruct (run_inv h Hs channel) as (Ha & _ & _).
  specialize (Ha now Hnow). fold m log in Ha.
  subst r. rewrite isRateLimited_snd, isRateLimited_fst, Ha by done.
  fold recent. split_and!.
  - apply bool_decide_eq_true.
  - intros ->. by rewrite app_nil_r.
  - by intros ->.
Qed.

Lemma isRateLimited_sliding_window_witness :
  let h := List.map (Request (lit "process-pdf")) [0; 10; 20; 30; 61000; 61010] in
  StronglySorted Z.le (List.map requestTime h ++ [61020])
  ∧ inherited (lit "process-pdf") = false
  ∧ fst (isRateLimited 61020 (lit "process-pdf") (snd (run h ∅))) = false
  ∧ snd (isRateLimited 61020 (lit "process-pdf") (snd (run h ∅))) !! lit "process-pdf"
    = Some [61000; 61010; 61020].
Proof.
  intros h.
  assert (Hs : StronglySorted Z.le (List.map requestTime h ++ [61020])).
  { cbn. repeat (constructor; [repeat constructor; lia|]). constructor. }
  assert (Hr : fst (isRateLimited 61020 (lit "process-pdf") (snd (run h ∅))) = false)
    by reflexivity.
  destruct (isRateLimited_sliding_window h 61020 (lit "process-pdf") Hs eq_refl)
    as (_ & _ & He).
  split_and!; [done..|].
  rewrite (He Hr). rewrite lookup_insert_eq. reflexivity.
Defined.

(** C9: after a call of [isRateLimited] the array stored for the channel
    holds only timestamps of the last 60,000 ms and no more entries than
    the channel's quota; a rejected call stores no timestamp of its own,
    so that every later call is decided as if the rejected call had
    never been made. *)
Theorem isRateLimited_window_invariant (h : list request) (now : Z) (channel : jsstring) :
  StronglySorted Z.le (List.map requestTime h ++ [now]) →
  inherited channel = false →
  let m := snd (run h ∅) in
  let r := isRateLimited now channel m in
  Forall (λ t, 0 ≤ now - t < RATE_LIMIT_WINDOW) (stored (snd r) channel)
  ∧ jslength (stored (snd r) channel) ≤ quotaOf channel
  ∧ (fst r = true →
       stored (snd r) channel = filter (inWindow now) (stored m channel)
       ∧ ∀ now', now ≤ now' →
           isRateLimited now' channel (snd r) = isRateLimited now' channel m).
Proof.
  intros Hs Hin m r.
  pose proof Hs as Hs0.
  apply sorted_history in Hs0 as [Hs' Hnow].
  assert (Hs1 : StronglySorted Z.le (List.map requestTime (h ++ [Request channel now]))).
  { by rewrite List.map_app. }
  pose proof (run_inv _ Hs1 channel) as (_ & _ & Hq).
  rewrite run_snoc in Hq. cbn zeta in Hq. cbn [fst snd requestTime requestChannel] in Hq.
  fold m r in Hq.
  destruct (run_inv h Hs' channel) as (_ & Hb & _). fold m in Hb.
  split_and!.
  - subst r. rewrite isRateLimited_stored. apply Forall_app. split.
    + apply Forall_forall. intros t Ht.
      apply list_elem_of_filter in Ht as [Hw Ht]. unfold inWindow in Hw.
      destruct (Hb t Ht) as (d & Hd & <-).
      rewrite Forall_forall in Hnow. specialize (Hnow d Hd). lia.
    + destruct (fst (isRateLimited now channel m)); [constructor|].
      apply Forall_singleton. unfold RATE_LIMIT_WINDOW. lia.
  - by apply Hq.
  - intros Hr. subst r. rewrite isRateLimited_stored, Hr, app_nil_r.
    split; [done|]. intros now' Hle.
    unfold isRateLimited at 1 3. fold (stored m channel).
    fold (stored (snd (isRateLimited now channel m)) channel).
    rewrite isRateLimited_stored, Hr, app_nil_r, filter_window_later by done.
    rewrite isRateLimited_snd, Hr, app_nil_r, !insert_insert_eq.
    done.
Qed.

Lemma isRateLimited_window_invariant_witness :
  let h := List.map (Request (lit "process-pdf")) [0; 10; 20; 30; 40] in
  StronglySorted Z.le (List.map requestTime h ++ [50])
  ∧ inherited (lit "process-pdf") = false
  ∧ jslength (stored (snd (isRateLimited 50 (lit "process-pdf") (snd (run h ∅))))
                (lit "process-pdf")) ≤ 5.
Proof.
  intros h.
  assert (Hs : StronglySorted Z.le (List.map requestTime h ++ [50])).
  { cbn. repeat (constructor; [repeat constructor; lia|]). constructor. }
  destruct (isRateLimited_window_invariant h 50 (lit "process-pdf") Hs eq_refl)
    as (_ & Hq & _).
  split_and!; [done..|]. exact Hq.
Defined.

End RateLimiterSpec.

Module AnalysisSpec.
Import TemplateProcessor HeadArchitectAgent.

Lemma nonEmptyItem_nonBlank f : nonEmptyItem f = true ↔ nonBlank f.
Proof.
  rewrite <- filled_nonBlank. unfold nonEmptyItem, filled.
  destruct f as [|c f]; [done|]. cbn [truthy andb].
  destruct (trim (c :: f)) as [|d r]; cbn; [|done].
  by rewrite str_eqb_refl.
Qed.

Lemma filledFields_app l k : filledFields (l ++ k) = filledFields l + filledFields k.
Proof. unfold filledFields, jslength. rewrite filter_app, length_app. lia. Qed.

Lemma countFilled_filledFields arr : countFilled arr = filledFields arr.
Proof.
  unfold countFilled, filledFields.
  by rewrite (filter_bool_decide filled nonBlank arr filled_nonBlank).
Qed.

Lemma reduce_countFilled (values : list (list jsstring)) (sum : Z) :
  List.fold_left (λ sum category, sum + countFilled category) values sum =
  sum + filledFields (List.concat values).
Proof.
  revert sum. induction values as [|v values IH]; intros sum; cbn.
  - unfold filledFields, jslength. cbn. lia.
  - rewrite IH, filledFields_app, countFilled_filledFields. lia.
Qed.

Lemma sumCategories_spec cats templateData total :
  Forall (λ c, is_Some (getProp c templateData)) cats →
  sumCategories cats templateData total =
  Some (total + filledFields
          (List.concat (List.map (λ c, default [] (getProp c templateData)) cats))).
Proof.
  revert total. induction cats as [|c cats IH]; intros total Hall; cbn.
  - unfold filledFields, jslength. cbn. f_equal. lia.
  - apply Forall_cons in Hall as [[arr Harr] Hall].
    rewrite Harr. cbn [default]. rewrite IH by done.
    rewrite filledFields_app. unfold filledFields at 2.
    rewrite <- (filter_bool_decide nonEmptyItem nonBlank arr nonEmptyItem_nonBlank).
    f_equal. lia.
Qed.

Lemma tierBy_cases lo hi fields docs (A : Type) (top middle bottom : A) :
  (if (hi <? fields) || (5 <? docs) then top
   else if (lo <? fields) || (2 <? docs) then middle else bottom) =
  match tierBy lo hi fields docs with
  | Top => top | Middle => middle | Bottom => bottom
  end.
Proof.
  unfold tierBy.
  destruct (Z.ltb_spec hi fields), (Z.ltb_spec 5 docs),
    (Z.ltb_spec lo fields), (Z.ltb_spec 2 docs); cbn;
    repeat case_decide; try done; lia.
Qed.

(** C2 (as the code has it): with the eight categories present, the tier
    is selected by two cutoffs on the number of fields that are not blank
    and the cutoffs 2 and 5 on the number of documents: the cutoffs on the
    fields are 20 and 50 in [analyzeInputData], which counts the fields
    of every key of the object, and 15 and 50 in [estimateComplexity],
    which counts the fields of the eight categories. *)
Theorem complexity_tiers (toLowerCase : jsstring → jsstring)
    (templateData : jsobject) (documents : list document) :
  Forall (λ c, is_Some (getProp c templateData)) categories →
  (∃ a, analyzeInputData toLowerCase templateData documents = Some a
        ∧ complexity a =
          analysisTierName
            (tierBy 20 50 (filledFields (allFields templateData)) (jslength documents)))
  ∧ estimateComplexity templateData documents =
    Some (estimateTierName
            (tierBy 15 50 (filledFields (categoryFields templateData))
               (jslength documents))).
Proof.
  intros Hall. split.
  - pose proof Hall as Hall'.
    apply Forall_cons in Hall' as [[cf Hcf] Hall'].
    apply Forall_cons in Hall' as [[de Hde] _].
    unfold analyzeInputData. rewrite Hcf, Hde.
    eexists. split; [reflexivity|]. cbn [complexity].
    rewrite reduce_countFilled, Z.add_0_l. fold (allFields templateData).
    rewrite tierBy_cases. by destruct (tierBy _ _ _ _).
  - unfold estimateComplexity. rewrite (sumCategories_spec _ _ _ Hall), Z.add_0_l.
    fold (categoryFields templateData).
    rewrite (tierBy_cases 15 50 _ _ _ (Some (lit "high")) (Some (lit "medium")) (Some (lit "low"))).
    by destruct (tierBy _ _ _ _).
Qed.

Lemma complexity_tiers_witness :
  Forall (λ c, is_Some (getProp c sixteenFilled)) categories
  ∧ (∃ a, analyzeInputData asciiLowerCase sixteenFilled [] = Some a
          ∧ complexity a = lit "simple")
  ∧ estimateComplexity sixteenFilled [] = Some (lit "medium").
Proof.
  assert (H : Forall (λ c, is_Some (getProp c sixteenFilled)) categories).
  { repeat constructor; by eexists. }
  destruct (complexity_tiers asciiLowerCase sixteenFilled [] H) as [(a & Ha & Hc) He].
  split_and!; [done | | by rewrite He].
  exists a. split; [done|]. rewrite Hc. reflexivity.
Defined.

(** C2 as stated fails for [estimateComplexity]: sixteen filled fields
    and no document are below the cutoffs 20 and 2, yet the tier returned
    is the middle one. *)
Lemma complexity_tiers_counterexample :
  filledFields (categoryFields sixteenFilled) = 16
  ∧ estimateComplexity sixteenFilled [] = Some (lit "medium")
  ∧ estimateComplexity sixteenFilled [] ≠
    Some (estimateTierName
            (tierBy 20 50 (filledFields (categoryFields sixteenFilled)) (jslength (@nil document)))).
Proof. split_and!; [reflexivity | reflexivity | by vm_compute]. Qed.

Lemma collectConsultants_spec text table consultants :
  collectConsultants text table consultants =
  consultants ++ (filter (matchesText text) table).*1.
Proof.
  revert consultants. induction table as [|[agent keywords] table IH]; intros consultants.
  - cbn. by rewrite app_nil_r.
  - cbn [collectConsultants]. rewrite filter_cons.
    destruct (existsb (λ keyword, includes text keyword) keywords) eqn:E.
    + rewrite IH, decide_True.
      * rewrite fmap_cons. cbn. by rewrite <- app_assoc.
      * unfold matchesText. cbn. apply existsb_exists in E as (k & Hk & Hi).
        apply Exists_exists. exists k. split; [by apply list_elem_of_In|].
        by apply includes_spec.
    + rewrite IH, decide_False; [done|].
      unfold matchesText. cbn. intros H.
      apply Exists_exists in H as (k & Hk & Hi).
      assert (existsb (λ keyword, includes text keyword) keywords = true); [|congruence].
      apply existsb_exists. exists k. split; [by apply list_elem_of_In|].
      by apply includes_spec.
Qed.

(** C6: [suggestConsultants] returns the agent names of the keyword table
    of which a keyword occurs in the lower-cased, space-joined
    concatenation of all field values, in the order of the table, cut to
    the first three. *)
Theorem suggestConsultants_spec (toLowerCase : jsstring → jsstring)
    (templateData : jsobject) :
  suggestConsultants toLowerCase templateData =
  take 3
    (filter (matchesText (toLowerCase (join (lit " ") (allFields templateData))))
       agentKeywords).*1.
Proof.
  unfold suggestConsultants, allText. by rewrite collectConsultants_spec.
Qed.

Example suggestConsultants_truncates :
  suggestConsultants asciiLowerCase
    [ (lit "coreFunctions", [lit "Build React UI"; lit "Secure REST API"]);
      (lit "domainExpertise", [lit "SQL query tests"; lit "Speed"]) ] =
  [lit "backend-developer"; lit "frontend-developer"; lit "database-optimizer"].
Proof. reflexivity. Qed.

End AnalysisSpec.

Module SpecificationSpec.
Import HeadArchitectAgent.

Lemma bullets_listItem arr : bullets arr = listItem <$> filter nonBlank arr.
Proof.
  unfold bullets.
  by rewrite (filter_bool_decide filled nonBlank arr filled_nonBlank).
Qed.

Lemma existsb_filled arr : existsb filled arr = true ↔ Exists nonBlank arr.
Proof.
  rewrite existsb_exists, Exists_exists. split.
  - intros (f & Hf & Hn). exists f. split; [by apply list_elem_of_In|].
    by apply filled_nonBlank.
  - intros (f & Hf & Hn). exists f. split; [by apply list_elem_of_In|].
    by apply filled_nonBlank.
Qed.

Lemma join_app_last sep l y : l ≠ [] → ∃ pre, join sep (l ++ [y]) = pre ++ sep ++ y.
Proof.
  induction l as [|x l IH]; [done|]. intros _.
  destruct l as [|z l].
  - by exists x.
  - destruct IH as [pre Hpre]; [done|].
    exists (x ++ sep ++ pre).
    change ((x :: z :: l) ++ [y]) with (x :: ((z :: l) ++ [y])).
    change ((z :: l) ++ [y]) with (z :: (l ++ [y])) in *.
    change (join sep (x :: z :: l ++ [y])) with (x ++ sep ++ join sep (z :: l ++ [y])).
    rewrite Hpre. by rewrite <- !app_assoc.
Qed.

Lemma join_cons sep x y l : join sep (x :: y :: l) = x ++ sep ++ join sep (y :: l).
Proof. done. Qed.

Section Blocks.

Context (generated agentName agentType' : jsstring) (templateData : jsobject)
  (documents : list document) (analysis' : analysis)
  (consultations : list consultation).
Context (coreFunctions domainExpertise inputTypes validationRules outputFormat
  performanceConstraints styleGuide integrationTargets : list jsstring).
Hypothesis HcoreFunctions :
  getProp (lit "coreFunctions") templateData = Some coreFunctions.
Hypothesis HdomainExpertise :
  getProp (lit "domainExpertise") templateData = Some domainExpertise.
Hypothesis HinputTypes :
  getProp (lit "inputTypes") templateData = Some inputTypes.
Hypothesis HvalidationRules :
  getProp (lit "validationRules") templateData = Some validationRules.
Hypothesis HoutputFormat :
  getProp (lit "outputFormat") templateData = Some outputFormat.
Hypothesis HperformanceConstraints :
  getProp (lit "performanceConstraints") templateData = Some performanceConstraints.
Hypothesis HstyleGuide :
  getProp (lit "styleGuide") templateData = Some styleGuide.
Hypothesis HintegrationTargets :
  getProp (lit "integrationTargets") templateData = Some integrationTargets.

Lemma specificationSections_blocks :
  specificationSections generated agentName agentType' templateData documents
    analysis' consultations =
  Some (List.concat
          (specificationBlocks generated agentName agentType' coreFunctions
             domainExpertise inputTypes validationRules outputFormat
             performanceConstraints styleGuide integrationTargets documents
             analysis' consultations)).
Proof.
  unfold specificationSections.
  rewrite HcoreFunctions, HdomainExpertise, HinputTypes, HvalidationRules,
    HoutputFormat, HperformanceConstraints, HstyleGuide, HintegrationTargets.
  cbn [mbind option_bind]. f_equal.
  unfold specificationBlocks, categoryBlock, footerLine.
  cbn [List.concat]. rewrite app_nil_r, <- !app_assoc. cbn [app].
  reflexivity.
Qed.

End Blocks.

(** Two lines differ when their first code units do. *)
Ltac head_differs :=
  let H := fresh in
  intros H; apply (f_equal (List.hd 0%N)) in H; vm_compute in H; congruence.

Lemma string_of_uint_head d :
  match lit (NilEmpty.string_of_uint d) with
  | [] => True
  | c :: _ => (48 ≤ c ≤ 57)%N
  end.
Proof. destruct d; cbn; lia. Qed.

Lemma numberToString_head z :
  match numberToString z with
  | [] => True
  | c :: _ => c ≠ 35%N
  end.
Proof.
  unfold numberToString. destruct (Z.to_int z) as [d|d].
  - cbn [NilEmpty.string_of_int]. pose proof (string_of_uint_head d) as H.
    destruct (lit (NilEmpty.string_of_uint d)); [done | lia].
  - by cbn.
Qed.

Lemma heading_not_numbered (heading : jsstring) arr :
  List.hd 0%N heading = 35%N →
  Forall (λ line, line ≠ heading) (numbered arr).
Proof.
  intros Hh. unfold numbered. apply Forall_forall. intros line Hl.
  apply elem_of_lookup_imap in Hl as (i & f & -> & _).
  pose proof (numberToString_head (Z.of_nat i + 1)) as H.
  destruct (numberToString (Z.of_nat i + 1)) as [|c r];
    intros Heq; apply (f_equal (List.hd 0%N)) in Heq; rewrite Hh in Heq;
    vm_compute in Heq; congruence.
Qed.

(** Lines that begin with a hyphen are no headings. *)
Lemma heading_not_item (heading : jsstring) {A} (f : A → jsstring) (l : list A) :
  List.hd 0%N heading = 35%N →
  (∀ x, List.hd 0%N (f x) = 45%N) →
  Forall (λ line, line ≠ heading) (List.map f l).
Proof.
  intros Hh Hf. apply Forall_forall. intros line Hl.
  apply list_elem_of_In, List.in_map_iff in Hl as (x & <- & _).
  intros Heq. apply (f_equal (List.hd 0%N)) in Heq.
  rewrite Hh, Hf in Heq. discriminate.
Qed.

Lemma heading_not_bullets (heading : jsstring) arr :
  List.hd 0%N heading = 35%N → Forall (λ line, line ≠ heading) (bullets arr).
Proof. intros Hh. unfold bullets. by apply heading_not_item. Qed.

Lemma heading_not_categoryBlock (heading : jsstring) title arr :
  List.hd 0%N heading = 35%N →
  Forall (λ line, line ≠ heading) title →
  Forall (λ line, line ≠ heading) (categoryBlock title arr).
Proof.
  intros Hh Ht. unfold categoryBlock. destruct (existsb filled arr); [|constructor].
  rewrite !Forall_app. split_and!; [done | by apply heading_not_bullets|].
  apply Forall_singleton. intros <-. discriminate Hh.
Qed.

Lemma categoryBlock_blank (P : jsstring → Prop) title arr :
  ¬ Exists nonBlank arr → Forall P (categoryBlock title arr).
Proof.
  intros Hno. unfold categoryBlock.
  destruct (existsb filled arr) eqn:E; [|constructor].
  by apply existsb_filled in E.
Qed.

Lemma categoryBlock_filled title arr :
  Exists nonBlank arr →
  categoryBlock title arr = title ++ (listItem <$> filter nonBlank arr) ++ [ [] ].
Proof.
  intros Hex. apply existsb_filled in Hex. unfold categoryBlock.
  by rewrite Hex, bullets_listItem.
Qed.

Lemma consultationLines_items cons :
  consultationLines cons = consultationItem <$> filter (λ c, agentType c ≠ []) cons.
Proof.
  unfold consultationLines.
  rewrite (filter_bool_decide (λ c, truthy (agentType c)) (λ c, agentType c ≠ []) cons);
    [done|].
  intros c. by destruct (agentType c).
Qed.

Lemma concat_lookup_split {A} (blocks : list (list A)) k b :
  blocks !! k = Some b →
  List.concat blocks =
  List.concat (take k blocks) ++ b ++ List.concat (drop (S k) blocks).
Proof.
  intros H. rewrite <- (take_drop_middle _ _ _ H) at 1.
  by rewrite List.concat_app.
Qed.

Lemma not_elem_of_concat {A} (x : A) (blocks : list (list A)) :
  Forall (Forall (λ y, y ≠ x)) blocks → x ∉ List.concat blocks.
Proof.
  intros Hall Hx. apply list_elem_of_In, List.in_concat in Hx as (b & Hb & Hx).
  rewrite Forall_forall in Hall. apply list_elem_of_In in Hb, Hx.
  specialize (Hall b Hb). rewrite Forall_forall in Hall. by apply (Hall x).
Qed.

(** A line of fixed text, possibly with a variable part, differs from a
    heading. *)
Ltac line_differs :=
  let H := fresh in
  intros H; vm_compute in H; discriminate H.

Ltac lines_differ :=
  repeat (apply List.Forall_cons; [line_differs|]); apply List.Forall_nil.

Lemma heading_not_documents (heading : jsstring) (b : bool) first docs last :
  List.hd 0%N heading = 35%N →
  Forall (λ line, line ≠ heading) first →
  Forall (λ line, line ≠ heading) last →
  Forall (λ line, line ≠ heading)
    (if b then first ++ List.map documentLine docs ++ last else []).
Proof.
  intros Hh Hf Hl. destruct b; [|constructor].
  rewrite !Forall_app. split_and!; [done| |done].
  by apply heading_not_item.
Qed.

Lemma heading_not_consultations (heading : jsstring) (b : bool) first cons :
  List.hd 0%N heading = 35%N →
  Forall (λ line, line ≠ heading) first →
  Forall (λ line, line ≠ heading)
    (if b then first ++ consultationLines cons ++ [ [] ] else []).
Proof.
  intros Hh Hf. destruct b; [|constructor].
  rewrite !Forall_app. split_and!; [done| |].
  - unfold consultationLines. by apply heading_not_item.
  - apply Forall_singleton. intros <-. discriminate Hh.
Qed.

Ltac block_differs Hblank :=
  first
    [ by apply (categoryBlock_blank _ _ _ Hblank)
    | apply heading_not_categoryBlock; [reflexivity | lines_differ]
    | apply heading_not_numbered; reflexivity
    | apply heading_not_documents; [reflexivity | lines_differ | lines_differ]
    | apply heading_not_consultations; [reflexivity | lines_differ]
    | lines_differ ].

(** The two halves of the statement about one category, whose block is
    the [k]-th of [blocks]. *)
Ltac category_case blocks k :=
  split;
  [ let Hex := fresh in
    intros Hex;
    exists (List.concat (take k blocks)), (List.concat (drop (S k) blocks));
    rewrite (concat_lookup_split blocks k _ eq_refl) at 1;
    rewrite (categoryBlock_filled _ _ Hex), <- !app_assoc;
    reflexivity
  | let Hblank := fresh in
    intros Hblank; apply not_elem_of_concat;
    unfold blocks, specificationBlocks;
    repeat (apply List.Forall_cons; [block_differs Hblank|]);
    apply List.Forall_nil ].

(** C8: with the eight categories present [createSpecification] returns
    the lines of [sections] joined by newlines; the text begins with
    ['# Subagent: '] and the agent name; a category with an entry that
    is not blank has its title lines followed by one list item per such
    entry and an empty line, a category without one has no heading; a
    non-empty consultation list gives the 'Expert Consultations' section
    with one item per consultation that has an agent type; the text ends
    with the footer line that states the complexity tier and the number
    of consultations. *)
Theorem createSpecification_layout (generated agentName agentType' : jsstring)
    (templateData : jsobject) (documents : list document) (analysis' : analysis)
    (consultations : list consultation) :
  Forall (λ c, is_Some (getProp c templateData)) categories →
  ∃ sections,
    specificationSections generated agentName agentType' templateData documents
      analysis' consultations = Some sections
    ∧ createSpecification generated agentName agentType' templateData documents
        analysis' consultations = Some (join [10%N] sections)
    ∧ (∃ rest, join [10%N] sections = lit "# Subagent: " ++ agentName ++ rest)
    ∧ (∀ category heading title,
         (category, (heading, title)) ∈ categorySections →
         ∃ arr, getProp category templateData = Some arr
           ∧ (Exists nonBlank arr →
                ∃ pre post,
                  sections =
                  pre ++ title ++ (listItem <$> filter nonBlank arr) ++ [ [] ] ++ post)
           ∧ (¬ Exists nonBlank arr → heading ∉ sections))
    ∧ (consultations ≠ [] →
         ∃ pre post,
           sections =
           pre ++ [ lit "## Expert Consultations"; [];
                    lit "This subagent design was informed by consulting the following expert agents:" ]
               ++ (consultationItem <$> filter (λ c, agentType c ≠ []) consultations)
               ++ [ [] ] ++ post)
    ∧ (∃ pre, join [10%N] sections =
              pre ++ [10%N] ++ footerLine (complexity analysis') (jslength consultations)).
Proof.
  intros Hall.
  apply Forall_cons in Hall as [[a1 H1] Hall].
  apply Forall_cons in Hall as [[a2 H2] Hall].
  apply Forall_cons in Hall as [[a3 H3] Hall].
  apply Forall_cons in Hall as [[a4 H4] Hall].
  apply Forall_cons in Hall as [[a5 H5] Hall].
  apply Forall_cons in Hall as [[a6 H6] Hall].
  apply Forall_cons in Hall as [[a7 H7] Hall].
  apply Forall_cons in Hall as [[a8 H8] _].
  pose proof (specificationSections_blocks generated agentName agentType'
    templateData documents analysis' consultations _ _ _ _ _ _ _ _
    H1 H2 H3 H4 H5 H6 H7 H8) as Hsec.
  eexists. split; [exact Hsec|].
  split; [unfold createSpecification; by rewrite Hsec|].
  clear Hsec.
  match goal with |- context [List.concat ?b] => set (blocks := b) end.
  split_and!.
  - unfold blocks, specificationBlocks. cbn [List.concat app].
    rewrite join_cons, <- app_assoc. by eexists.
  - intros category heading title Hin. unfold categorySections in Hin.
    repeat (apply elem_of_cons in Hin as [Hin|Hin]); [..|by apply elem_of_nil in Hin];
      injection Hin as -> -> ->; eexists; (split; [eassumption|]).
    + category_case blocks 5%nat.
    + category_case blocks 6%nat.
    + category_case blocks 8%nat.
    + category_case blocks 9%nat.
    + category_case blocks 10%nat.
    + category_case blocks 11%nat.
    + category_case blocks 12%nat.
    + category_case blocks 13%nat.
  - intros Hne.
    assert (Hpos : (0 <? jslength consultations) = true).
    { destruct consultations; [done|]. apply Z.ltb_lt. unfold jslength. cbn. lia. }
    exists (List.concat (take 15 blocks)), (List.concat (drop 16 blocks)).
    rewrite (concat_lookup_split blocks 15 _ eq_refl) at 1.
    rewrite Hpos, consultationLines_items, <- !app_assoc.
    reflexivity.
  - rewrite (concat_lookup_split blocks 18 _ eq_refl).
    cbn [drop List.concat]. rewrite app_nil_r.
    match goal with
    | |- context [?pre ++ [?a; ?b; ?c; ?f]] =>
        change (pre ++ [a; b; c; f]) with (pre ++ [a; b; c] ++ [f]);
        rewrite (app_assoc pre [a; b; c] [f]);
        destruct (join_app_last [10%N] (pre ++ [a; b; c]) f) as [p Hp]
    end.
    { intros H. apply app_eq_nil in H as [_ H]. discriminate H. }
    by exists p.
Qed.

Lemma createSpecification_layout_witness :
  Forall (λ c, is_Some (getProp c sixteenFilled)) categories
  ∧ ∃ pre, createSpecification (lit "2025-10-25T00:00:00.000Z") (lit "ApiAgent")
             (lit "backend-developer") sixteenFilled []
             (Analysis 12 4 false 0 0 (lit "simple") [lit "backend-developer"])
             [Consultation (lit "code-reviewer") true]
           = Some (pre ++ [10%N] ++ footerLine (lit "simple") 1).
Proof.
  assert (H : Forall (λ c, is_Some (getProp c sixteenFilled)) categories).
  { repeat constructor; by eexists. }
  split; [done|].
  destruct (createSpecification_layout (lit "2025-10-25T00:00:00.000Z") (lit "ApiAgent")
              (lit "backend-developer") sixteenFilled []
              (Analysis 12 4 false 0 0 (lit "simple") [lit "backend-developer"])
              [Consultation (lit "code-reviewer") true] H)
    as (sections & _ & Hc & _ & _ & _ & pre & Hpre).
  exists pre. rewrite Hc, Hpre. reflexivity.
Defined.

End SpecificationSpec.

Module FormStateSpec.
Import UseAgentGenerator.

Lemma getProp_setProp_eq key v (o : jsobject) :
  getProp key (setProp key v o) = Some v.
Proof.
  induction o as [|[k w] o IH]; cbn.
  - by rewrite str_eqb_refl.
  - destruct (str_eqb k key) eqn:E; cbn; by rewrite E.
Qed.

Lemma getProp_setProp_ne key key' v (o : jsobject) :
  key' ≠ key → getProp key' (setProp key v o) = getProp key' o.
Proof.
  intros Hne. induction o as [|[k w] o IH]; cbn.
  - by rewrite str_eqb_neq.
  - destruct (str_eqb k key) eqn:E; cbn; [|by rewrite IH].
    apply str_eqb_eq in E as ->. by rewrite str_eqb_neq.
Qed.

Lemma setProp_keys key v w (o : jsobject) :
  getProp key o = Some w → List.map fst (setProp key v o) = List.map fst o.
Proof.
  induction o as [|[k u] o IH]; cbn; [done|].
  destruct (str_eqb k key) eqn:E; cbn; [done|].
  intros H. by rewrite IH.
Qed.

Lemma setProp_Forall (P : jsstring * list jsstring → Prop) key v (o : jsobject) :
  (∀ k, P (k, v)) → Forall P o → Forall P (setProp key v o).
Proof.
  intros Hv. induction 1 as [|[k u] o Hk Ho IH]; cbn.
  - by constructor.
  - destruct (str_eqb k key); constructor; auto.
Qed.

Lemma getProp_Forall (P : jsstring * list jsstring → Prop) key v (o : jsobject) :
  Forall P o → getProp key o = Some v → ∃ k, P (k, v).
Proof.
  induction 1 as [|[k u] o Hk Ho IH]; cbn; [done|].
  destruct (str_eqb k key); [|done]. intros [= ->]. by exists k.
Qed.

Lemma getProp_keys key (o : jsobject) :
  key ∈ List.map fst o → is_Some (getProp key o).
Proof.
  induction o as [|[k u] o IH]; cbn.
  - intros H. by apply elem_of_nil in H.
  - intros H. destruct (str_eqb k key) eqn:E; [by eexists|].
    apply elem_of_cons in H as [->|H]; [|by apply IH].
    by rewrite str_eqb_refl in E.
Qed.

Lemma replaceAt_length index value arr :
  List.length (replaceAt index value arr) = List.length arr.
Proof. unfold replaceAt. apply length_imap. Qed.

Lemma replaceAt_from (k : nat) (index : Z) (value : jsstring) (arr : list jsstring) :
  imap (λ i item, if Z.of_nat (k + i) =? index then value else item) arr =
  if decide (Z.of_nat k ≤ index)
  then <[Z.to_nat (index - Z.of_nat k) := value]> arr
  else arr.
Proof.
  revert k. induction arr as [|x arr IH]; intros k.
  - cbn. by case_decide.
  - rewrite imap_cons. cbn [Nat.add].
    erewrite imap_ext; last first.
    { intros i y _. cbn. replace (k + S i)%nat with (S k + i)%nat by lia. reflexivity. }
    rewrite IH. rewrite Nat.add_0_r.
    destruct (Z.eqb_spec (Z.of_nat k) index) as [<-|Hne].
    + rewrite decide_False by lia. rewrite decide_True by lia.
      by rewrite Z.sub_diag.
    + case_decide.
      * rewrite decide_True by lia.
        replace (Z.to_nat (index - Z.of_nat k)) with (S (Z.to_nat (index - Z.of_nat (S k))))
          by lia.
        done.
      * by rewrite decide_False by lia.
Qed.

Lemma replaceAt_insert index value arr :
  replaceAt index value arr =
  if decide (0 ≤ index) then <[Z.to_nat index := value]> arr else arr.
Proof.
  unfold replaceAt. pose proof (replaceAt_from 0 index value arr) as H.
  cbn [Nat.add] in H. rewrite H. cbn. by rewrite Z.sub_0_r.
Qed.

Lemma twelveEach_get (o : jsobject) category :
  twelveEach o → category ∈ categories →
  ∃ arr, getProp category o = Some arr ∧ List.length arr = 12%nat.
Proof.
  intros [Hkeys Hlen] Hc. rewrite <- Hkeys in Hc.
  destruct (getProp_keys _ _ Hc) as [arr Harr].
  exists arr. split; [done|].
  by destruct (getProp_Forall _ _ _ _ Hlen Harr) as [k Hk].
Qed.

Lemma twelveEach_empty : twelveEach emptyTemplateData.
Proof. split; [reflexivity|]. repeat constructor. Qed.

Lemma updateTemplateField_twelveEach category index value st st' :
  twelveEach (templateData st) →
  updateTemplateField category index value st = Some st' →
  twelveEach (templateData st').
Proof.
  intros [Hkeys Hlen]. unfold updateTemplateField.
  destruct (getProp category (templateData st)) as [arr|] eqn:E; [|done].
  intros [= <-]. cbn. split.
  - by rewrite (setProp_keys _ _ _ _ E).
  - apply setProp_Forall; [|done]. intros k0. cbn.
    rewrite replaceAt_length.
    by destruct (getProp_Forall _ _ _ _ Hlen E) as [k Hk].
Qed.

Lemma step_twelveEach o st st' :
  twelveEach (templateData st) → step o st = Some st' → twelveEach (templateData st').
Proof.
  intros Hst. destruct o; cbn [step].
  - by apply updateTemplateField_twelveEach.
  - intros [= <-]. unfold addDocument.
    destruct (12 <=? _); [done|].
    destruct processPDF as [result|message]; [|done]. by destruct (success result).
  - by intros [= <-].
  - by intros [= <-].
  - intros [= <-]. destruct saved as [result|message]; [|done].
    cbn. by destruct (saveSuccess result).
  - intros [= <-]. apply twelveEach_empty.
Qed.

Lemma steps_twelveEach os st st' :
  twelveEach (templateData st) → steps os st = Some st' → twelveEach (templateData st').
Proof.
  revert st. induction os as [|o os IH]; intros st Hst; cbn.
  - by intros [= <-].
  - destruct (step o st) as [st1|] eqn:E; [|done].
    apply IH. by apply (step_twelveEach o st).
Qed.

(** C5: the template data starts as eight arrays of twelve strings and
    keeps that shape in every state any run of the hook's operations
    reaches; there [updateTemplateField] on a category puts the value at
    the position [index] of that category's array, which keeps its
    length, and leaves the other categories alone, and [resetForm]
    gives back eight arrays of twelve empty strings. *)
Theorem templateData_twelveEach (os : list operation) (st : state) :
  steps os initialState = Some st →
  twelveEach (templateData initialState)
  ∧ twelveEach (templateData st)
  ∧ (∀ category index value, category ∈ categories →
       ∃ arr st',
         getProp category (templateData st) = Some arr
         ∧ updateTemplateField category index value st = Some st'
         ∧ getProp category (templateData st') =
           Some (if decide (0 ≤ index) then <[Z.to_nat index := value]> arr else arr)
         ∧ (∀ other, other ≠ category →
              getProp other (templateData st') = getProp other (templateData st))
         ∧ twelveEach (templateData st'))
  ∧ (∀ category, category ∈ categories →
       getProp category (templateData (resetForm st)) = Some (replicate 12 [])).
Proof.
  intros Hrun.
  assert (Hst : twelveEach (templateData st)).
  { by apply (steps_twelveEach os initialState); [apply twelveEach_empty|]. }
  split_and!; [apply twelveEach_empty | done | |].
  - intros category index value Hc.
    destruct (twelveEach_get _ _ Hst Hc) as (arr & Harr & Hlen).
    destruct (updateTemplateField category index value st) as [st'|] eqn:Hupd.
    2:{ unfold updateTemplateField in Hupd. by rewrite Harr in Hupd. }
    exists arr, st'. split; [done|]. split; [done|].
    pose proof (updateTemplateField_twelveEach _ _ _ _ _ Hst Hupd) as Hst'.
    unfold updateTemplateField in Hupd. rewrite Harr in Hupd.
    injection Hupd as <-. cbn [templateData] in *.
    split_and!; [|intros other Hne; by apply getProp_setProp_ne|done].
    by rewrite getProp_setProp_eq, replaceAt_insert.
  - intros category Hc. unfold categories in Hc. cbn [resetForm templateData].
    repeat (apply elem_of_cons in Hc as [->|Hc]); try reflexivity.
    by apply elem_of_nil in Hc.
Qed.

Lemma templateData_twelveEach_witness :
  ∃ st,
    steps [ UpdateTemplateField (lit "coreFunctions") 3 (lit "Handle API requests");
            RemoveDocument 0;
            UpdateTemplateField (lit "styleGuide") 11 (lit "PEP 8") ] initialState
    = Some st
    ∧ twelveEach (templateData st)
    ∧ getProp (lit "styleGuide") (templateData st)
      = Some (replicate 11 [] ++ [lit "PEP 8"]).
Proof.
  eexists. split; [reflexivity|].
  match goal with
  | |- twelveEach (templateData ?s) ∧ _ =>
      destruct (templateData_twelveEach
        [ UpdateTemplateField (lit "coreFunctions") 3 (lit "Handle API requests");
          RemoveDocument 0;
          UpdateTemplateField (lit "styleGuide") 11 (lit "PEP 8") ] s eq_refl)
        as (_ & Hshape & _ & _)
  end.
  split; [exact Hshape | reflexivity].
Defined.

(** What [addDocument] does when its closure is the one of the current
    render: the list stays within twelve entries; with twelve documents
    the list is unchanged and the error is set; a reported failure
    leaves the list unchanged and stores the reported error; the list
    changes only by appending on a successful result. *)
Lemma addDocument_current_render f processPDF st :
  let st' := addDocument (documents st) f processPDF st in
  (jslength (documents st) ≤ 12 → jslength (documents st') ≤ 12)
  ∧ (jslength (documents st) = 12 →
       documents st' = documents st
       ∧ error st' = Some (lit "Maximum 12 documents allowed"))
  ∧ (∀ result, jslength (documents st) < 12 → processPDF = Resolved result →
       success result = false →
       documents st' = documents st ∧ error st' = resultError result)
  ∧ (documents st' ≠ documents st →
       ∃ result, processPDF = Resolved result ∧ success result = true
         ∧ documents st' =
           documents st ++
           [ {| docName := fileName f; docPath := filePath f;
                docText := text result; docPages := pages result |} ]).
Proof.
  cbn zeta. unfold addDocument.
  destruct (Z.leb_spec 12 (jslength (documents st))) as [Hfull|Hroom].
  - cbn. split_and!; [done | done | intros; lia | done].
  - destruct processPDF as [result|message]; [destruct (success result) eqn:Hs|]; cbn.
    + split_and!; [|lia|congruence|].
      * intros _. rewrite jslength_app. unfold jslength at 2. cbn. lia.
      * intros _. by exists result.
    + split_and!; [done | lia | by intros ? _ [= <-] _ | done].
    + split_and!; [done | lia | by intros ? _ [=] | done].
Qed.

(** C10 fails on the code: a callback of a render that saw eleven
    documents, called for two files (as [DocumentUpload] does for the
    files of one selection), passes its guard both times, and the list
    grows to thirteen entries without an error. *)
Theorem addDocument_stale_closure_exceeds_limit :
  let f := File (lit "doc.pdf") (lit "/docs/doc.pdf") in
  let ok := Resolved (PdfResult true (Some (lit "Sample PDF text")) 5 None) in
  let doc := Document (lit "doc.pdf") (lit "/docs/doc.pdf") (Some (lit "Sample PDF text")) 5 in
  let earlier := List.map (λ n, AddDocument (replicate n doc) f ok) (seq 0 11) in
  let selection := [ AddDocument (replicate 11 doc) f ok;
                     AddDocument (replicate 11 doc) f ok ] in
  ∃ st11 st13,
    steps earlier initialState = Some st11
    ∧ documents st11 = replicate 11 doc
    ∧ steps selection st11 = Some st13
    ∧ jslength (documents st13) = 13
    ∧ error st13 = None.
Proof. cbn zeta. eexists _, _. split_and!; reflexivity. Qed.

End FormStateSpec.

Module HandlersSpec.
Import RateLimiter IpcHandlers.

Lemma getMember_value key v :
  v ≠ JNull → v ≠ JUndefined → getMember key v = Return (getField (lit key) v).
Proof. by destruct v. Qed.

Lemma getMember_without_value key v :
  v = JNull ∨ v = JUndefined → getMember key v = Throw (cannotRead v key).
Proof. by intros [->| ->]. Qed.

Lemma equalsString_spec v text : equalsString v text = true ↔ v = JString text.
Proof.
  destruct v; cbn; try (split; [discriminate | done]).
  split; [by intros ->%str_eqb_eq | intros [= ->]; apply str_eqb_refl].
Qed.

Lemma getMember_newError key message :
  getMember key (newError message) = Return (getField (lit key) (newError message)).
Proof. reflexivity. Qed.

(** An error of the checks has no [code]. *)
Lemma newError_code message :
  equalsString (getField (lit "code") (newError message)) (lit "ENOENT") = false.
Proof. reflexivity. Qed.

Lemma hasMessage_newError message : hasMessage (newError message) message.
Proof. split_and!; [done..|]. left. cbn. by rewrite str_eqb_refl. Qed.

(** What the sanitiser makes of a message. *)
Lemma sanitizeErrorMessage_returns error message :
  hasMessage error message →
  sanitizeErrorMessage error =
  Return (let text := if truthy message then message else defaultMessage in
          if truthy (trim (stripped text)) then trim (stripped text)
          else defaultMessage).
Proof.
  intros (Hn & Hu & Hm). unfold sanitizeErrorMessage.
  rewrite getMember_value by done. destruct Hm as [Hm|[Hm ->]].
  - rewrite Hm. cbn [toBoolean]. by destruct (truthy message).
  - by rewrite Hm.
Qed.

(** It throws for just the values of which no message can be made. *)
Lemma sanitizeErrorMessage_throws error :
  hasNoMessage error → ∃ e, sanitizeErrorMessage error = Throw e.
Proof.
  intros [->|[->|[Ht Hs]]]; [eexists; reflexivity..|].
  unfold sanitizeErrorMessage.
  destruct error as [| | b | z | s | fields]; try discriminate.
  cbn [getMember]. rewrite Ht.
  destruct (getField (lit "message") (JObject fields)); try (eexists; reflexivity).
  done.
Qed.

Lemma message_or_none error : (∃ message, hasMessage error message) ∨ hasNoMessage error.
Proof.
  destruct error as [| | b | z | s | fields];
    try (by right; left); try (by right; right; left);
    try (left; exists []; split_and!; [done..|]; by right).
  unfold hasMessage, hasNoMessage.
  destruct (toBoolean (getField (lit "message") (JObject fields))) eqn:Ht.
  - destruct (getField (lit "message") (JObject fields)) as [| | | |m|] eqn:Hm;
      try discriminate;
      try (right; right; right; by split).
    left. exists m. split_and!; [done..|]. by left.
  - left. exists []. split_and!; [done..|]. by right.
Qed.

Lemma sanitizeErrorMessage_nonempty error message :
  sanitizeErrorMessage error = Return message → message ≠ [].
Proof.
  unfold sanitizeErrorMessage. destruct (getMember "message" error); [|done].
  destruct (if toBoolean a then a else _); try done.
  intros [= <-]. destruct (trim (stripped _)) eqn:E; cbn; [|done].
  by vm_compute.
Qed.

Lemma failure_reportsFailure message : message ≠ [] → reportsFailure (failure message).
Proof. intros H. split; [reflexivity|]. by exists message. Qed.

Lemma settingsFailure_reportsFailure message :
  message ≠ [] → reportsFailure (settingsFailure message).
Proof. intros H. split; [reflexivity|]. by exists message. Qed.

Lemma rejected_reportsFailure i : reportsFailure (rejected i).
Proof.
  destruct i; cbn;
    first [apply failure_reportsFailure | apply settingsFailure_reportsFailure];
    by vm_compute.
Qed.

Lemma caught_reportsFailure i error r :
  caught i error = Return r →
  (∃ getVersion, i = GetAppVersion getVersion) ∨ reportsFailure r.
Proof.
  destruct i; cbn [caught]; try (left; by eexists);
    destruct (sanitizeErrorMessage error) as [m|] eqn:Hm; try done;
    intros [= <-]; right;
    first [apply failure_reportsFailure | apply settingsFailure_reportsFailure];
    by apply (sanitizeErrorMessage_nonempty error).
Qed.

(** The [catch] block returns for a value of which a message can be
    made, and in [get-app-version] for every value. *)
Lemma caught_returns i error :
  (∃ getVersion, i = GetAppVersion getVersion) ∨ (∃ message, hasMessage error message) →
  ∃ r, caught i error = Return r.
Proof.
  intros [[getVersion ->]|[message Hm]]; [by eexists|].
  destruct i; cbn [caught]; try (by eexists);
    rewrite (sanitizeErrorMessage_returns _ _ Hm); by eexists.
Qed.

(** Otherwise it throws. *)
Lemma caught_throws i error :
  (∀ getVersion, i ≠ GetAppVersion getVersion) → hasNoMessage error →
  ∃ e, caught i error = Throw e.
Proof.
  intros Hi [e He]%sanitizeErrorMessage_throws.
  destruct i; cbn [caught]; rewrite ?He; try (by eexists).
  by destruct (Hi getVersion).
Qed.

(** Every handler is its [try] block with the [catch] block around it. *)
Lemma handle_attempt isAbsolute now i w :
  handle isAbsolute now i w =
  match attempt isAbsolute now i w with
  | (Return v, w') => (Return v, w')
  | (Throw error, w') =>
      (caught i error,
       {| limits := limits w'; effects := effects w' ++ [ConsoleError] |})
  end.
Proof.
  destruct i; cbn [handle attempt caught];
    unfold saveAgentHandler, loadAgentsHandler, getExistingAgentsHandler,
      processPdfHandler, loadSettingsHandler, saveSettingsHandler,
      loadTemplateHandler, getAppVersionHandler, consultAgentHandler, tryCatch;
    match goal with |- context [match ?a with _ => _ end] => destruct a as [[v|e] w'] end;
    try reflexivity;
    unfold mbind, M_bind, mret, M_ret, consoleError;
    by destruct (sanitizeErrorMessage e).
Qed.

(** Unfolding a [try] block down to its outcomes. *)
Ltac run_attempt :=
  unfold attempt, saveAgentAttempt, loadAgentsAttempt, getExistingAgentsAttempt,
    processPdfAttempt, loadSettingsAttempt, saveSettingsAttempt,
    loadTemplateAttempt, getAppVersionAttempt, consultAgentAttempt,
    validatePdfPath, tryCatch, mbind, M_bind, mret, M_ret, call, throw,
    isRateLimitedM;
  cbn [fst snd limits effects channelOf rejected].

Ltac split_outcomes :=
  repeat match goal with
         | |- context [match ?x with _ => _ end] =>
             match type of x with
             | completion _ => destruct x
             | bool => destruct x eqn:?
             end
         | |- context [if ?x then _ else _] => destruct x eqn:?
         end.

Lemma attempt_outcome isAbsolute now i w :
  let limiter := isRateLimited now (channelOf i) (limits w) in
  ∃ c es,
    attempt isAbsolute now i w =
    (c, {| limits := snd limiter; effects := effects w ++ es |})
    ∧ (fst limiter = true → c = Return (rejected i) ∧ es = [ConsoleWarn])
    ∧ (fst limiter = false → NoDup es ∧ Forall isCall es).
Proof.
  cbn zeta. destruct i; run_attempt;
    destruct (fst (isRateLimited now _ (limits w))) eqn:Hl; cbn [fst snd limits effects].
  all: try (eexists _, _; split; [reflexivity|]; split; [done | intros [=]]).
  all: split_outcomes; cbn [fst snd limits effects]; rewrite ?app_nil_r, <- ?app_assoc.
  all: first [ (eexists _, _; split; [reflexivity|])
             | (eexists _, []; split; [by rewrite app_nil_r|]) ].
  all: (split; [intros [=]|]); intros _.
  all: split; [apply (bool_decide_unpack _); by vm_compute | repeat constructor].
Qed.

Lemma truthy_nonempty (s : jsstring) : s ≠ [] → truthy s = true.
Proof. by destruct s. Qed.

Lemma jslength_pos_truthy (s : jsstring) (n : Z) : 0 ≤ n → n < jslength s → truthy s = true.
Proof. intros Hn Hs. destruct s; [|done]. unfold jslength in Hs. cbn in Hs. lia. Qed.

Lemma not_string_guard v :
  toBoolean v = false ∨ typeOf v ≠ TString →
  negb (toBoolean v) || negb (bool_decide (typeOf v = TString)) = true.
Proof.
  intros [H|H]; [by rewrite H|].
  by rewrite (bool_decide_eq_false_2 _ H), orb_true_r.
Qed.

(** A failure inside the [try] block makes the block throw the error
    raised, provided the rate limiter lets the request through. *)
Lemma attempt_raises isAbsolute now i w e :
  fst (isRateLimited now (channelOf i) (limits w)) = false →
  raises isAbsolute i e →
  fst (attempt isAbsolute now i w) = Throw e.
Proof.
  intros Hl Hr. destruct Hr; cbn [channelOf] in Hl.
  all: repeat match goal with
         | H : ?p ≠ [] |- _ => apply truthy_nonempty in H
         | H : getField (lit "code") ?e = JString _ |- _ =>
             pose proof (getMember_value "code" e
                           ltac:(by intros ->) ltac:(by intros ->)) as Hcode;
             rewrite H in Hcode; clear H
         | Hn : ?e ≠ JNull, Hu : ?e ≠ JUndefined,
           H : getField (lit "code") ?e ≠ JString _ |- _ =>
             pose proof (getMember_value "code" e Hn Hu) as Hcode;
             apply (not_iff_compat (equalsString_spec _ _)), not_true_is_false in H;
             clear Hn Hu
         | H : ?e = JNull ∨ ?e = JUndefined |- _ =>
             apply (getMember_without_value "code") in H
         | H : _ < size _ |- _ => apply Z.ltb_lt in H
         | H : size _ ≤ _ |- _ => apply Z.ltb_ge in H
         | H : 10000 < jslength ?q |- _ =>
             pose proof (jslength_pos_truthy q 10000 ltac:(lia) H);
             apply Z.ltb_lt in H
         | H : jslength _ ≤ _ |- _ => apply Z.ltb_ge in H
         | H : toBoolean ?v = false ∨ typeOf ?v ≠ TString |- _ =>
             apply not_string_guard in H
         end.
  all: run_attempt; rewrite Hl; cbn [fst snd limits effects toBoolean typeOf lengthOf].
  all: repeat match goal with H : _ = _ |- _ => progress rewrite H end.
  all: reflexivity.
Qed.


(** C4: what a handler does on its failure paths, and where it departs
    from the claim.  The only state a handler changes is the rate
    limiter's map, and it does nothing twice; when the limiter rejects
    the request it returns the rate-limit failure object and has done
    nothing else; a failed validation or an error of an operation it
    called makes its [try] block throw, and then it logs the error and
    its [catch] block decides: [get-app-version] returns ['1.0.0'];
    the other handlers return [success: false] with the sanitised
    message as [error] when a message can be made of what was caught,
    and throw to the caller when none can be made: when the operation
    threw [null] or [undefined], or a value whose [message] is truthy
    and is no string, the sanitiser throws inside the [catch] block
    and nothing is returned. *)
Theorem handlers_reject_and_return (isAbsolute : jsstring → bool) (now : Z)
    (i : invocation) (w : world) :
  let limiter := isRateLimited now (channelOf i) (limits w) in
  let a := attempt isAbsolute now i w in
  ∃ c es,
    handle isAbsolute now i w =
    (c, {| limits := snd limiter; effects := effects w ++ es |})
    ∧ NoDup es
    ∧ (fst limiter = true →
       c = Return (rejected i) ∧ reportsFailure (rejected i) ∧ es = [ConsoleWarn])
    ∧ (∀ v, fst a = Return v → c = Return v)
    ∧ (∀ error, fst limiter = false → raises isAbsolute i error → fst a = Throw error)
    ∧ (∀ error, fst a = Throw error →
         c = caught i error
         ∧ (∃ calls, es = calls ++ [ConsoleError] ∧ Forall isCall calls)
         ∧ ((∃ message, hasMessage error message) ∨ hasNoMessage error)
         ∧ ((∃ getVersion, i = GetAppVersion getVersion)
            ∨ (∃ message, hasMessage error message) →
            ∃ r, c = Return r
                 ∧ ((∃ getVersion, i = GetAppVersion getVersion) ∨ reportsFailure r))
         ∧ ((∀ getVersion, i ≠ GetAppVersion getVersion) → hasNoMessage error →
            ∃ e, c = Throw e)).
Proof.
  cbn zeta. rewrite handle_attempt.
  pose proof (attempt_raises isAbsolute now i w) as Hraises.
  destruct (attempt_outcome isAbsolute now i w) as (c & es & Ha & Hlim & Hcalls).
  cbn zeta in *. rewrite Ha. rewrite Ha in Hraises. cbn [fst] in *.
  destruct (fst (isRateLimited now (channelOf i) (limits w))) eqn:Hl.
  - destruct (Hlim eq_refl) as [-> ->].
    exists (Return (rejected i)), [ConsoleWarn].
    split_and!; [done| | |by intros ? [= <-]|by intros ? [=]|done].
    + apply NoDup_singleton.
    + intros _. split_and!; [done | apply rejected_reportsFailure | done].
  - destruct (Hcalls eq_refl) as [Hnd Hall]. destruct c as [v|error].
    + exists (Return v), es.
      split_and!; [done | done | done | by intros ? [= <-] | by intros; apply Hraises | done].
    + exists (caught i error), (es ++ [ConsoleError]). cbn [limits effects].
      rewrite <- app_assoc.
      split_and!; [done | | done | done | by intros; apply Hraises |].
      * apply NoDup_app. split_and!; [done | | apply NoDup_singleton].
        intros e He ->%list_elem_of_singleton.
        rewrite Forall_forall in Hall. by apply (Hall ConsoleError).
      * intros ? [= <-].
        split_and!; [done | by exists es | apply message_or_none | |].
        -- intros Hm. destruct (caught_returns i error Hm) as [r Hr].
           exists r. split; [done|]. by apply (caught_reportsFailure i error).
        -- apply caught_throws.
Qed.

(** The departure at an input: an agent that passes the validation,
    and a file manager whose promise is rejected without a value.  The
    handler of [save-agent] throws to the caller. *)
Lemma handlers_reject_and_return_witness :
  let w := {| limits := ∅; effects := [] |} in
  let agentData := JObject [ (lit "name", JString (lit "reviewer"));
                             (lit "content", JString (lit "# Reviewer")) ] in
  fst (handle (λ _, true) 0 (SaveAgent agentData (Throw JUndefined)) w)
  = Throw (cannotRead JUndefined "message").
Proof.
  cbn zeta.
  destruct (handlers_reject_and_return (λ _, true) 0
              (SaveAgent (JObject [ (lit "name", JString (lit "reviewer"));
                                    (lit "content", JString (lit "# Reviewer")) ])
                 (Throw JUndefined))
              {| limits := ∅; effects := [] |})
    as (c & es & Hh & _ & _ & _ & _ & Hcaught).
  rewrite Hh. cbn [fst].
  destruct (Hcaught JUndefined eq_refl) as (-> & _). reflexivity.
Defined.

(** A handler other than [get-app-version] whose [try] block fails
    with the error of a check whenever the limiter lets the request
    through reports a failure. *)
Lemma handle_fails isAbsolute now i w :
  (∀ getVersion, i ≠ GetAppVersion getVersion) →
  (fst (isRateLimited now (channelOf i) (limits w)) = false →
   ∃ m, raises isAbsolute i (newError m)) →
  ∃ r w', handle isAbsolute now i w = (Return r, w') ∧ reportsFailure r.
Proof.
  intros Hi Hfail. rewrite handle_attempt.
  destruct (attempt_outcome isAbsolute now i w) as (c & es & Ha & Hlim & _).
  cbn zeta in *.
  destruct (fst (isRateLimited now (channelOf i) (limits w))) eqn:Hl.
  - destruct (Hlim eq_refl) as [-> ->]. rewrite Ha.
    eexists _, _. split; [reflexivity | apply rejected_reportsFailure].
  - destruct (Hfail eq_refl) as [m He].
    pose proof (attempt_raises isAbsolute now i w _ Hl He) as Ht.
    destruct (attempt isAbsolute now i w) as [[v|e'] w'] eqn:E; cbn in Ht; [done|].
    injection Ht as ->.
    destruct (caught_returns i (newError m)) as [r Hr].
    { right. exists m. apply hasMessage_newError. }
    rewrite Hr. eexists _, _. split; [reflexivity|].
    destruct (caught_reportsFailure i _ r Hr) as [[gv ->]|H]; [by destruct (Hi gv) | done].
Qed.

(** The errors of the checks are [Error] objects with one of the
    messages of the checks. *)
Ltac listed_message :=
  eexists; split; [|reflexivity]; apply (bool_decide_unpack _); by vm_compute.

Lemma validateAgentData_throws v e :
  validateAgentData v = Throw e → ∃ m, m ∈ validationMessages ∧ e = newError m.
Proof.
  unfold validateAgentData. repeat case_match; intros [= <-]; listed_message.
Qed.

Lemma validateSettings_throws v e :
  validateSettings v = Throw e → ∃ m, m ∈ validationMessages ∧ e = newError m.
Proof.
  unfold validateSettings. cbn [validateFlags].
  repeat case_match; intros [= <-]; simplify_eq; listed_message.
Qed.

Lemma validateAgentType_throws v e :
  validateAgentType v = Throw e → ∃ m, m ∈ validationMessages ∧ e = newError m.
Proof.
  unfold validateAgentType. repeat case_match; intros [= <-]; listed_message.
Qed.

Lemma getField_object key v s :
  getField key v = JString s → toBoolean v = true ∧ typeOf v = TObject.
Proof. by destruct v. Qed.

Lemma validateAgentData_name_too_long agentData name :
  getField (lit "name") agentData = JString name → 200 < jslength name →
  validateAgentData agentData =
  Throw (newError (lit "Invalid agent data: name too long (max 200 characters)")).
Proof.
  intros Hn Hlen. destruct (getField_object _ _ _ Hn) as [Ht Ho].
  unfold validateAgentData. rewrite Ht, (bool_decide_eq_true_2 _ Ho), Hn.
  cbn [negb orb toBoolean typeOf lengthOf].
  rewrite (jslength_pos_truthy name 200) by lia.
  rewrite (bool_decide_eq_true_2 (TString = TString)) by done. cbn [negb orb].
  by rewrite (proj2 (Z.ltb_lt _ _) Hlen).
Qed.

Lemma validateAgentData_content_too_long agentData content :
  getField (lit "content") agentData = JString content → 1000000 < jslength content →
  ∃ e, validateAgentData agentData = Throw e.
Proof.
  intros Hc Hlen. destruct (getField_object _ _ _ Hc) as [Ht Ho].
  unfold validateAgentData. rewrite Ht, (bool_decide_eq_true_2 _ Ho), Hc.
  cbn [negb orb toBoolean typeOf lengthOf].
  rewrite (jslength_pos_truthy content 1000000) by lia.
  rewrite (bool_decide_eq_true_2 (TString = TString)) by done. cbn [negb orb].
  rewrite (proj2 (Z.ltb_lt _ _) Hlen).
  repeat match goal with |- context [if ?b then _ else _] => destruct b end; by eexists.
Qed.

Lemma validateAgentData_within_bounds fields name content :
  lookupField (lit "name") fields = JString name →
  lookupField (lit "content") fields = JString content →
  name ≠ [] → jslength name ≤ 200 →
  content ≠ [] → jslength content ≤ 1000000 →
  toBoolean (lookupField (lit "metadata") fields) = false
  ∨ typeOf (lookupField (lit "metadata") fields) = TObject →
  validateAgentData (JObject fields) = Return true.
Proof.
  intros Hn Hc Hne Hnl Hce Hcl Hm. unfold validateAgentData.
  cbn [toBoolean typeOf getField negb]. rewrite Hn, Hc.
  cbn [toBoolean typeOf lengthOf].
  rewrite !(bool_decide_eq_true_2 _) by done. cbn [negb orb].
  rewrite (truthy_nonempty _ Hne), (truthy_nonempty _ Hce). cbn [negb].
  rewrite (proj2 (Z.ltb_ge _ _) Hnl), (proj2 (Z.ltb_ge _ _) Hcl).
  destruct Hm as [Hm|Hm]; [by rewrite Hm|].
  rewrite (bool_decide_eq_true_2 _ Hm). by rewrite andb_false_r.
Qed.

Lemma validateAgentType_rejects s :
  100 < jslength s ∨ Exists (λ c, isSafeChar c = false) s →
  ∃ e, validateAgentType (JString s) = Throw e.
Proof.
  intros H. unfold validateAgentType. cbn [toBoolean typeOf lengthOf].
  destruct (negb (truthy s) || _); [by eexists|].
  destruct (Z.ltb_spec 100 (jslength s)) as [Hlong|Hshort]; [by eexists|].
  destruct H as [H|H]; [lia|].
  assert (Hs : isSafeName s = false).
  { unfold isSafeName. apply andb_false_iff. right.
    apply not_true_is_false. intros Hall. rewrite forallb_forall in Hall.
    apply Exists_exists in H as (c & Hc & Hbad).
    apply list_elem_of_In in Hc. rewrite (Hall c Hc) in Hbad. discriminate. }
  rewrite Hs. by eexists.
Qed.

Lemma validateAgentType_within_bounds s :
  s ≠ [] → jslength s ≤ 100 → Forall (λ c, isSafeChar c = true) s →
  validateAgentType (JString s) = Return true.
Proof.
  intros Hne Hlen Hsafe. unfold validateAgentType. cbn [toBoolean typeOf lengthOf].
  rewrite (truthy_nonempty _ Hne), (bool_decide_eq_true_2 (TString = TString)) by done.
  cbn [negb orb]. rewrite (proj2 (Z.ltb_ge _ _) Hlen).
  unfold isSafeName. rewrite (truthy_nonempty _ Hne). cbn [andb].
  assert (Hall : forallb isSafeChar s = true).
  { apply forallb_forall. intros c Hc. rewrite Forall_forall in Hsafe.
    by apply Hsafe, list_elem_of_In. }
  by rewrite Hall.
Qed.

(** C7: [save-agent] returns [success: false] when [agentData.name] has
    more than 200 code units or [agentData.content] more than 1,000,000;
    [consult-agent] returns [success: false] when [agentType] has more
    than 100 code units or one outside letters, digits, hyphen and
    underscore, or [query] has more than 10,000; non-empty strings
    within these bounds pass the checks, and the request then reaches
    the file manager. *)
Theorem input_length_checks (isAbsolute : jsstring → bool) (now : Z) (w : world) :
  (∀ agentData saveAgent name,
     getField (lit "name") agentData = JString name → 200 < jslength name →
     ∃ r w', handle isAbsolute now (SaveAgent agentData saveAgent) w = (Return r, w')
             ∧ reportsFailure r)
  ∧ (∀ agentData saveAgent content,
       getField (lit "content") agentData = JString content →
       1000000 < jslength content →
       ∃ r w', handle isAbsolute now (SaveAgent agentData saveAgent) w = (Return r, w')
               ∧ reportsFailure r)
  ∧ (∀ s query consultAgent,
       100 < jslength s ∨ Exists (λ c, isSafeChar c = false) s →
       ∃ r w', handle isAbsolute now (ConsultAgent (JString s) query consultAgent) w
               = (Return r, w')
               ∧ reportsFailure r)
  ∧ (∀ agentType q consultAgent,
       10000 < jslength q →
       ∃ r w', handle isAbsolute now (ConsultAgent agentType (JString q) consultAgent) w
               = (Return r, w')
               ∧ reportsFailure r)
  ∧ (∀ fields name content result,
       lookupField (lit "name") fields = JString name →
       lookupField (lit "content") fields = JString content →
       name ≠ [] → jslength name ≤ 200 →
       content ≠ [] → jslength content ≤ 1000000 →
       toBoolean (lookupField (lit "metadata") fields) = false
       ∨ typeOf (lookupField (lit "metadata") fields) = TObject →
       validateAgentData (JObject fields) = Return true
       ∧ (fst (isRateLimited now (lit "save-agent") (limits w)) = false →
          fst (handle isAbsolute now (SaveAgent (JObject fields) (Return result)) w) =
          Return (JObject (spread [ (lit "success", JBoolean true) ] result))))
  ∧ (∀ s q response,
       s ≠ [] → jslength s ≤ 100 → Forall (λ c, isSafeChar c = true) s →
       q ≠ [] → jslength q ≤ 10000 →
       validateAgentType (JString s) = Return true
       ∧ (fst (isRateLimited now (lit "consult-agent") (limits w)) = false →
          fst (handle isAbsolute now
                 (ConsultAgent (JString s) (JString q) (Return response)) w) =
          Return (JObject [ (lit "success", JBoolean true);
                            (lit "response", response) ]))).
Proof.
  split_and!.
  - intros agentData saveAgent name Hn Hlen. apply handle_fails; [done|].
    intros _. eexists. apply invalid_agent_data.
    by apply (validateAgentData_name_too_long agentData name).
  - intros agentData saveAgent content Hc Hlen. apply handle_fails; [done|].
    intros _. destruct (validateAgentData_content_too_long _ _ Hc Hlen) as [e He].
    destruct (validateAgentData_throws _ _ He) as (m & _ & ->).
    exists m. by apply invalid_agent_data.
  - intros s query consultAgent Hs. apply handle_fails; [done|].
    intros _. destruct (validateAgentType_rejects s Hs) as [e He].
    destruct (validateAgentType_throws _ _ He) as (m & _ & ->).
    exists m. by apply invalid_agent_type.
  - intros agentType q consultAgent Hlen. apply handle_fails; [done|].
    intros _. destruct (validateAgentType agentType) as [ok|e] eqn:Hv.
    + eexists. by apply (query_too_long _ _ _ _ ok).
    + destruct (validateAgentType_throws _ _ Hv) as (m & _ & ->).
      exists m. by apply invalid_agent_type.
  - intros fields name content result Hn Hc Hne Hnl Hce Hcl Hm.
    pose proof (validateAgentData_within_bounds _ _ _ Hn Hc Hne Hnl Hce Hcl Hm) as Hv.
    split; [done|]. intros Hl. rewrite handle_attempt. run_attempt.
    rewrite Hl, Hv. reflexivity.
  - intros s q response Hne Hlen Hsafe Hqe Hql.
    pose proof (validateAgentType_within_bounds _ Hne Hlen Hsafe) as Hv.
    split; [done|]. intros Hl. rewrite handle_attempt. run_attempt.
    rewrite Hl, Hv. cbn [fst snd toBoolean typeOf lengthOf].
    rewrite (truthy_nonempty _ Hqe), (proj2 (Z.ltb_ge _ _) Hql). reflexivity.
Qed.

(** A name of 201 code units is rejected; a well-formed request passes
    the checks. *)
Lemma input_length_checks_witness :
  let w := {| limits := ∅; effects := [] |} in
  let long := repeat 97%N 201 in
  let agentData := JObject [ (lit "name", JString long); (lit "content", JString (lit "# Agent")) ] in
  (∃ r w', handle (λ _, true) 0 (SaveAgent agentData (Return [])) w = (Return r, w')
           ∧ reportsFailure r)
  ∧ fst (handle (λ _, true) 0
           (ConsultAgent (JString (lit "code-reviewer")) (JString (lit "Best practices?"))
              (Return JNull)) w)
    = Return (JObject [ (lit "success", JBoolean true); (lit "response", JNull) ]).
Proof.
  cbn zeta.
  destruct (input_length_checks (λ _, true) 0 {| limits := ∅; effects := [] |})
    as (Hname & _ & _ & _ & _ & Hconsult).
  split.
  - apply (Hname _ _ (repeat 97%N 201)); [reflexivity | by vm_compute].
  - apply Hconsult; try done; try (by vm_compute).
    repeat constructor.
Defined.

End HandlersSpec.

Module SanitizerSpec.
Import RateLimiter IpcHandlers.









Lemma isWhiteSpace_printable c : (33 ≤ c ≤ 126)%N → isWhiteSpace c = false.
Proof.
  intros Hc. unfold isWhiteSpace.
  repeat match goal with
         | |- context [(c =? ?k)%N] => rewrite (proj2 (N.eqb_neq c k)) by lia
         end.
  by rewrite (proj2 (N.leb_gt 0x2000 c)) by lia.
Qed.









(** *** No match of a pattern is left by its own pass *)




Lemma isUpper_nonSpace c : isUpper c = true → isWhiteSpace c = false.
Proof.
  intros Hu. apply isWhiteSpace_printable. unfold isUpper in Hu.
  apply andb_true_iff in Hu as [H1 H2]. apply N.leb_le in H1, H2. lia.
Qed.




































(** *** What the patterns match, said without them *)













(** What the last replacement removes can have stood inside a Windows
    path, which then shows in the returned string. *)
Lemma windows_path_joined_by_last_pass :
  sanitizeErrorMessage (newError (lit "open C:(a:1:2)\Users\key.pem failed"))
  = Return (lit "open C:\Users\key.pem failed").
Proof. vm_compute. reflexivity. Qed.

End SanitizerSpec.

(** ** More on the rate limiter *)

Module RateLimiterFacts.
Import RateLimiter.

(** The decision and the array stored for a channel depend on the map
    only through the array stored for that channel. *)
Lemma isRateLimited_stored_only now c m m' :
  stored m c = stored m' c →
  fst (isRateLimited now c m) = fst (isRateLimited now c m')
  ∧ stored (snd (isRateLimited now c m)) c = stored (snd (isRateLimited now c m')) c.
Proof.
  intros He. unfold isRateLimited. fold (stored m c) (stored m' c). rewrite He.
  destruct (reached _ _); cbn [fst snd];
    by rewrite !RateLimiterSpec.stored_insert, !decide_True by done.
Qed.

Lemma run_own_channel c h : ∀ m m',
  stored m c = stored m' c →
  let own := filter (λ d, requestChannel d = c) h in
  stored (snd (run h m)) c = stored (snd (run own m')) c
  ∧ filter (λ e, requestChannel (fst e) = c) (fst (run h m)) = fst (run own m').
Proof.
  induction h as [|d h IH]; intros m m' He; [done|]. cbn zeta.
  rewrite filter_cons. cbn [run fst snd]. rewrite filter_cons. cbn [fst].
  destruct (decide (requestChannel d = c)) as [Hd|Hd].
  - cbn [run fst snd]. rewrite Hd.
    destruct (isRateLimited_stored_only (requestTime d) c m m' He) as [Hf Hs].
    destruct (IH _ _ Hs) as [IH1 IH2]. by rewrite IH1, IH2, Hf.
  - apply IH. by rewrite RateLimiterSpec.isRateLimited_stored_ne.
Qed.

(** The limiter works channel by channel: what is stored for a channel,
    how its requests were decided and how its next request will be
    decided are what they would be had the requests on the other
    channels never been made. *)
Theorem channels_are_independent (h : list request) (m : gmap (list N) (list Z))
    (now : Z) (channel : jsstring) :
  let own := filter (λ d, requestChannel d = channel) h in
  stored (snd (run h m)) channel = stored (snd (run own m)) channel
  ∧ filter (λ e, requestChannel (fst e) = channel) (fst (run h m)) = fst (run own m)
  ∧ fst (isRateLimited now channel (snd (run h m)))
    = fst (isRateLimited now channel (snd (run own m))).
Proof.
  cbn zeta. destruct (run_own_channel channel h m m eq_refl) as [Hs Hl].
  split_and!; [done..|]. by apply isRateLimited_stored_only.
Qed.

(** Every time stored for a channel was stored before the run or is
    the time of one of the run's requests on that channel. *)
Lemma stored_from_requests c h : ∀ m t,
  t ∈ stored (snd (run h m)) c →
  t ∈ stored m c ∨ ∃ d, d ∈ h ∧ requestChannel d = c ∧ requestTime d = t.
Proof.
  induction h as [|d h IH]; intros m t Ht; [by left|].
  cbn [run fst snd] in Ht. apply IH in Ht as [Ht|(d' & Hd' & Hc & Hd)].
  - destruct (decide (requestChannel d = c)) as [Hd|Hd].
    + rewrite <- Hd, RateLimiterSpec.isRateLimited_stored in Ht.
      apply elem_of_app in Ht as [Ht|Ht].
      * apply list_elem_of_filter in Ht as [_ Ht]. left. by rewrite <- Hd.
      * destruct (fst _); [by apply elem_of_nil in Ht|].
        apply list_elem_of_singleton in Ht as ->.
        right. exists d. split_and!; [apply elem_of_cons; by left | done..].
    + rewrite RateLimiterSpec.isRateLimited_stored_ne in Ht by done. by left.
  - right. exists d'. split_and!; [apply elem_of_cons; by right | done..].
Qed.

Lemma limitOf_at_least_one c len : len ≤ 0 → reached len (limitOf c) = false.
Proof.
  intros Hlen. unfold limitOf.
  destruct (ownProperty c RATE_LIMITS) as [n|] eqn:E.
  - apply RateLimiterSpec.ownProperty_RATE_LIMITS in E.
    destruct (Z.eqb_spec n 0); cbn; apply Z.leb_gt; lia.
  - destruct (inherited c); cbn; [done | apply Z.leb_gt; lia].
Qed.

(** A channel recovers: when every earlier request on the channel lies
    at least 60,000 ms back, the next request on it is let through, and
    its time is then all that is stored for the channel. *)
Theorem quiet_channel_is_let_through (h : list request) (now : Z) (channel : jsstring) :
  (∀ d, d ∈ h → requestChannel d = channel → RATE_LIMIT_WINDOW ≤ now - requestTime d) →
  let r := isRateLimited now channel (snd (run h ∅)) in
  fst r = false ∧ stored (snd r) channel = [now].
Proof.
  intros Hquiet. cbn zeta.
  assert (Hnone : filter (inWindow now) (stored (snd (run h ∅)) channel) = []).
  { destruct (filter _ _) as [|t r] eqn:E; [done|]. exfalso.
    assert (Ht : t ∈ filter (inWindow now) (stored (snd (run h ∅)) channel))
      by (rewrite E; apply elem_of_cons; by left).
    apply list_elem_of_filter in Ht as [Hw Ht].
    apply stored_from_requests in Ht as [Ht|(d & Hd & Hc & <-)].
    - unfold stored in Ht. rewrite lookup_empty in Ht. by apply elem_of_nil in Ht.
    - specialize (Hquiet d Hd Hc). unfold inWindow in Hw. lia. }
  assert (Hf : fst (isRateLimited now channel (snd (run h ∅))) = false).
  { unfold isRateLimited. fold (stored (snd (run h ∅)) channel). rewrite Hnone.
    by rewrite limitOf_at_least_one. }
  split; [done|]. by rewrite RateLimiterSpec.isRateLimited_stored, Hnone, Hf.
Qed.

Lemma quiet_channel_is_let_through_witness :
  let h := List.map (Request (lit "process-pdf")) [0; 10; 20; 30; 40]
           ++ [Request (lit "load-agents") 99990] in
  (∀ d, d ∈ h → requestChannel d = lit "process-pdf" →
        RATE_LIMIT_WINDOW ≤ 100000 - requestTime d)
  ∧ fst (isRateLimited 50 (lit "process-pdf") (snd (run h ∅))) = true
  ∧ fst (isRateLimited 100000 (lit "process-pdf") (snd (run h ∅))) = false.
Proof.
  intros h.
  assert (Hq : ∀ d, d ∈ h → requestChannel d = lit "process-pdf" →
                    RATE_LIMIT_WINDOW ≤ 100000 - requestTime d).
  { intros d Hd Hc. subst h. cbn in Hd.
    repeat (apply elem_of_cons in Hd as [->|Hd]; [by vm_compute in Hc |- *|]).
    by apply elem_of_nil in Hd. }
  split_and!; [done | reflexivity |].
  exact (proj1 (quiet_channel_is_let_through h 100000 (lit "process-pdf") Hq)).
Defined.

Lemma inherited_not_listed c : inherited c = true → limitOf c = NotANumber.
Proof.
  intros Hc. unfold limitOf. rewrite Hc.
  unfold inherited, objectPrototypeKeys in Hc. cbn [existsb] in Hc.
  repeat (apply orb_true_iff in Hc as [Hc|Hc]; [apply str_eqb_eq in Hc as ->; reflexivity|]).
  discriminate.
Qed.

(** A channel whose name is that of a member every object inherits,
    such as [constructor], is never limited: the limit read from
    [RATE_LIMITS] is then no number, the comparison with it fails, and
    every request is let through and stored. *)
Theorem inherited_name_is_never_limited (now : Z) (channel : jsstring)
    (m : gmap (list N) (list Z)) :
  inherited channel = true →
  let r := isRateLimited now channel m in
  fst r = false
  ∧ stored (snd r) channel = filter (inWindow now) (stored m channel) ++ [now].
Proof.
  intros Hc. cbn zeta.
  assert (Hf : fst (isRateLimited now channel m) = false).
  { unfold isRateLimited. by rewrite (inherited_not_listed _ Hc). }
  split; [done|]. by rewrite RateLimiterSpec.isRateLimited_stored, Hf.
Qed.

Lemma inherited_name_is_never_limited_witness :
  let h := List.map (Request (lit "constructor")) (seqZ 0 50) in
  inherited (lit "constructor") = true
  ∧ fst (isRateLimited 50 (lit "constructor") (snd (run h ∅))) = false
  ∧ jslength (stored (snd (run h ∅)) (lit "constructor")) = 50.
Proof.
  intros h. split_and!; [reflexivity | | by vm_compute].
  exact (proj1 (inherited_name_is_never_limited 50 (lit "constructor") (snd (run h ∅))
                  eq_refl)).
Defined.

Lemma filter_length_le {A} (P Q : A → Prop) `{!∀ x, Decision (P x)}
    `{!∀ x, Decision (Q x)} (l : list A) :
  (∀ x, x ∈ l → P x → Q x) →
  (List.length (filter P l) ≤ List.length (filter Q l))%nat.
Proof.
  induction l as [|x l IH]; intros Himp; [done|]. rewrite !filter_cons.
  assert (IH' : (List.length (filter P l) ≤ List.length (filter Q l))%nat).
  { apply IH. intros y Hy. apply Himp. by right. }
  destruct (decide (P x)) as [HP|HP].
  - rewrite decide_True by (apply Himp; [by left | done]). cbn. lia.
  - case_decide; cbn; lia.
Qed.

Lemma accepted_times c h : ∀ m t,
  t ∈ accepted c (fst (run h m)) → ∃ d, d ∈ h ∧ requestTime d = t.
Proof.
  induction h as [|d h IH]; intros m t Ht.
  - by apply elem_of_nil in Ht.
  - cbn [run fst] in Ht. unfold accepted in Ht. cbn [List.filter fst snd] in Ht.
    destruct (str_eqb (requestChannel d) c && negb _).
    + cbn [List.map fst] in Ht. apply elem_of_cons in Ht as [->|Ht].
      * exists d. split; [by left | done].
      * destruct (IH _ _ Ht) as (d' & Hd' & <-). exists d'. split; [by right | done].
    + destruct (IH _ _ Ht) as (d' & Hd' & <-). exists d'. split; [by right | done].
Qed.

Lemma accepted_in_window (h : list request) (channel : jsstring) (T : Z) :
  StronglySorted Z.le (List.map requestTime h) →
  inherited channel = false →
  jslength (filter (λ t, T - RATE_LIMIT_WINDOW < t ≤ T)
              (accepted channel (fst (run h ∅))))
  ≤ quotaOf channel.
Proof.
  intros Hs Hin. induction h as [|d h IH] using rev_ind.
  - pose proof (RateLimiterSpec.quotaOf_pos channel).
    unfold accepted. cbn [run fst List.filter List.map]. rewrite filter_nil.
    unfold jslength. cbn [List.length]. lia.
  - rewrite List.map_app in Hs. cbn in Hs.
    pose proof Hs as Hs0. apply StronglySorted_app in Hs0 as (Hle & Hs' & _).
    specialize (IH Hs').
    rewrite RateLimiterSpec.run_snoc. cbn zeta. cbn [fst].
    rewrite RateLimiterSpec.accepted_snoc.
    destruct (str_eqb (requestChannel d) channel) eqn:Ec; cbn [andb];
      [|by rewrite app_nil_r].
    apply str_eqb_eq in Ec.
    destruct (fst (isRateLimited (requestTime d) (requestChannel d) (snd (run h ∅))))
      eqn:Er; cbn [negb]; [by rewrite app_nil_r|].
    rewrite filter_app, jslength_app.
    rewrite filter_cons, filter_nil.
    case_decide as Hw; [|unfold jslength in *; cbn [List.length]; lia].
    destruct (RateLimiterSpec.run_inv h Hs' channel) as (Ha & _ & _).
    assert (Hnow : Forall (λ d', requestTime d' ≤ requestTime d) h).
    { apply Forall_forall. intros d' Hd'. apply Hle; [|by apply list_elem_of_singleton].
      apply list_elem_of_fmap. by exists d'. }
    specialize (Ha (requestTime d) Hnow).
    rewrite Ec in Er. rewrite (RateLimiterSpec.isRateLimited_fst _ _ _ Hin) in Er.
    apply bool_decide_eq_false in Er. rewrite Ha in Er.
    pose proof (filter_length_le (λ t, T - RATE_LIMIT_WINDOW < t ≤ T)
                  (inWindow (requestTime d)) (accepted channel (fst (run h ∅)))) as Hlen.
    assert (Himp : ∀ t, t ∈ accepted channel (fst (run h ∅)) →
              T - RATE_LIMIT_WINDOW < t ≤ T → inWindow (requestTime d) t).
    { intros t Ht Hin'. unfold inWindow.
      destruct (accepted_times _ _ _ _ Ht) as (d' & Hd' & <-).
      rewrite Forall_forall in Hnow. specialize (Hnow d' Hd'). lia. }
    specialize (Hlen Himp). unfold jslength in *. cbn [List.length]. lia.
Qed.

(** What the limiter guarantees: with a clock that does not run
    backwards, the requests let through on a channel within any
    stretch of 60,000 ms never number more than the channel's quota. *)
Theorem at_most_quota_per_window (h : list request) (channel : jsstring) (T : Z) :
  StronglySorted Z.le (List.map requestTime h) →
  inherited channel = false →
  jslength (filter (λ t, T - RATE_LIMIT_WINDOW < t ≤ T)
              (accepted channel (fst (run h ∅))))
  ≤ quotaOf channel.
Proof. apply accepted_in_window. Qed.

Lemma at_most_quota_per_window_witness :
  let h := List.map (Request (lit "process-pdf"))
             [0; 10; 20; 30; 40; 50; 60; 59000; 60010; 60020] in
  StronglySorted Z.le (List.map requestTime h)
  ∧ inherited (lit "process-pdf") = false
  ∧ accepted (lit "process-pdf") (fst (run h ∅)) = [0; 10; 20; 30; 40; 60010; 60020]
  ∧ jslength (filter (λ t, 60020 - RATE_LIMIT_WINDOW < t ≤ 60020)
                (accepted (lit "process-pdf") (fst (run h ∅)))) ≤ 5.
Proof.
  intros h.
  assert (Hs : StronglySorted Z.le (List.map requestTime h)).
  { cbn. repeat (constructor; [repeat constructor; lia|]). constructor. }
  split_and!; [done | reflexivity | reflexivity |].
  exact (at_most_quota_per_window h (lit "process-pdf") 60020 Hs eq_refl).
Defined.

End RateLimiterFacts.

(** ** More on the handlers *)

Module HandlersFacts.
Import RateLimiter IpcHandlers.

Lemma validateAgentData_accepts v :
  (∃ b, validateAgentData v = Return b) ↔ acceptableAgentData v.
Proof.
  split.
  - intros [b Hv]. unfold validateAgentData in Hv.
    destruct v as [| | | | |fields];
      try (cbn in Hv; rewrite ?orb_true_r in Hv; discriminate).
    cbn [toBoolean typeOf getField negb orb] in Hv.
    rewrite (bool_decide_eq_true_2 (TObject = TObject)) in Hv by done.
    cbn [negb orb] in Hv.
    destruct (lookupField (lit "name") fields) as [| | | |name|] eqn:Hn;
      cbn [toBoolean typeOf lengthOf] in Hv;
      try (rewrite (bool_decide_eq_false_2 _) in Hv by done);
      rewrite ?orb_true_r in Hv; try discriminate.
    rewrite (bool_decide_eq_true_2 (TString = TString)) in Hv by done.
    destruct name as [|c name]; [discriminate|]. cbn [truthy negb orb] in Hv.
    destruct (Z.ltb_spec 200 (jslength (c :: name))); [discriminate|].
    destruct (lookupField (lit "content") fields) as [| | | |content|] eqn:Hc;
      cbn [toBoolean typeOf lengthOf] in Hv;
      try (rewrite (bool_decide_eq_false_2 _) in Hv by done);
      rewrite ?orb_true_r in Hv; try discriminate.
    destruct content as [|c' content]; [discriminate|]. cbn [truthy negb orb] in Hv.
    destruct (Z.ltb_spec 1000000 (jslength (c' :: content))); [discriminate|].
    exists fields, (c :: name), (c' :: content). split_and!; try done.
    destruct (toBoolean (lookupField (lit "metadata") fields)); [|by left].
    right. cbn [andb] in Hv.
    rewrite (bool_decide_eq_true_2 (TString = TString)) in Hv by done.
    cbn [negb] in Hv. case_bool_decide; [done | discriminate].
  - intros (fields & name & content & -> & Hn & Hne & Hnl & Hc & Hce & Hcl & Hm).
    exists true. by apply (HandlersSpec.validateAgentData_within_bounds fields name content).
Qed.

Lemma validateSettings_accepts v :
  (∃ b, validateSettings v = Return b) ↔ acceptableSettings v.
Proof.
  split.
  - intros [b Hv]. unfold validateSettings in Hv.
    destruct v as [| | | | |fields];
      try (cbn in Hv; rewrite ?orb_true_r in Hv; discriminate).
    cbn [toBoolean typeOf getField negb orb validateFlags] in Hv.
    rewrite (bool_decide_eq_true_2 (TObject = TObject)) in Hv by done.
    cbn [negb orb] in Hv.
    destruct (toBoolean (lookupField (lit "theme") fields) && _) eqn:Ht; [discriminate|].
    destruct (negb (bool_decide (typeOf (lookupField (lit "autoSave") fields) = _)) && _)
      eqn:Ha; [discriminate|].
    destruct (negb (bool_decide (typeOf (lookupField (lit "consultAgents") fields) = _)) && _)
      eqn:Hc; [discriminate|].
    exists fields. split_and!; [done | |].
    + apply andb_false_iff in Ht as [Ht|Ht]; [by left|]. right.
      apply negb_false_iff in Ht. unfold isTheme in Ht.
      destruct (lookupField (lit "theme") fields); try discriminate.
      apply orb_true_iff in Ht as [Ht|Ht]; apply str_eqb_eq in Ht as ->; [by left | by right].
    + intros key Hkey.
      apply elem_of_cons in Hkey as [->|Hkey];
        [|apply list_elem_of_singleton in Hkey as ->].
      * apply andb_false_iff in Ha as [Ha|Ha]; apply negb_false_iff in Ha;
          apply bool_decide_eq_true in Ha; [by left | by right].
      * apply andb_false_iff in Hc as [Hc|Hc]; apply negb_false_iff in Hc;
          apply bool_decide_eq_true in Hc; [by left | by right].
  - intros (fields & -> & Ht & Hflags). exists true. unfold validateSettings.
    cbn [toBoolean typeOf getField negb orb validateFlags].
    rewrite (bool_decide_eq_true_2 (TObject = TObject)) by done. cbn [negb orb].
    assert (toBoolean (lookupField (lit "theme") fields)
            && negb (isTheme (lookupField (lit "theme") fields)) = false) as ->.
    { destruct Ht as [Ht|[Ht|Ht]]; rewrite Ht; [done | by vm_compute..]. }
    assert (Hflag : ∀ key, key ∈ [lit "autoSave"; lit "consultAgents"] →
              negb (bool_decide (typeOf (lookupField key fields) = TUndefined))
              && negb (bool_decide (typeOf (lookupField key fields) = TBoolean)) = false).
    { intros key Hkey. destruct (Hflags key Hkey) as [H|H]; rewrite H; by vm_compute. }
    by rewrite !Hflag by (repeat constructor).
Qed.

Lemma validateAgentType_accepts v :
  (∃ b, validateAgentType v = Return b) ↔ acceptableAgentType v.
Proof.
  split.
  - intros [b Hv]. unfold validateAgentType in Hv.
    destruct v as [| | | |s|];
      try (cbn in Hv; rewrite ?orb_true_r in Hv; discriminate).
    cbn [toBoolean typeOf lengthOf] in Hv.
    rewrite (bool_decide_eq_true_2 (TString = TString)) in Hv by done.
    destruct s as [|c s]; [discriminate|]. cbn [truthy negb orb] in Hv.
    destruct (Z.ltb_spec 100 (jslength (c :: s))); [discriminate|].
    destruct (isSafeName (c :: s)) eqn:Hs; [|discriminate].
    exists (c :: s). split_and!; [done..|].
    unfold isSafeName in Hs. apply andb_true_iff in Hs as [_ Hs].
    apply Forall_forall. intros d Hd. rewrite forallb_forall in Hs.
    by apply Hs, list_elem_of_In.
  - intros (s & -> & Hne & Hlen & Hs). exists true.
    by apply HandlersSpec.validateAgentType_within_bounds.
Qed.

Lemma query_accepts query :
  (negb (toBoolean query) || negb (bool_decide (typeOf query = TString))) = false
  ∧ (10000 <? lengthOf query) = false
  ↔ acceptableQuery query.
Proof.
  split.
  - intros [Hq Hl]. apply orb_false_iff in Hq as [Hq Ht].
    destruct query as [| | | |q|]; try discriminate.
    exists q. split_and!; [done | by destruct q | by apply Z.ltb_ge].
  - intros (q & -> & Hne & Hlen). cbn [toBoolean typeOf lengthOf].
    rewrite (HandlersSpec.truthy_nonempty _ Hne). split; [done | by apply Z.ltb_ge].
Qed.

Import HandlersSpec.

(** The effects of a finished case, put as [effects w ++ es]. *)
Ltac effects_of_case :=
  rewrite ?getMember_newError, ?newError_code;
  cbn [fst snd effects limits caught];
  repeat match goal with
         | |- context [sanitizeErrorMessage ?e] => destruct (sanitizeErrorMessage e)
         end;
  cbn [fst snd effects limits]; rewrite ?app_nil_r, <- ?app_assoc; cbn [app];
  eexists; split; [reflexivity|]; split.

(** [Hin : Called op ∈ es] for a list [es] none of whose calls is one of
    the guarded operations [Hop : op ∈ ops]. *)
Ltac no_guarded_call Hop Hin :=
  exfalso;
  repeat (apply elem_of_cons in Hin as [Hin|Hin];
          [ try discriminate;
            injection Hin as ->;
            repeat (apply elem_of_cons in Hop as [Hop|Hop]; [discriminate|]);
            by apply elem_of_nil in Hop
          | ]);
  by apply elem_of_nil in Hin.

Ltac first_call :=
  eexists _, _; split; [reflexivity|]; by repeat constructor.

(** The operations a handler calls behind its checks are called only
    for a request the limiter lets through and whose arguments pass the
    checks; and for such a request the first of them is called. *)
Theorem operations_behind_the_checks (isAbsolute : jsstring → bool) (now : Z)
    (i : invocation) (w : world) :
  let limiter := isRateLimited now (channelOf i) (limits w) in
  ∃ es,
    effects (snd (handle isAbsolute now i w)) = effects w ++ es
    ∧ (∀ op, op ∈ guardedOperations i → Called op ∈ es →
         fst limiter = false ∧ acceptable isAbsolute i)
    ∧ (fst limiter = false → acceptable isAbsolute i →
       ∃ op rest, guardedOperations i = op :: rest ∧ Called op ∈ es).
Proof.
  cbn zeta. rewrite handle_attempt.
  destruct i; cbn [guardedOperations acceptable channelOf]; run_attempt;
    (destruct (fst (isRateLimited now _ (limits w))) eqn:Hl;
     [ effects_of_case; [intros op Hop Hin; no_guarded_call Hop Hin | intros [=]] | ]).
  - destruct (validateAgentData agentData) as [b|e] eqn:Hv.
    + assert (Hacc : acceptableAgentData agentData)
        by (apply validateAgentData_accepts; by exists b).
      destruct saveAgent; effects_of_case; first [done | intros; first_call].
    + assert (Hacc : ¬ acceptableAgentData agentData).
      { intros [b Hb]%validateAgentData_accepts. congruence. }
      effects_of_case; [intros op Hop Hin; no_guarded_call Hop Hin | done].
  - destruct loadGeneratedAgents; effects_of_case; first [done | intros; first_call].
  - destruct loadExistingAgents; effects_of_case; first [done | intros; first_call].
  - destruct (negb (toBoolean filePath) || _) eqn:Hs.
    { effects_of_case; [intros op Hop Hin; no_guarded_call Hop Hin|].
      intros _ (p & st & -> & Hne & _). cbn [toBoolean typeOf] in Hs.
      rewrite (truthy_nonempty _ Hne) in Hs. discriminate. }
    assert (∃ p, filePath = JString p ∧ p ≠ []) as (p & -> & Hne).
    { apply orb_false_iff in Hs as [Hs Ht]. destruct filePath; try discriminate.
      eexists. split; [done|]. by destruct s. }
    destruct (isAbsolute p) eqn:Ha; cbn [negb];
      [|effects_of_case; [intros op Hop Hin; no_guarded_call Hop Hin|];
        intros _ (p' & st' & [= <-] & _ & Ha' & _); congruence].
    destruct stat as [st|e];
      [|destruct (getMember "code" e) as [code|te];
        [destruct (equalsString code (lit "ENOENT"))|];
        (effects_of_case; [intros op Hop Hin; no_guarded_call Hop Hin|]);
        by intros _ (p' & st' & _ & _ & _ & [=] & _)].
    destruct (isFile st) eqn:Hf; cbn [negb];
      [|effects_of_case; [intros op Hop Hin; no_guarded_call Hop Hin|];
        intros _ (p' & st' & _ & _ & _ & [= <-] & Hf' & _); congruence].
    destruct (Z.ltb_spec MAX_FILE_SIZE (size st)) as [Hsz|Hsz];
      [effects_of_case; [intros op Hop Hin; no_guarded_call Hop Hin|];
       intros _ (p' & st' & _ & _ & _ & [= <-] & _ & Hle); lia|].
    assert (Hacc : acceptablePdf isAbsolute (JString p) (Return st))
      by (by exists p, st).
    destruct required, readFile, parsed; effects_of_case;
      first [done | intros; first_call].
  - destruct loadSettings; effects_of_case; first [done | intros; first_call].
  - destruct (validateSettings settings) as [b|e] eqn:Hv.
    + assert (Hacc : acceptableSettings settings)
        by (apply validateSettings_accepts; by exists b).
      destruct saveSettings; effects_of_case; first [done | intros; first_call].
    + assert (Hacc : ¬ acceptableSettings settings).
      { intros [b Hb]%validateSettings_accepts. congruence. }
      effects_of_case; [intros op Hop Hin; no_guarded_call Hop Hin | done].
  - destruct loadTemplate; effects_of_case; first [done | intros; first_call].
  - destruct getVersion; effects_of_case; first [done | intros; first_call].
  - destruct (validateAgentType agentType) as [b|e] eqn:Hv.
    + assert (Hacc : acceptableAgentType agentType)
        by (apply validateAgentType_accepts; by exists b).
      destruct (negb (toBoolean query) || _) eqn:Hq.
      * effects_of_case; [intros op Hop Hin; no_guarded_call Hop Hin|].
        intros _ [_ [Hq' _]%query_accepts]. congruence.
      * destruct (10000 <? lengthOf query) eqn:Hlen.
        -- effects_of_case; [intros op Hop Hin; no_guarded_call Hop Hin|].
           intros _ [_ [_ Hlen']%query_accepts]. congruence.
        -- assert (Hqa : acceptableQuery query) by (by apply query_accepts).
           destruct consultAgent; effects_of_case; first [done | intros; first_call].
    + assert (Hacc : ¬ acceptableAgentType agentType).
      { intros [b Hb]%validateAgentType_accepts. congruence. }
      effects_of_case; [intros op Hop Hin; no_guarded_call Hop Hin | by intros _ [? _]].
Qed.

Lemma lookupField_setField key k v fields :
  lookupField key (setField k v fields) =
  if str_eqb k key then v else lookupField key fields.
Proof.
  induction fields as [|[k0 w0] fields IH]; [done|]. cbn [setField lookupField].
  destruct (str_eqb k0 k) eqn:Ek.
  - apply str_eqb_eq in Ek as ->. cbn [lookupField]. by destruct (str_eqb k key).
  - cbn [lookupField]. rewrite IH.
    destruct (str_eqb k0 key) eqn:Ek0; [|done].
    apply str_eqb_eq in Ek0 as ->.
    rewrite (str_eqb_neq k key); [done|]. intros ->. by rewrite str_eqb_refl in Ek.
Qed.

(** [{ ...base, ...result }] read at a key: the property of [result]
    where it has one, that of [base] otherwise. *)
Lemma lookupField_spread key result : ∀ base,
  NoDup (List.map fst result) →
  lookupField key (spread base result) =
  if decide (key ∈ List.map fst result) then lookupField key result
  else lookupField key base.
Proof.
  unfold spread. induction result as [|[k v] result IH]; intros base Hnd.
  - cbn. rewrite decide_False; [done | apply not_elem_of_nil].
  - cbn [List.fold_left List.map fst snd] in *. apply NoDup_cons in Hnd as [Hk Hnd].
    rewrite (IH _ Hnd), lookupField_setField. cbn [lookupField].
    destruct (str_eqb k key) eqn:Ek.
    + apply str_eqb_eq in Ek as ->.
      rewrite decide_False by done. rewrite decide_True; [done | apply elem_of_cons; by left].
    + assert (k ≠ key) by (intros ->; by rewrite str_eqb_refl in Ek).
      destruct (decide (key ∈ List.map fst result)) as [Hin|Hin].
      * rewrite decide_True; [done | apply elem_of_cons; by right].
      * rewrite decide_False; [done|]. intros [->|?]%elem_of_cons; done.
Qed.

(** The reply of [save-agent] to a request that passes: it carries
    every property of the object the file manager returned, and
    [success: true] unless that object has a property [success] of its
    own, which then takes its place. *)
Theorem save_agent_reply (isAbsolute : jsstring → bool) (now : Z) (agentData : jsval)
    (result : list (jsstring * jsval)) (w : world) :
  fst (isRateLimited now (lit "save-agent") (limits w)) = false →
  acceptableAgentData agentData →
  NoDup (List.map fst result) →
  ∃ r,
    fst (handle isAbsolute now (SaveAgent agentData (Return result)) w) = Return r
    ∧ ∀ key,
        getField key r =
        if decide (key ∈ List.map fst result) then lookupField key result
        else if decide (key = lit "success") then JBoolean true
        else JUndefined.
Proof.
  intros Hl [b Hv]%validateAgentData_accepts Hnd.
  rewrite handle_attempt. run_attempt. rewrite Hl, Hv. cbn [fst snd].
  eexists. split; [reflexivity|]. intros key. cbn [getField].
  rewrite lookupField_spread by done. case_decide; [done|]. cbn [lookupField].
  case_decide as Hk.
  - subst key. by rewrite str_eqb_refl.
  - rewrite str_eqb_neq; [done | congruence].
Qed.

Lemma save_agent_reply_witness :
  let w := {| limits := ∅; effects := [] |} in
  let agentData := JObject [ (lit "name", JString (lit "reviewer"));
                             (lit "content", JString (lit "# Reviewer")) ] in
  let result := [ (lit "success", JBoolean false); (lit "path", JString (lit "reviewer.md")) ] in
  fst (isRateLimited 0 (lit "save-agent") (limits w)) = false
  ∧ acceptableAgentData agentData
  ∧ NoDup (List.map fst result)
  ∧ ∃ r,
      fst (handle (λ _, true) 0 (SaveAgent agentData (Return result)) w) = Return r
      ∧ getField (lit "success") r = JBoolean false
      ∧ getField (lit "path") r = JString (lit "reviewer.md").
Proof.
  intros w agentData result.
  assert (Hacc : acceptableAgentData agentData).
  { eexists _, (lit "reviewer"), (lit "# Reviewer").
    split_and!; try reflexivity; try done; try (by vm_compute). by left. }
  assert (Hnd : NoDup (List.map fst result)).
  { apply (bool_decide_unpack _). by vm_compute. }
  split_and!; [reflexivity | done | done |].
  destruct (save_agent_reply (λ _, true) 0 agentData result w eq_refl Hacc Hnd)
    as (r & Hr & Hkeys).
  exists r. split_and!; [done | |].
  - by rewrite (Hkeys (lit "success")).
  - by rewrite (Hkeys (lit "path")).
Defined.

Lemma validationMessages_verbatim :
  Forall (λ m, sanitizeErrorMessage (newError m) = Return m) validationMessages.
Proof. repeat constructor; vm_compute; reflexivity. Qed.

Lemma getMember_throws key v e :
  getMember key v = Throw e → (v = JNull ∨ v = JUndefined) ∧ e = cannotRead v key.
Proof. destruct v; intros [= <-]; split; auto. Qed.

(** An error a handler reports that is not the error of an operation it
    called is the error of one of its checks, and the message of such
    an error reaches the renderer as it is: the sanitiser leaves it
    unchanged.  The error has one of the messages the checks give, or
    it is the [TypeError] raised where the check of the path reads the
    [code] of a rejection of [fs.stat] that is [null] or [undefined]. *)
Theorem check_messages_are_reported_verbatim (isAbsolute : jsstring → bool) (now : Z)
    (i : invocation) (w : world) (e : jsError) :
  fst (attempt isAbsolute now i w) = Throw e →
  e ∉ operationErrors i →
  ∃ m,
    (m ∈ validationMessages
     ∨ ∃ v, v ∈ operationErrors i ∧ (v = JNull ∨ v = JUndefined)
            ∧ e = cannotRead v "code")
    ∧ e = newError m
    ∧ sanitizeErrorMessage e = Return m
    ∧ fst (handle isAbsolute now i w) = Return (failure m).
Proof.
  intros Ha Hop.
  assert (Hm : ∃ m, (m ∈ validationMessages
                     ∨ ∃ v, v ∈ operationErrors i ∧ (v = JNull ∨ v = JUndefined)
                            ∧ e = cannotRead v "code")
                    ∧ e = newError m).
  { destruct i; cbn [operationErrors] in *; revert Ha; run_attempt.
    all: repeat (rewrite ?getMember_newError, ?newError_code; case_match);
      cbn [fst]; intros He; simplify_eq.
    all: first [ by (edestruct validateAgentData_throws as (m & ? & ?); [done|];
                     exists m; split; [by left | done])
               | by (edestruct validateSettings_throws as (m & ? & ?); [done|];
                     exists m; split; [by left | done])
               | by (edestruct validateAgentType_throws as (m & ? & ?); [done|];
                     exists m; split; [by left | done])
               | exfalso; apply Hop; cbn [thrown app]; by repeat constructor
               | match goal with
                 | H : getMember "code" ?v = Throw _ |- _ =>
                     apply getMember_throws in H as [Hv ->];
                     eexists; split; [|reflexivity];
                     right; exists v; split_and!; [by repeat constructor | done..]
                 end
               | (eexists; split; [|reflexivity]; left;
                  apply (bool_decide_unpack _); by vm_compute) ]. }
  destruct Hm as (m & Hm & ->). exists m.
  assert (Hs : sanitizeErrorMessage (newError m) = Return m).
  { destruct Hm as [Hm|(v & _ & Hv & Hm)].
    - pose proof validationMessages_verbatim as Hall. rewrite Forall_forall in Hall.
      by apply Hall.
    - rewrite Hm. injection Hm as ->. by destruct Hv as [->| ->]. }
  split_and!; [done..|].
  rewrite handle_attempt. destruct (attempt isAbsolute now i w) as [[v|e'] w'] eqn:E.
  { cbn in Ha. discriminate. }
  cbn [fst] in *. injection Ha as ->.
  destruct i; cbn [caught]; try (by rewrite Hs).
  all: exfalso; apply Hop; revert E; run_attempt;
    repeat case_match; intros; simplify_eq; cbn [operationErrors thrown];
    by repeat constructor.
Qed.

Lemma check_messages_are_reported_verbatim_witness :
  let w := {| limits := ∅; effects := [] |} in
  let i := ConsultAgent (JString (lit "../../etc/passwd")) (JString (lit "hello"))
             (Return JNull) in
  let m := lit "Invalid agent type: only alphanumeric, hyphens, and underscores allowed" in
  let e := newError m in
  fst (attempt (λ _, true) 0 i w) = Throw e
  ∧ (e ∉ operationErrors i)
  ∧ fst (handle (λ _, true) 0 i w) = Return (failure m).
Proof.
  intros w i m e.
  assert (Ha : fst (attempt (λ _, true) 0 i w) = Throw e) by reflexivity.
  assert (Hop : e ∉ operationErrors i) by apply not_elem_of_nil.
  split_and!; [done..|].
  destruct (check_messages_are_reported_verbatim (λ _, true) 0 i w e Ha Hop)
    as (m' & _ & [= <-] & _ & Hh).
  exact Hh.
Defined.

(** Where a global replacement finds no match, the text stays as it
    is. *)
Lemma replaceFrom_no_match matchAt rep s : ∀ prev,
  matchesSomewhere matchAt prev s = false →
  replaceFrom matchAt rep 0 prev s = s.
Proof.
  induction s as [|c s IH]; intros prev Hm; [done|].
  cbn [matchesSomewhere] in Hm. apply orb_false_iff in Hm as [Hhead Hrest].
  cbn [replaceFrom]. rewrite (IH _ Hrest).
  by destruct (matchAt prev (c :: s)) as [[|n]|].
Qed.

(** The sanitiser changes only messages that show one of its four
    patterns: a message in which none of them has a match is returned
    trimmed, and as it is when it neither starts nor ends with white
    space. *)
Theorem pattern_free_message_is_only_trimmed (message : jsstring) :
  message ≠ [] →
  matchesSomewhere unixPathAt None message = false →
  matchesSomewhere windowsPathAt None message = false →
  matchesSomewhere stackLocationAt None message = false →
  matchesSomewhere lineColumnAt None message = false →
  stripped message = message
  ∧ sanitizeErrorMessage (newError message) =
    Return (if decide (trim message = []) then defaultMessage else trim message).
Proof.
  intros Hne H1 H2 H3 H4.
  assert (Hs : stripped message = message).
  { unfold stripped, replaceAll.
    rewrite (replaceFrom_no_match unixPathAt _ message None H1).
    rewrite (replaceFrom_no_match windowsPathAt _ message None H2).
    rewrite (replaceFrom_no_match stackLocationAt _ message None H3).
    by rewrite (replaceFrom_no_match lineColumnAt _ message None H4). }
  split; [done|].
  rewrite (sanitizeErrorMessage_returns _ _ (hasMessage_newError message)).
  rewrite (truthy_nonempty _ Hne). cbn zeta. rewrite Hs.
  destruct (trim message) eqn:E; [by rewrite decide_True | by rewrite decide_False].
Qed.

Lemma pattern_free_message_is_only_trimmed_witness :
  let message := lit " Unexpected end of JSON input (line 3) " in
  message ≠ []
  ∧ matchesSomewhere unixPathAt None message = false
  ∧ matchesSomewhere windowsPathAt None message = false
  ∧ matchesSomewhere stackLocationAt None message = false
  ∧ matchesSomewhere lineColumnAt None message = false
  ∧ sanitizeErrorMessage (newError message)
    = Return (lit "Unexpected end of JSON input (line 3)").
Proof.
  intros message.
  assert (Hne : message ≠ []) by done.
  split_and!; [done | reflexivity..|].
  destruct (pattern_free_message_is_only_trimmed message Hne eq_refl eq_refl eq_refl eq_refl)
    as [_ ->].
  reflexivity.
Defined.

(** *** The operations behind the limiter *)

Lemma operationsOf_channel i i0 op :
  op ∈ operationsOf i → op ∈ operationsOf i0 → channelOf i = channelOf i0.
Proof.
  intros H H0.
  destruct i; cbn [operationsOf guardedOperations] in H;
    repeat (apply elem_of_cons in H as [->|H]); try (by apply elem_of_nil in H);
    destruct i0; cbn [operationsOf guardedOperations] in H0; try reflexivity;
    exfalso;
    repeat (apply elem_of_cons in H0 as [H0|H0]; [discriminate|]);
    by apply elem_of_nil in H0.
Qed.

(** What serving one request does to the state. *)
Lemma handle_effects isAbsolute now i w :
  let limiter := isRateLimited now (channelOf i) (limits w) in
  ∃ es,
    snd (handle isAbsolute now i w)
    = {| limits := snd limiter; effects := effects w ++ es |}
    ∧ NoDup es
    ∧ (fst limiter = true → es = [ConsoleWarn])
    ∧ (∀ op, Called op ∈ es → op ∈ operationsOf i).
Proof.
  cbn zeta. rewrite handle_attempt.
  destruct i; cbn [operationsOf guardedOperations channelOf]; run_attempt;
    (destruct (fst (isRateLimited now _ (limits w))) eqn:Hl;
     [ cbn [fst snd effects limits]; eexists; split; [reflexivity|];
       split_and!; [apply NoDup_singleton | done |];
       intros op Hin; apply list_elem_of_singleton in Hin; discriminate
     | ]).
  all: repeat case_match; simplify_eq; cbn [fst snd effects limits];
    rewrite ?app_nil_r, <- ?app_assoc; cbn [app];
    (eexists; split; [reflexivity || (by rewrite app_nil_r)|]);
    (split_and!; [apply (bool_decide_unpack _); by vm_compute | done |]);
    intros op Hin;
    repeat (apply elem_of_cons in Hin as [Hin|Hin];
            [try discriminate; injection Hin as ->; by repeat constructor|]);
    by apply elem_of_nil in Hin.
Qed.

Lemma run_app h1 h2 m :
  run (h1 ++ h2) m
  = (fst (run h1 m) ++ fst (run h2 (snd (run h1 m))),
     snd (run h2 (snd (run h1 m)))).
Proof.
  revert m. induction h1 as [|c h1 IH]; intros m; cbn [app run fst snd].
  - by destruct (run h2 m).
  - by rewrite IH.
Qed.

Lemma accepted_app c l1 l2 :
  accepted c (l1 ++ l2) = accepted c l1 ++ accepted c l2.
Proof. unfold accepted. by rewrite List.filter_app, List.map_app. Qed.

Lemma serve_limits isAbsolute calls w :
  limits (snd (serve isAbsolute calls w))
  = snd (run (requestsOf calls) (limits w)).
Proof.
  revert w. induction calls as [|[now i] calls IH]; intros w; [done|].
  cbn [serve requestsOf List.map run fst snd requestTime requestChannel].
  rewrite IH. fold (requestsOf calls).
  destruct (handle_effects isAbsolute now i w) as (es & -> & _). done.
Qed.

Lemma serve_effects isAbsolute calls w i0 op :
  op ∈ operationsOf i0 →
  ∃ es, effects (snd (serve isAbsolute calls w)) = effects w ++ es
    ∧ (List.length (filter (λ e, e = Called op) es)
       ≤ List.length (accepted (channelOf i0)
                        (fst (run (requestsOf calls) (limits w)))))%nat.
Proof.
  intros Hop. revert w.
  induction calls as [|[now i] calls IH]; intros w.
  { exists []. by rewrite app_nil_r. }
  cbn [serve requestsOf List.map run fst snd requestTime requestChannel].
  fold (requestsOf calls).
  destruct (handle_effects isAbsolute now i w) as (es & Hw & Hnd & Hlim & Hops).
  cbn zeta in Hw, Hlim. rewrite Hw.
  destruct (IH {| limits := snd (isRateLimited now (channelOf i) (limits w));
                  effects := effects w ++ es |}) as (es' & -> & Hle).
  cbn [limits effects] in *.
  exists (es ++ es'). split; [by rewrite app_assoc|].
  rewrite filter_app, length_app.
  change ((?x, ?b) :: ?l) with ([(x, b)] ++ l).
  rewrite accepted_app, length_app.
  apply Nat.add_le_mono; [|exact Hle].
  destruct (filter (λ e, e = Called op) es) as [|e1 [|e2 l]] eqn:Hf; cbn [List.length].
  - lia.
  - assert (Hin : e1 ∈ filter (λ e, e = Called op) es) by (rewrite Hf; left).
    apply list_elem_of_filter in Hin as [-> Hin].
    destruct (fst (isRateLimited now (channelOf i) (limits w))) eqn:Hl.
    { rewrite (Hlim eq_refl) in Hin. apply list_elem_of_singleton in Hin. discriminate. }
    unfold accepted. cbn [List.filter fst snd requestChannel requestTime negb].
    rewrite (operationsOf_channel i i0 op (Hops _ Hin) Hop), str_eqb_refl.
    cbn. lia.
  - exfalso.
    assert (H1 : e1 ∈ filter (λ e, e = Called op) es) by (rewrite Hf; left).
    assert (H2 : e2 ∈ filter (λ e, e = Called op) es) by (rewrite Hf; right; left).
    apply list_elem_of_filter in H1 as [-> _].
    apply list_elem_of_filter in H2 as [-> _].
    assert (Hnd' : NoDup (filter (λ e, e = Called op) es)) by by apply NoDup_filter.
    rewrite Hf in Hnd'. apply NoDup_cons in Hnd' as [Hnot _].
    apply Hnot. left.
Qed.

Lemma filter_everything {A} (P : A → Prop) `{!∀ x, Decision (P x)} (l : list A) :
  Forall P l → filter P l = l.
Proof.
  induction 1 as [|x l Hx _ IH]; [done|].
  by rewrite filter_cons_True, IH.
Qed.

Lemma channelOf_not_inherited i : inherited (channelOf i) = false.
Proof. by destruct i. Qed.

(** What the limiter buys: however the handlers were used before, with
    a clock that does not run backwards the requests served within a
    stretch of 60,000 ms make each operation behind a handler (the
    parsing of a document, the saving of an agent, ...) run no more
    often than the quota of the handler's channel, whatever their
    number and their arguments. *)
Theorem operations_within_quota (isAbsolute : jsstring → bool)
    (before during : list (Z * invocation)) (i0 : invocation) (op : string) (T : Z) :
  StronglySorted Z.le (List.map fst (before ++ during)) →
  (∀ call, call ∈ during → T - RATE_LIMIT_WINDOW < fst call ≤ T) →
  op ∈ operationsOf i0 →
  let w0 := snd (serve isAbsolute before {| limits := ∅; effects := [] |}) in
  ∃ es, effects (snd (serve isAbsolute during w0)) = effects w0 ++ es
    ∧ jslength (filter (λ e, e = Called op) es) ≤ quotaOf (channelOf i0).
Proof.
  intros Hsorted Hwin Hop w0.
  destruct (serve_effects isAbsolute during w0 i0 op Hop) as (es & Hes & Hle).
  exists es. split; [exact Hes|].
  pose proof (RateLimiterFacts.accepted_in_window
                (requestsOf (before ++ during)) (channelOf i0) T) as Hq.
  unfold requestsOf in Hq at 1. rewrite List.map_map in Hq. cbn [requestTime] in Hq.
  specialize (Hq Hsorted (channelOf_not_inherited i0)).
  unfold requestsOf in Hq. rewrite List.map_app in Hq.
  fold (requestsOf before) in Hq. fold (requestsOf during) in Hq.
  rewrite run_app in Hq. cbn [fst] in Hq.
  rewrite accepted_app, filter_app, jslength_app in Hq.
  subst w0. rewrite serve_limits in Hle. cbn [limits] in Hle.
  set (late := accepted (channelOf i0)
                 (fst (run (requestsOf during) (snd (run (requestsOf before) ∅))))) in *.
  assert (Hall : filter (λ t, T - RATE_LIMIT_WINDOW < t ≤ T) late = late).
  { apply filter_everything, Forall_forall. intros t Ht.
    apply RateLimiterFacts.accepted_times in Ht as (d & Hd & <-).
    unfold requestsOf in Hd. apply list_elem_of_In, List.in_map_iff in Hd as (call & <- & Hc).
    apply list_elem_of_In in Hc. cbn [requestTime]. by apply Hwin. }
  rewrite Hall in Hq.
  assert (0 ≤ jslength (filter (λ t, T - RATE_LIMIT_WINDOW < t ≤ T)
                          (accepted (channelOf i0) (fst (run (requestsOf before) ∅)))))
    by (unfold jslength; lia).
  unfold jslength in *. lia.
Qed.

Lemma operations_within_quota_witness :
  let document := ProcessPdf (JString (lit "/docs/a.pdf")) (Return (Stats true 1000))
                    (Return tt) (Return JNull)
                    (Return (PdfData (JString (lit "text")) (JNumber 1) JNull)) in
  let before := [(0, LoadSettings (Return JNull)); (1, document)] in
  let during := List.map (λ t, (t, document)) [2; 3; 4; 5; 6; 7; 8] in
  let w0 := snd (serve (λ _, true) before {| limits := ∅; effects := [] |}) in
  ∃ es, effects (snd (serve (λ _, true) during w0)) = effects w0 ++ es
    ∧ jslength (filter (λ e, e = Called "pdfParse"%string) es) ≤ 5.
Proof.
  cbn zeta.
  apply (operations_within_quota (λ _, true) _ _
           (ProcessPdf JNull (Return (Stats true 0)) (Return tt) (Return JNull)
              (Return (PdfData JNull JNull JNull)))
           "pdfParse" 60000).
  - cbn. repeat constructor; lia.
  - intros call Hc. cbn in Hc.
    repeat (apply elem_of_cons in Hc as [->|Hc]; [cbn; unfold RATE_LIMIT_WINDOW; lia|]).
    by apply elem_of_nil in Hc.
  - cbn. repeat constructor.
Defined.

End HandlersFacts.

(** ** [TemplateProcessor] *)

Module TemplateProcessorSpec.
Import TemplateProcessor.

Lemma filter_nonEmptyItem arr : List.filter nonEmptyItem arr = filter nonBlank arr.
Proof. apply filter_bool_decide, AnalysisSpec.nonEmptyItem_nonBlank. Qed.

Lemma join_occursIn sep x l : x ∈ l → occursIn x (join sep l).
Proof.
  induction l as [|y l IH]; intros Hx; [by apply elem_of_nil in Hx|].
  apply elem_of_cons in Hx as [->|Hx].
  - destruct l as [|z l]; [exists [], []; by rewrite app_nil_r|].
    exists [], (sep ++ join sep (z :: l)). done.
  - destruct l as [|z l]; [by apply elem_of_nil in Hx|].
    destruct (IH Hx) as (pre & post & He).
    exists (y ++ sep ++ pre), post. cbn [join] in *. rewrite He.
    by rewrite <- !app_assoc.
Qed.

Lemma join_nonempty sep x l : x ≠ [] → join sep (x :: l) ≠ [].
Proof. destruct l; destruct x; done. Qed.

(** [joinFields] never yields the empty string: it is ['Not specified']
    for a value that is no array and for an array without a field that
    holds something; otherwise every field that holds something occurs
    in it, and the blank fields make no difference. *)
Theorem joinFields_spec (fields : option (list jsstring)) :
  joinFields fields ≠ []
  ∧ (fields = None → joinFields fields = lit "Not specified")
  ∧ ∀ arr, fields = Some arr →
      (Forall (λ f, ¬ nonBlank f) arr → joinFields fields = lit "Not specified")
      ∧ (∀ f, f ∈ arr → nonBlank f → occursIn f (joinFields fields))
      ∧ joinFields fields = joinFields (Some (filter nonBlank arr)).
Proof.
  split_and!.
  - destruct fields as [arr|]; [|done]. unfold joinFields. cbn zeta.
    rewrite filter_nonEmptyItem.
    destruct (filter nonBlank arr) as [|x l] eqn:E; [done|].
    destruct (Z.eqb_spec (jslength (x :: l)) 0); [done|].
    apply join_nonempty. intros ->.
    assert (Hx : [] ∈ filter nonBlank arr) by (rewrite E; apply elem_of_cons; by left).
    apply list_elem_of_filter in Hx as [Hx _]. by apply Exists_nil in Hx.
  - by intros ->.
  - intros arr ->. unfold joinFields. cbn zeta. rewrite !filter_nonEmptyItem.
    split_and!.
    + intros Hall.
      assert (filter nonBlank arr = []) as ->; [|done].
      induction Hall as [|f arr Hf Hall IH]; [done|].
      by rewrite filter_cons, decide_False.
    + intros f Hf Hnb.
      assert (Hin : f ∈ filter nonBlank arr) by (by apply list_elem_of_filter).
      destruct (filter nonBlank arr) as [|x l] eqn:E; [by apply elem_of_nil in Hin|].
      destruct (Z.eqb_spec (jslength (x :: l)) 0) as [Hz|_].
      { unfold jslength in Hz. cbn in Hz. lia. }
      by apply join_occursIn.
    + by rewrite list_filter_filter_l by done.
Qed.

Lemma filterEmpty_filter templateData category :
  filterEmpty (getProp category templateData)
  = filter nonBlank (default [] (getProp category templateData)).
Proof. unfold filterEmpty. apply filter_nonEmptyItem. Qed.

(** [extractRequirements] never fails, loses nothing and keeps the
    order: its four groups, put one after the other, are the fields of
    the eight categories that hold something, in the order of the
    categories and of the form; and where all eight categories are
    there, their number is the [totalFields] that [generateStatistics]
    reports, whose complexity is that of [estimateComplexity]. *)
Theorem requirements_are_the_filled_fields (templateData : jsobject)
    (documents : list document) :
  let r := extractRequirements templateData in
  functions r ++ inputs r ++ outputs r ++ constraints r
  = filter nonBlank (categoryFields templateData)
  ∧ (Forall (λ c, is_Some (getProp c templateData)) categories →
     ∃ stats,
       generateStatistics templateData documents = Some stats
       ∧ totalFields stats
         = jslength (functions r) + jslength (inputs r) + jslength (outputs r)
           + jslength (constraints r)
       ∧ estimateComplexity templateData documents = Some (estimatedComplexity stats)).
Proof.
  cbn zeta.
  assert (He : functions (extractRequirements templateData)
               ++ inputs (extractRequirements templateData)
               ++ outputs (extractRequirements templateData)
               ++ constraints (extractRequirements templateData)
               = filter nonBlank (categoryFields templateData)).
  { unfold extractRequirements, categoryFields, categories.
    cbn [functions inputs outputs constraints List.map List.concat].
    rewrite !filterEmpty_filter, !filter_app, filter_nil, app_nil_r.
    by rewrite <- !app_assoc. }
  split; [done|]. intros Hall.
  assert (Hc : ∃ c, estimateComplexity templateData documents = Some c).
  { unfold estimateComplexity.
    rewrite (AnalysisSpec.sumCategories_spec _ _ _ Hall). repeat case_match; by eexists. }
  destruct Hc as [c Hc]. unfold generateStatistics.
  rewrite (AnalysisSpec.sumCategories_spec _ _ _ Hall), Hc. cbn [mbind option_bind].
  eexists. split; [reflexivity|]. cbn [totalFields estimatedComplexity].
  split; [|done]. fold (categoryFields templateData).
  unfold filledFields. rewrite <- He, !jslength_app. lia.
Qed.

Lemma existsb_nonEmptyItem arr : existsb nonEmptyItem arr = true ↔ Exists nonBlank arr.
Proof.
  rewrite existsb_exists, Exists_exists. split.
  - intros (f & Hf & Hn). exists f. split; [by apply list_elem_of_In|].
    by apply AnalysisSpec.nonEmptyItem_nonBlank.
  - intros (f & Hf & Hn). exists f. split; [by apply list_elem_of_In|].
    by apply AnalysisSpec.nonEmptyItem_nonBlank.
Qed.

Lemma checkCategories_spec templateData cats : ∀ filledCategories warnings,
  Forall (λ c, is_Some (getProp c templateData)) cats →
  checkCategories cats templateData filledCategories warnings =
  Some (filledCategories + jslength (filter (hasValue templateData) cats),
        warnings ++ List.map emptyWarning (filter (warnedAbout templateData) cats)).
Proof.
  induction cats as [|c cats IH]; intros n ws Hall.
  - cbn. unfold jslength. cbn. rewrite app_nil_r. do 2 f_equal. lia.
  - apply Forall_cons in Hall as [[arr Harr] Hall]. cbn [checkCategories].
    rewrite Harr, !filter_cons.
    assert (Hv : existsb nonEmptyItem arr = true ↔ hasValue templateData c).
    { unfold hasValue. rewrite Harr. apply existsb_nonEmptyItem. }
    destruct (existsb nonEmptyItem arr) eqn:E.
    + rewrite IH by done. rewrite decide_True by (by apply Hv).
      rewrite decide_False by (intros [Hn _]; by apply Hn, Hv).
      unfold jslength. cbn [List.length]. do 2 f_equal. lia.
    + assert (Hn : ¬ hasValue templateData c) by (intros H%Hv; discriminate).
      rewrite decide_False by done.
      destruct (str_eqb c (lit "coreFunctions")) eqn:Ec; cbn [negb].
      * apply str_eqb_eq in Ec. rewrite IH by done.
        by rewrite decide_False by (by intros [_ ?]).
      * rewrite IH by done. rewrite decide_True.
        -- cbn [List.map]. by rewrite <- app_assoc.
        -- split; [done|]. intros ->. by rewrite str_eqb_refl in Ec.
Qed.

Lemma checkCategories_present templateData cats : ∀ filledCategories warnings,
  is_Some (checkCategories cats templateData filledCategories warnings) →
  Forall (λ c, is_Some (getProp c templateData)) cats.
Proof.
  induction cats as [|c cats IH]; intros n ws Hs; [constructor|].
  cbn [checkCategories] in Hs.
  destruct (getProp c templateData) as [arr|] eqn:Harr; [|by destruct Hs].
  constructor; [done|]. repeat case_match; by eapply IH.
Qed.

Lemma filter_all_length {A} (P : A → Prop) `{!∀ x, Decision (P x)} (l : list A) :
  List.length (filter P l) = List.length l ↔ Forall P l.
Proof.
  induction l as [|x l IH]; [by split|]. rewrite filter_cons.
  pose proof (length_filter P l). case_decide; cbn [List.length].
  - rewrite Forall_cons. split; [intros [=]; split; [done | by apply IH] |].
    intros [_ Hl]. f_equal. by apply IH.
  - split; [intros; lia | by intros [? _]%Forall_cons].
Qed.

(** [validateTemplateData], where it returns: the data are valid
    exactly when a core function holds something, which is when there
    is no error; a warning is given, in the order of the form, for
    every other category without a value; completeness is the rounded
    percentage of the categories that have a value, and it is 100
    exactly when the data are valid and no warning is given. *)
Theorem validateTemplateData_spec (templateData : jsobject) (v : validation) :
  validateTemplateData templateData = Some v →
  (isValid v = true ↔ hasValue templateData (lit "coreFunctions"))
  ∧ (isValid v = true ↔ errors v = [])
  ∧ warnings v = List.map emptyWarning (filter (warnedAbout templateData) categories)
  ∧ completeness v
    = percentage (jslength (filter (hasValue templateData) categories)) 8
  ∧ 0 ≤ completeness v ≤ 100
  ∧ (completeness v = 100 ↔ isValid v = true ∧ warnings v = []).
Proof.
  unfold validateTemplateData.
  destruct (getProp (lit "coreFunctions") templateData) as [core|] eqn:Hcore; [|done].
  cbn [mbind option_bind].
  destruct (checkCategories categories templateData 0 []) as [checked|] eqn:Hch; [|done].
  cbn [mbind option_bind]. intros [= <-]. cbn [isValid errors warnings completeness].
  assert (Hall : Forall (λ c, is_Some (getProp c templateData)) categories).
  { apply (checkCategories_present _ _ 0 []). by rewrite Hch. }
  rewrite (checkCategories_spec _ _ _ _ Hall) in Hch. injection Hch as <-.
  cbn [fst snd app].
  set (k := filter (hasValue templateData) categories).
  assert (Hk : 0 ≤ jslength k ≤ 8).
  { pose proof (length_filter (hasValue templateData) categories) as Hle.
    fold k in Hle. assert (List.length categories = 8%nat) by reflexivity.
    unfold jslength. lia. }
  assert (Hvalid : (jslength (if negb (existsb nonEmptyItem core)
                              then [lit "At least one core function must be specified"]
                              else []) =? 0) = true
                   ↔ hasValue templateData (lit "coreFunctions")).
  { unfold hasValue. rewrite Hcore. cbn [default from_option]. unfold id.
    rewrite <- existsb_nonEmptyItem. by destruct (existsb nonEmptyItem core). }
  assert (Hp : ∀ n, 0 ≤ n ≤ 8 →
            0 ≤ percentage n 8 ≤ 100 ∧ (percentage n 8 = 100 ↔ n = 8)).
  { intros n Hn. unfold percentage.
    assert (n = 0 ∨ n = 1 ∨ n = 2 ∨ n = 3 ∨ n = 4 ∨ n = 5 ∨ n = 6 ∨ n = 7 ∨ n = 8)
      as Hcases by lia.
    repeat (destruct Hcases as [->|Hcases]; [by vm_compute|]). subst n. by vm_compute. }
  replace (0 + jslength k) with (jslength k) by lia.
  replace (jslength categories) with 8 by reflexivity.
  split_and!; [done | | done | done | by apply Hp | by apply Hp |].
  - by destruct (existsb nonEmptyItem core).
  - rewrite (proj2 (Hp _ Hk)), Hvalid.
    assert (jslength k = 8 ↔ Forall (hasValue templateData) categories) as ->.
    { rewrite <- (filter_all_length (hasValue templateData) categories). subst k.
      assert (List.length categories = 8%nat) by reflexivity. unfold jslength. lia. }
    split.
    + intros Hf. split.
      * rewrite Forall_forall in Hf. apply Hf. by repeat constructor.
      * assert (filter (warnedAbout templateData) categories = []) as ->; [|done].
        destruct (filter (warnedAbout templateData) categories) as [|c l] eqn:E;
          [done|]. exfalso.
        assert (Hc : c ∈ filter (warnedAbout templateData) categories)
          by (rewrite E; apply elem_of_cons; by left).
        apply list_elem_of_filter in Hc as [[Hn _] Hc].
        rewrite Forall_forall in Hf. by apply Hn, Hf.
    + intros [Hv Hw]. apply Forall_forall. intros c Hc.
      destruct (decide (hasValue templateData c)) as [|Hn]; [done|]. exfalso.
      destruct (decide (c = lit "coreFunctions")) as [->|Hne]; [done|].
      assert (Hin : c ∈ filter (warnedAbout templateData) categories)
        by (by apply list_elem_of_filter).
      apply (list_elem_of_fmap_2 emptyWarning) in Hin.
      change (emptyWarning c ∈ List.map emptyWarning
                (filter (warnedAbout templateData) categories)) in Hin.
      rewrite Hw in Hin. by apply elem_of_nil in Hin.
Qed.

Lemma validateTemplateData_spec_witness :
  ∃ v,
    validateTemplateData sixteenFilled = Some v
    ∧ isValid v = true
    ∧ completeness v = 25
    ∧ jslength (warnings v) = 6.
Proof.
  eexists. split; [reflexivity|].
  destruct (validateTemplateData_spec sixteenFilled _ eq_refl) as (_ & _ & _ & Hc & _).
  split_and!; [reflexivity | | reflexivity].
  rewrite Hc. reflexivity.
Defined.

(** *** [fillTemplate] *)

Lemma getSubstitution_plain matched before after replacement :
  36%N ∉ replacement →
  getSubstitution matched before after replacement = replacement.
Proof.
  induction replacement as [|c rest IH]; intros Hd; [done|].
  apply not_elem_of_cons in Hd as [Hc Hrest]. cbn [getSubstitution].
  destruct (N.eqb_spec c 36) as [->|_]; [done|]. by rewrite IH.
Qed.

Lemma startsWith_app a b p :
  startsWith (a ++ b) p = true → startsWith a p = true ∨ startsWith p a = true.
Proof.
  revert a. induction p as [|c p IH]; intros a; [by left|].
  destruct a as [|d a]; [by right|]. cbn.
  rewrite !andb_true_iff, !N.eqb_eq. intros [-> H].
  destruct (IH a H) as [Ha|Ha]; [left | right]; done.
Qed.

Lemma startsWith_prefix p rest : startsWith (p ++ rest) p = true.
Proof. induction p as [|c p IH]; [done|]. cbn. by rewrite N.eqb_refl. Qed.

Section ReplaceAll.

Variables search replacement : jsstring.
Hypothesis search_nonempty : search ≠ [].
Hypothesis replacement_plain : 36%N ∉ replacement.

(** Text clear of [search] comes through as it is. *)
Lemma replaceAllFrom_clear s : ∀ seen rest,
  clearOf search s = true →
  replaceAllFrom search replacement seen 0 (s ++ rest)
  = s ++ replaceAllFrom search replacement (seen ++ s) 0 rest.
Proof.
  induction s as [|c s IH]; intros seen rest Hs.
  - by rewrite app_nil_r.
  - cbn [clearOf] in Hs. apply andb_true_iff in Hs as [Hs Hclear].
    apply andb_true_iff in Hs as [H1 H2].
    apply negb_true_iff in H1, H2.
    cbn [app replaceAllFrom].
    assert (startsWith (c :: s ++ rest) search = false) as ->.
    { apply not_true_is_false. intros H.
      apply (startsWith_app (c :: s) rest) in H as [H|H]; congruence. }
    rewrite IH by done. by rewrite <- app_assoc.
Qed.

Lemma replaceAllFrom_skip a : ∀ seen rest,
  replaceAllFrom search replacement seen (List.length a) (a ++ rest)
  = replaceAllFrom search replacement (seen ++ a) 0 rest.
Proof.
  induction a as [|c a IH]; intros seen rest.
  - by rewrite app_nil_r.
  - cbn [List.length app replaceAllFrom]. rewrite IH. by rewrite <- app_assoc.
Qed.

(** An occurrence of [search] is replaced. *)
Lemma replaceAllFrom_match seen rest :
  replaceAllFrom search replacement seen 0 (search ++ rest)
  = replacement ++ replaceAllFrom search replacement (seen ++ search) 0 rest.
Proof.
  destruct search as [|c p] eqn:E; [done|]. rewrite <- E.
  assert (Hs : startsWith (search ++ rest) search = true) by apply startsWith_prefix.
  rewrite E in Hs |- *. cbn [app replaceAllFrom]. cbn [app] in Hs. rewrite Hs.
  rewrite getSubstitution_plain by done. cbn [List.length].
  replace (S (List.length p) - 1)%nat with (List.length p) by lia.
  rewrite <- E, replaceAllFrom_skip, <- app_assoc. cbn [app]. by rewrite <- E.
Qed.

(** A pass over pieces each of which is either [search], to be
    replaced, or clear of it. *)
Lemma replaceAllFrom_pieces (current next : piece → jsstring) pieces : ∀ seen,
  Forall (λ p, (current p = search ∧ next p = replacement)
               ∨ (clearOf search (current p) = true ∧ next p = current p)) pieces →
  replaceAllFrom search replacement seen 0 (List.concat (List.map current pieces))
  = List.concat (List.map next pieces).
Proof.
  induction pieces as [|p pieces IH]; intros seen Hall; [done|].
  apply Forall_cons in Hall as [[[Hc Hn]|[Hc Hn]] Hall]; cbn [List.map List.concat].
  - rewrite Hc, Hn, replaceAllFrom_match. by rewrite IH.
  - rewrite Hn, replaceAllFrom_clear by done. by rewrite IH.
Qed.

End ReplaceAll.

Lemma clearOf_no_bracket search t s :
  search = 91%N :: t → 91%N ∉ s → clearOf search s = true.
Proof.
  intros ->. induction s as [|c s IH]; intros Hs; [done|].
  apply not_elem_of_cons in Hs as [Hc Hs]. cbn [clearOf startsWith].
  rewrite IH by done.
  destruct (N.eqb_spec 91 c); [congruence|].
  destruct (N.eqb_spec c 91); [congruence|]. done.
Qed.

Lemma lookup_map {A B} (f : A → B) (l : list A) : ∀ k,
  List.map f l !! k = f <$> (l !! k).
Proof. induction l as [|x l IH]; intros [|k]; cbn; auto. Qed.

Section Fill.

Variable rs : list (jsstring * jsstring).
Variable pieces : list piece.
Hypothesis placeholders_bracketed : Forall (λ r, ∃ t, fst r = 91%N :: t) rs.
Hypothesis values_plain : Forall (λ r, plain (snd r)) rs.
Hypothesis placeholders_apart : ∀ i j Pi Pj,
  i ≠ j → List.map fst rs !! i = Some Pi → List.map fst rs !! j = Some Pj →
  clearOf Pj Pi = true.
Hypothesis pieces_slotted :
  Forall (λ p, match p with
               | Text s => Forall (λ r, clearOf (fst r) s = true) rs
               | Slot k => (k < List.length rs)%nat
               end) pieces.

(** One replacement: the slot of the placeholder takes its value, the
    rest stays. *)
Lemma fill_stage done P v todo :
  rs = done ++ (P, v) :: todo →
  stringReplaceAll P v (renderWith (List.map snd done ++ P :: List.map fst todo) pieces)
  = renderWith (List.map snd done ++ v :: List.map fst todo) pieces.
Proof.
  intros Hrs. unfold stringReplaceAll, renderWith.
  assert (HP : (P, v) ∈ rs) by (rewrite Hrs; apply elem_of_app; right; by left).
  rewrite Forall_forall in placeholders_bracketed, values_plain.
  destruct (placeholders_bracketed _ HP) as [t Ht]. cbn [fst] in Ht.
  destruct (values_plain _ HP) as [_ Hdollar]. cbn [snd] in Hdollar.
  apply replaceAllFrom_pieces; [by rewrite Ht | done |].
  eapply Forall_impl; [exact pieces_slotted|]. intros [s|k] Hp; cbn beta iota.
  - right. split; [|done]. rewrite Forall_forall in Hp. by apply (Hp (P, v)).
  - assert (Hlen : List.length (List.map snd done) = List.length done)
      by apply length_map.
    destruct (lt_eq_lt_dec k (List.length done)) as [[Hlt|Heq]|Hgt].
    + right. rewrite !lookup_app_l by lia. split; [|done].
      rewrite lookup_map. destruct (done !! k) as [[Pk vk']|] eqn:Hk; [|done].
      cbn [fmap option_fmap option_map default snd].
      assert (Hin : (Pk, vk') ∈ rs).
      { rewrite Hrs. apply elem_of_app. left. by eapply list_elem_of_lookup_2. }
      destruct (values_plain _ Hin) as [Hbr _]. by apply (clearOf_no_bracket _ t).
    + left. rewrite !lookup_app_r by lia.
      replace (k - List.length (List.map snd done))%nat with 0%nat by lia. done.
    + right. rewrite !lookup_app_r by lia.
      destruct (k - List.length (List.map snd done))%nat as [|n] eqn:Hn; [lia|].
      cbn [lookup list_lookup]. split; [|done].
      destruct (List.map fst todo !! n) as [Pk|] eqn:Hk; [|done]. cbn [default].
      apply (placeholders_apart k (List.length done)); [lia | |].
      * rewrite Hrs, List.map_app. cbn [List.map fst].
        rewrite lookup_app_r by (rewrite length_map; lia).
        rewrite length_map.
        replace (k - List.length done)%nat with (S n) by lia. done.
      * rewrite Hrs, List.map_app. cbn [List.map fst].
        rewrite lookup_app_r by (rewrite length_map; lia).
        rewrite length_map, Nat.sub_diag. done.
Qed.

Lemma fill_stages todo : ∀ done,
  rs = done ++ todo →
  List.fold_left (λ result entry, stringReplaceAll (fst entry) (snd entry) result) todo
    (renderWith (List.map snd done ++ List.map fst todo) pieces)
  = renderWith (List.map snd rs) pieces.
Proof.
  induction todo as [|[P v] todo IH]; intros done Hrs.
  - cbn. by rewrite Hrs, !app_nil_r.
  - cbn [List.fold_left List.map fst snd]. rewrite (fill_stage done P v todo Hrs).
    assert (Hrs' : rs = (done ++ [(P, v)]) ++ todo) by (by rewrite <- app_assoc).
    specialize (IH _ Hrs'). rewrite List.map_app, <- app_assoc in IH. exact IH.
Qed.

End Fill.

Lemma plain_app a b : plain a → plain b → plain (a ++ b).
Proof.
  intros [Ha1 Ha2] [Hb1 Hb2]. split; rewrite elem_of_app; tauto.
Qed.

Lemma join_plain sep l : plain sep → Forall plain l → plain (join sep l).
Proof.
  intros Hsep. induction 1 as [|x l Hx Hl IH]; [by split; apply not_elem_of_nil|].
  destruct l as [|y l]; [done|]. cbn [join] in *.
  apply plain_app; [done|]. apply plain_app; [done|]. apply IH.
Qed.

Lemma plain_lit_decide (s : jsstring) :
  bool_decide (91%N ∉ s) && bool_decide (36%N ∉ s) = true → plain s.
Proof.
  intros H. apply andb_true_iff in H as [H1 H2].
  apply bool_decide_eq_true_1 in H1, H2. by split.
Qed.

Lemma joinFields_plain fields :
  (∀ arr, fields = Some arr → Forall plain arr) → plain (joinFields fields).
Proof.
  intros Hf. unfold joinFields. destruct fields as [arr|]; [|by (apply plain_lit_decide; vm_compute)].
  cbn zeta. destruct (_ =? 0); [by (apply plain_lit_decide; vm_compute)|].
  apply join_plain; [by (apply plain_lit_decide; vm_compute)|].
  specialize (Hf arr eq_refl). rewrite Forall_forall in Hf. apply Forall_forall.
  intros f Hin. apply Hf. apply list_elem_of_In in Hin. apply List.filter_In in Hin as [Hin _].
  by apply list_elem_of_In.
Qed.

Lemma prefixOf_plain meta :
  plain (metaType meta) → plain (metaPrefix meta) → plain (prefixOf meta).
Proof.
  intros [Ht1 Ht2] Hp. unfold prefixOf. destruct (truthy _); [done|].
  split; intros Hin; apply list_elem_of_In, List.in_map_iff in Hin as (c & Hc & Hin);
    apply list_elem_of_In in Hin; destruct (N.eqb_spec c 45); subst; done.
Qed.

Lemma replacements_placeholders templateData meta :
  List.map fst (replacements templateData meta) = placeholders.
Proof. reflexivity. Qed.

Lemma placeholders_apart i j Pi Pj :
  i ≠ j → placeholders !! i = Some Pi → placeholders !! j = Some Pj →
  clearOf Pj Pi = true.
Proof.
  intros Hne Hi Hj.
  assert (Hall : ∀ i j, (i < 11)%nat → (j < 11)%nat → i ≠ j →
            clearOf (nth j placeholders []) (nth i placeholders []) = true).
  { clear. intros i j Hi Hj.
    do 11 (destruct i as [|i];
           [ do 11 (destruct j as [|j];
                    [ first [ by intros ?; vm_compute | intros H; by destruct H ] | ]);
             lia
           | ]).
    lia. }
  pose proof (lookup_lt_Some _ _ _ Hi) as Hi'.
  pose proof (lookup_lt_Some _ _ _ Hj) as Hj'.
  rewrite <- (nth_lookup_Some _ _ [] _ Hi), <- (nth_lookup_Some _ _ [] _ Hj).
  by apply Hall.
Qed.

(** [fillTemplate] on a template whose placeholders are its slots puts
    into every slot the value of its placeholder — the type, the joined
    fields of the category, the prefix — and leaves the text between
    the slots as it is, provided that neither the type, the prefix nor
    any field contains ['['] or ['$']. *)
Theorem fillTemplate_fills_the_slots (pieces : list piece) (templateData : jsobject)
    (meta : metadata) :
  slotted pieces →
  plain (metaType meta) →
  plain (metaPrefix meta) →
  (∀ category arr, getProp category templateData = Some arr → Forall plain arr) →
  fillTemplate (renderWith placeholders pieces) templateData meta
  = renderWith (List.map snd (replacements templateData meta)) pieces.
Proof.
  intros Hpieces Htype Hprefix Hfields. unfold fillTemplate.
  pose proof (replacements_placeholders templateData meta) as Hph.
  assert (Hjoin : ∀ category, plain (joinFields (getProp category templateData))).
  { intros category. apply joinFields_plain. intros arr Harr. by eapply Hfields. }
  assert (Hb : Forall (λ r, ∃ t, fst r = 91%N :: t) (replacements templateData meta)).
  { unfold replacements. repeat (constructor; [by eexists|]). constructor. }
  assert (Hv : Forall (λ r, plain (snd r)) (replacements templateData meta)).
  { unfold replacements. repeat apply Forall_cons_2; try apply Forall_nil_2; cbn [snd];
      try done.
    - by apply prefixOf_plain.
    - apply joinFields_plain. intros arr [= <-].
      destruct (getProp (lit "testCoverage") templateData) as [arr|] eqn:E; cbn.
      + by eapply Hfields.
      + constructor. }
  assert (Ha : ∀ i j Pi Pj, i ≠ j →
            List.map fst (replacements templateData meta) !! i = Some Pi →
            List.map fst (replacements templateData meta) !! j = Some Pj →
            clearOf Pj Pi = true).
  { intros i j Pi Pj. rewrite Hph. apply placeholders_apart. }
  assert (Hs : Forall (λ p, match p with
                            | Text s => Forall (λ r, clearOf (fst r) s = true)
                                          (replacements templateData meta)
                            | Slot k => (k < List.length (replacements templateData meta))%nat
                            end) pieces).
  { eapply Forall_impl; [exact Hpieces|]. intros [s|k]; cbn beta iota.
    - intros Hs. rewrite Forall_forall in Hs. apply Forall_forall. intros [P v] Hin.
      apply Hs. rewrite <- Hph. by apply (list_elem_of_fmap_2 fst) in Hin.
    - by rewrite <- Hph, length_map. }
  exact (fill_stages _ pieces Hb Hv Ha Hs (replacements templateData meta) [] eq_refl).
Qed.

Lemma fillTemplate_fills_the_slots_witness :
  let pieces := [ Text (lit "You are a "); Slot 0; Text (lit " agent [beta]. Do: ");
                  Slot 1; Text (lit ". Prefix: "); Slot 9;
                  Text (lit ". Replace every [PLACEHOLDER].") ] in
  let meta := {| metaType := lit "api-helper"; metaPrefix := [] |} in
  slotted pieces
  ∧ plain (metaType meta)
  ∧ plain (metaPrefix meta)
  ∧ (∀ category arr, getProp category sixteenFilled = Some arr → Forall plain arr)
  ∧ fillTemplate
      (lit "You are a [SUBAGENT_TYPE] agent [beta]. Do: [CORE_FUNCTION]. Prefix: [PREFIX]. Replace every [PLACEHOLDER].")
      sixteenFilled meta
    = renderWith (List.map snd (replacements sixteenFilled meta)) pieces.
Proof.
  intros pieces meta.
  assert (H1 : slotted pieces).
  { unfold slotted, pieces. repeat constructor; by vm_compute. }
  assert (H2 : plain (metaType meta)) by (by (apply plain_lit_decide; vm_compute)).
  assert (H3 : plain (metaPrefix meta)) by (by (apply plain_lit_decide; vm_compute)).
  assert (H4 : ∀ category arr, getProp category sixteenFilled = Some arr → Forall plain arr).
  { intros category arr. unfold sixteenFilled. cbn [getProp].
    repeat (destruct (str_eqb _ category);
            [intros [= <-]; cbn [replicate app]; repeat apply Forall_cons_2; try apply Forall_nil_2;
             by (apply plain_lit_decide; vm_compute)|]).
    discriminate. }
  split_and!; [done..|].
  exact (fillTemplate_fills_the_slots pieces sixteenFilled meta H1 H2 H3 H4).
Defined.

(** A ['$'] in a value is not taken as it is: [$$] is written as [$]
    and [$&] as the placeholder. *)
Example fillTemplate_dollar :
  fillTemplate (lit "Domain: [DOMAIN]")
    [ (lit "domainExpertise", [lit "billing in $$ and $&"]) ]
    {| metaType := lit "billing"; metaPrefix := [] |}
  = lit "Domain: billing in $ and [DOMAIN]".
Proof. vm_compute. reflexivity. Qed.

End TemplateProcessorSpec.

(** ** Consulting and generating *)

Module GenerationSpec.
Import HeadArchitectAgent.

Section WithEnvironment.

Variable toLowerCase : jsstring → jsstring.
Variable respond : list event → jsstring → jsstring → promise (option consultReply).

Lemma consultAgent_events agentType' query log :
  ∃ es,
    snd (consultAgent respond agentType' query log) = log ++ es
    ∧ filter isConsultation es = [ConsultAgentCalled agentType' query].
Proof.
  unfold consultAgent. destruct (respond log agentType' query) as [[result|]|message];
    cbn [snd]; rewrite <- ?app_assoc; eexists; (split; [reflexivity|]); done.
Qed.

Lemma consultSuggested_events agentType' suggested : ∀ consultations log,
  let r := consultSuggested respond agentType' suggested consultations log in
  ∃ es more,
    snd r = log ++ es
    ∧ filter isConsultation es
      = List.map (λ agentName, ConsultAgentCalled agentName (guidanceQuery agentType'))
          suggested
    ∧ fst r = consultations ++ more
    ∧ (List.length more ≤ List.length suggested)%nat.
Proof.
  induction suggested as [|agentName rest IH]; intros consultations log; cbn zeta.
  - exists [], []. by rewrite !app_nil_r.
  - cbn [consultSuggested].
    destruct (consultAgent_events agentName (guidanceQuery agentType') log)
      as (es1 & Hlog & Hcalls).
    set (r := consultAgent respond agentName (guidanceQuery agentType') log) in *.
    destruct (IH (match fst r with Some c => consultations ++ [c] | None => consultations end)
                 (snd r)) as (es2 & more & Hlog2 & Hcalls2 & Hcs & Hlen).
    cbn zeta in *. rewrite Hlog2, Hcs, Hlog.
    exists (es1 ++ es2), (match fst r with Some c => [c] | None => [] end ++ more).
    split_and!.
    + by rewrite app_assoc.
    + by rewrite filter_app, Hcalls, Hcalls2.
    + destruct (fst r); [by rewrite <- app_assoc | done].
    + rewrite length_app. destruct (fst r); cbn [List.length]; lia.
Qed.

Lemma consultExistingAgents_events agentType' analysis' log :
  let r := consultExistingAgents respond agentType' analysis' log in
  ∃ es,
    snd r = log ++ es
    ∧ filter isConsultation es
      = ConsultAgentCalled (lit "code-reviewer") (practicesQuery agentType')
        :: List.map (λ agentName, ConsultAgentCalled agentName (guidanceQuery agentType'))
             (suggestedConsultants analysis')
    ∧ (List.length (fst r) ≤ 1 + List.length (suggestedConsultants analysis'))%nat.
Proof.
  cbn zeta. unfold consultExistingAgents.
  destruct (consultAgent_events (lit "code-reviewer") (practicesQuery agentType') log)
    as (es1 & Hlog & Hcalls).
  set (r := consultAgent respond (lit "code-reviewer") (practicesQuery agentType') log) in *.
  destruct (consultSuggested_events agentType' (suggestedConsultants analysis')
              (match fst r with Some c => [c] | None => [] end) (snd r))
    as (es2 & more & Hlog2 & Hcalls2 & Hcs & Hlen).
  cbn zeta in *. rewrite Hlog2, Hcs, Hlog. exists (es1 ++ es2). split_and!.
  - by rewrite app_assoc.
  - by rewrite filter_app, Hcalls, Hcalls2.
  - rewrite length_app. destruct (fst r); cbn [List.length]; lia.
Qed.

Lemma suggestConsultants_length templateData :
  (List.length (suggestConsultants toLowerCase templateData) ≤ 3)%nat.
Proof. unfold suggestConsultants. cbn zeta. rewrite length_firstn. lia. Qed.

Lemma analyzeInputData_suggested templateData documents analysis' :
  analyzeInputData toLowerCase templateData documents = Some analysis' →
  suggestedConsultants analysis' = suggestConsultants toLowerCase templateData.
Proof.
  unfold analyzeInputData. repeat case_match; try discriminate; by intros [= <-].
Qed.

(** The consultations of a generation: once the template has been
    loaded and the template data analysed, [generateSubagent] asks
    [code-reviewer] and then the suggested consultants, each once and
    in this order, whatever the answers, which makes four calls at the
    most; before that it asks nobody.  The agents it reports as
    consulted are no more than the calls it made. *)
Theorem generateSubagent_consultations (loadTemplate : promise (option unit))
    (generated timestamp : jsstring) (templateData : jsobject)
    (documents : list document) (agentName agentType' : jsstring) (log : list event) :
  let r := generateSubagent toLowerCase respond loadTemplate generated timestamp
             templateData documents agentName agentType' log in
  ∃ es,
    snd r = log ++ LoadTemplateCalled :: es
    ∧ filter isConsultation es
      = match loadTemplate, analyzeInputData toLowerCase templateData documents with
        | Fulfilled (Some _), Some _ =>
            plannedConsultations toLowerCase templateData agentType'
        | _, _ => []
        end
    ∧ (List.length (filter isConsultation es) ≤ 4)%nat
    ∧ ∀ specification name kind stamp consulted,
        fst r = Generated specification name kind stamp consulted →
        (List.length consulted ≤ List.length (filter isConsultation es))%nat.
Proof.
  cbn zeta. unfold generateSubagent.
  destruct loadTemplate as [[u|]|message].
  2,3: (eexists; cbn [fst snd]; rewrite <- app_assoc; split; [reflexivity|];
        split_and!; [reflexivity | vm_compute; lia | done]).
  destruct (analyzeInputData toLowerCase templateData documents) as [analysis'|] eqn:Ha.
  2: { eexists. cbn [fst snd]. rewrite <- app_assoc. split; [reflexivity|].
       split_and!; [reflexivity | vm_compute; lia | done]. }
  destruct (consultExistingAgents_events agentType' analysis' (log ++ [LoadTemplateCalled]))
    as (es & Hlog & Hcalls & Hlen).
  cbn zeta in *.
  rewrite (analyzeInputData_suggested _ _ _ Ha) in Hcalls, Hlen.
  pose proof (suggestConsultants_length templateData) as Hs.
  assert (Hplanned : filter isConsultation es
                     = plannedConsultations toLowerCase templateData agentType')
    by done.
  assert (Hfour : (List.length (filter isConsultation es) ≤ 4)%nat).
  { rewrite Hplanned. unfold plannedConsultations. cbn [List.length].
    rewrite length_map. lia. }
  assert (Hmade : (List.length (fst (consultExistingAgents respond agentType' analysis'
                                       (log ++ [LoadTemplateCalled])))
                   ≤ List.length (filter isConsultation es))%nat).
  { rewrite Hplanned. unfold plannedConsultations. cbn [List.length].
    rewrite length_map. lia. }
  destruct (createSpecification _ _ _ _ _ _ _) as [specification|].
  - exists es. cbn [fst snd]. rewrite Hlog, <- app_assoc.
    split_and!; [done..|].
    intros ? ? ? ? ? [= <- <- <- <- <-]. by rewrite length_map.
  - exists (es ++ [ErrorLogged]). cbn [fst snd]. rewrite Hlog, <- !app_assoc.
    rewrite filter_app, app_nil_r.
    split_and!; done.
Qed.

Lemma createSpecification_present generated agentName agentType' templateData
    documents analysis' consultations :
  is_Some (createSpecification generated agentName agentType' templateData documents
             analysis' consultations)
  ↔ Forall (λ c, is_Some (getProp c templateData)) categories.
Proof.
  split.
  - unfold createSpecification, specificationSections. intros Hs.
    destruct (getProp (lit "coreFunctions") templateData) eqn:H1; [|by destruct Hs].
    destruct (getProp (lit "domainExpertise") templateData) eqn:H2; [|by destruct Hs].
    destruct (getProp (lit "inputTypes") templateData) eqn:H3; [|by destruct Hs].
    destruct (getProp (lit "validationRules") templateData) eqn:H4; [|by destruct Hs].
    destruct (getProp (lit "outputFormat") templateData) eqn:H5; [|by destruct Hs].
    destruct (getProp (lit "performanceConstraints") templateData) eqn:H6;
      [|by destruct Hs].
    destruct (getProp (lit "styleGuide") templateData) eqn:H7; [|by destruct Hs].
    destruct (getProp (lit "integrationTargets") templateData) eqn:H8; [|by destruct Hs].
    unfold categories. repeat (constructor; [by eexists|]). constructor.
  - unfold categories. intros Hall.
    repeat match goal with
           | H : Forall _ (_ :: _) |- _ => apply Forall_cons in H as [[? ?] H]
           end.
    unfold createSpecification.
    erewrite SpecificationSpec.specificationSections_blocks by eassumption.
    by eexists.
Qed.

(** A generation does not depend on the consultations going well: once
    the template has been loaded, [generateSubagent] succeeds exactly
    when the template data have the eight categories, whatever the
    consulted agents answer and whether or not the calls fail; the
    specification is then that of [createSpecification] for the
    analysis of the data and the consultations obtained, of which there
    are four at the most. *)
Theorem generateSubagent_outcome (u : unit) (generated timestamp : jsstring)
    (templateData : jsobject) (documents : list document)
    (agentName agentType' : jsstring) (log : list event) :
  let r := generateSubagent toLowerCase respond (Fulfilled (Some u)) generated timestamp
             templateData documents agentName agentType' log in
  (Forall (λ c, is_Some (getProp c templateData)) categories →
   ∃ analysis' consultations specification,
     analyzeInputData toLowerCase templateData documents = Some analysis'
     ∧ createSpecification generated agentName agentType' templateData documents
         analysis' consultations = Some specification
     ∧ fst r = Generated specification agentName agentType' timestamp
                 (List.map agentType consultations)
     ∧ (List.length consultations ≤ 4)%nat)
  ∧ (¬ Forall (λ c, is_Some (getProp c templateData)) categories →
     fst r = NotGenerated EngineTypeError).
Proof.
  cbn zeta. unfold generateSubagent. split.
  - intros Hall.
    assert (Ha : is_Some (analyzeInputData toLowerCase templateData documents)).
    { unfold analyzeInputData. pose proof Hall as Hall'. unfold categories in Hall'.
      apply Forall_cons in Hall' as [[? ->] Hall'].
      apply Forall_cons in Hall' as [[? ->] Hall']. by eexists. }
    destruct Ha as [analysis' Ha]. rewrite Ha.
    destruct (consultExistingAgents_events agentType' analysis' (log ++ [LoadTemplateCalled]))
      as (es & _ & _ & Hlen).
    cbn zeta in Hlen. rewrite (analyzeInputData_suggested _ _ _ Ha) in Hlen.
    pose proof (suggestConsultants_length templateData) as Hs.
    set (cs := fst (consultExistingAgents respond agentType' analysis'
                      (log ++ [LoadTemplateCalled]))) in *.
    destruct (proj2 (createSpecification_present generated agentName agentType'
                       templateData documents analysis' cs) Hall) as [spec Hspec].
    rewrite Hspec. exists analysis', cs, spec. split_and!; [done..|lia].
  - intros Hnot.
    destruct (analyzeInputData toLowerCase templateData documents) as [analysis'|];
      [|done].
    destruct (createSpecification _ _ _ _ _ _ _) as [spec|] eqn:Hspec; [|done].
    exfalso. apply Hnot.
    eapply createSpecification_present. by rewrite Hspec.
Qed.

End WithEnvironment.

Lemma generateSubagent_outcome_witness :
  let refuse : list event → jsstring → jsstring → promise (option consultReply) :=
    λ _ _ _, Failed None in
  let r := generateSubagent asciiLowerCase refuse (Fulfilled (Some tt))
             (lit "2026-01-01T00:00:00.000Z") (lit "2026-01-01T00:00:00.001Z")
             sixteenFilled [] (lit "Api Helper") (lit "api-helper") [] in
  Forall (λ c, is_Some (getProp c sixteenFilled)) categories
  ∧ List.length (filter isConsultation (snd r)) = 2%nat
  ∧ ∃ analysis' consultations specification,
      analyzeInputData asciiLowerCase sixteenFilled [] = Some analysis'
      ∧ createSpecification (lit "2026-01-01T00:00:00.000Z") (lit "Api Helper")
          (lit "api-helper") sixteenFilled [] analysis' consultations
        = Some specification
      ∧ fst r = Generated specification (lit "Api Helper") (lit "api-helper")
                  (lit "2026-01-01T00:00:00.001Z") (List.map agentType consultations)
      ∧ (List.length consultations ≤ 4)%nat.
Proof.
  intros refuse r.
  assert (Hall : Forall (λ c, is_Some (getProp c sixteenFilled)) categories).
  { unfold categories. repeat (constructor; [by eexists|]). constructor. }
  split_and!; [done | by vm_compute |].
  exact (proj1 (generateSubagent_outcome asciiLowerCase refuse tt
                  (lit "2026-01-01T00:00:00.000Z") (lit "2026-01-01T00:00:00.001Z")
                  sixteenFilled [] (lit "Api Helper") (lit "api-helper") []) Hall).
Defined.

End GenerationSpec.

(** ** More on the hook and on the components that use it *)

Module FormStateFacts.
Import UseAgentGenerator Components.

Lemma removeIndex_from index docs : ∀ i,
  removeIndex index i docs =
  if decide (i ≤ index < i + jslength docs)
  then delete (Z.to_nat (index - i)) docs
  else docs.
Proof.
  induction docs as [|d docs IH]; intros i.
  - cbn. by case_decide.
  - cbn [removeIndex]. rewrite IH. unfold jslength. cbn [List.length].
    destruct (Z.eqb_spec i index) as [->|Hne].
    + rewrite decide_False by lia. rewrite decide_True by lia.
      by rewrite Z.sub_diag.
    + case_decide.
      * rewrite decide_True by lia.
        replace (Z.to_nat (index - i)) with (S (Z.to_nat (index - (i + 1)))) by lia.
        done.
      * by rewrite decide_False by lia.
Qed.

(** [removeDocument] takes out the document at the index given and no
    other, keeping the order; an index outside the list, negative or
    too large, changes nothing; the other cells of the state stay. *)
Theorem removeDocument_spec (index : Z) (st : state) :
  let st' := removeDocument index st in
  documents st' =
    (if decide (0 ≤ index < jslength (documents st))
     then delete (Z.to_nat index) (documents st)
     else documents st)
  ∧ (0 ≤ index < jslength (documents st) →
     jslength (documents st') = jslength (documents st) - 1
     ∧ ∀ j : nat,
         documents st' !! j
         = documents st !! (if decide (j < Z.to_nat index)%nat then j else S j))
  ∧ templateData st' = templateData st
  ∧ generatedAgent st' = generatedAgent st
  ∧ error st' = error st
  ∧ loading st' = loading st.
Proof.
  cbn zeta. cbn [removeDocument documents templateData generatedAgent error loading].
  rewrite removeIndex_from. rewrite Z.sub_0_r, Z.add_0_l.
  split_and!; try done. intros Hin. rewrite decide_True by done. split.
  - unfold jslength in *. rewrite length_delete; [lia|].
    apply lookup_lt_is_Some. lia.
  - intros j. apply list_lookup_delete.
Qed.

Lemma removeDocument_spec_witness :
  let a := Document (lit "a.pdf") (lit "/docs/a.pdf") None 1 in
  let b := Document (lit "b.pdf") (lit "/docs/b.pdf") None 2 in
  let c := Document (lit "c.pdf") (lit "/docs/c.pdf") None 3 in
  let st := {| loading := false; error := None; generatedAgent := None;
               templateData := emptyTemplateData; documents := [a; b; c] |} in
  0 ≤ 1 < jslength (documents st)
  ∧ documents (removeDocument 1 st) = [a; c]
  ∧ documents (removeDocument 3 st) = [a; b; c]
  ∧ jslength (documents (removeDocument 1 st)) = jslength (documents st) - 1.
Proof.
  intros a b c st.
  assert (Hin : 0 ≤ 1 < jslength (documents st)) by (by vm_compute).
  split; [done|]. split; [reflexivity|]. split; [reflexivity|].
  exact (proj1 (proj1 (proj2 (removeDocument_spec 1 st)) Hin)).
Defined.

Lemma removeIndex_length index docs :
  jslength (removeIndex index 0 docs) ≤ jslength docs.
Proof.
  rewrite removeIndex_from. case_decide; [|done].
  unfold jslength in *. rewrite length_delete; [lia|].
  apply lookup_lt_is_Some. lia.
Qed.

Lemma step_documents_within o st st' :
  match o with
  | AddDocument documentsAtRender _ _ => documentsAtRender = documents st
  | _ => True
  end →
  jslength (documents st) ≤ 12 →
  step o st = Some st' →
  jslength (documents st') ≤ 12.
Proof.
  intros Hfresh Hle. destruct o; cbn [step].
  - unfold updateTemplateField. destruct (getProp _ _); [|done]. by intros [= <-].
  - intros [= <-]. subst documentsAtRender. unfold addDocument.
    destruct (Z.leb_spec 12 (jslength (documents st))); [done|].
    destruct processPDF as [result|message]; [|done].
    destruct (success result); [|done]. cbn [documents].
    rewrite jslength_app. unfold jslength at 2. cbn [List.length]. lia.
  - intros [= <-]. cbn [removeDocument documents].
    pose proof (removeIndex_length index (documents st)). lia.
  - by intros [= <-].
  - intros [= <-]. destruct saved as [result|message]; [|done].
    cbn. by destruct (saveSuccess result).
  - intros [= <-]. by cbn.
Qed.

(** Where every call of [addDocument] is the callback of the render
    that shows the current documents, the list never grows beyond
    twelve, whatever else is done in between; the thirteenth document
    is refused with an error. *)
Theorem documents_within_twelve (os : list operation) (st st' : state) :
  currentRender os st →
  jslength (documents st) ≤ 12 →
  steps os st = Some st' →
  jslength (documents st') ≤ 12.
Proof.
  revert st. induction os as [|o os IH]; intros st Hfresh Hle; cbn [steps].
  - by intros [= <-].
  - cbn [currentRender] in Hfresh. destruct Hfresh as [Ho Hrest].
    destruct (step o st) as [st1|] eqn:E; [|done].
    apply IH; [done|]. by apply (step_documents_within o st).
Qed.

Lemma documents_within_twelve_witness :
  let f := File (lit "doc.pdf") (lit "/docs/doc.pdf") in
  let ok := Resolved (PdfResult true (Some (lit "Sample PDF text")) 5 None) in
  let doc := Document (lit "doc.pdf") (lit "/docs/doc.pdf") (Some (lit "Sample PDF text")) 5 in
  let os := List.map (λ n, AddDocument (replicate n doc) f ok) (seq 0 13) in
  ∃ st',
    currentRender os initialState
    ∧ jslength (documents initialState) ≤ 12
    ∧ steps os initialState = Some st'
    ∧ jslength (documents st') ≤ 12
    ∧ error st' = Some (lit "Maximum 12 documents allowed").
Proof.
  intros f ok doc os. eexists.
  assert (Hfresh : currentRender os initialState).
  { subst os. cbn. repeat split. }
  assert (Hle : jslength (documents initialState) ≤ 12) by (by vm_compute).
  assert (Hrun : steps os initialState = Some _) by reflexivity.
  split_and!; [done | done | exact Hrun | | reflexivity].
  exact (documents_within_twelve os initialState _ Hfresh Hle Hrun).
Defined.

Lemma handleFileSelect_cons documentsAtRender file files st :
  handleFileSelect documentsAtRender (file :: files) st =
  handleFileSelect documentsAtRender files
    (if str_eqb (selectedType file) (lit "application/pdf")
     then addDocument documentsAtRender
            {| fileName := selectedName file; filePath := selectedPath file |}
            (selectedOutcome file) st
     else st).
Proof. done. Qed.

(** An upload adds every selected PDF whose processing succeeds, in the
    order of the selection, and skips the other files, provided the
    render in which the files were selected showed fewer than twelve
    documents; otherwise it adds nothing.  The limit is thus checked
    against the list of that render only, not against the list as it
    grows during the upload. *)
Theorem handleFileSelect_spec (documentsAtRender : list document)
    (files : list selected) (st : state) :
  let st' := handleFileSelect documentsAtRender files st in
  documents st' =
    documents st ++
    (if 12 <=? jslength documentsAtRender then [] else omap parsedDocument files)
  ∧ templateData st' = templateData st
  ∧ generatedAgent st' = generatedAgent st.
Proof.
  cbn zeta. revert st. induction files as [|file files IH]; intros st.
  - cbn [handleFileSelect List.fold_left omap list_omap].
    destruct (12 <=? _); by rewrite app_nil_r.
  - rewrite handleFileSelect_cons. destruct (IH
      (if str_eqb (selectedType file) (lit "application/pdf")
       then addDocument documentsAtRender
              {| fileName := selectedName file; filePath := selectedPath file |}
              (selectedOutcome file) st
       else st)) as (Hd & Ht & Hg).
    rewrite Hd, Ht, Hg. cbn [omap list_omap]. unfold parsedDocument at 2, addDocument.
    destruct (str_eqb (selectedType file) (lit "application/pdf")).
    + destruct (12 <=? jslength documentsAtRender); [done|].
      destruct (selectedOutcome file) as [result|message]; [|done].
      destruct (success result); [|done]. cbn. by rewrite <- app_assoc.
    + by destruct (12 <=? jslength documentsAtRender).
Qed.

Lemma filter_none {A} (P : A → Prop) `{!∀ x, Decision (P x)} (l : list A) :
  Forall (λ x, ¬ P x) l → filter P l = [].
Proof.
  induction 1 as [|x l Hx Hl IH]; [done|]. by rewrite filter_cons, decide_False.
Qed.

Lemma notBlank_filled f : notBlank f = filled f.
Proof. unfold notBlank, filled. by destruct (trim f). Qed.

Lemma filter_notBlank arr : List.filter notBlank arr = List.filter filled arr.
Proof.
  induction arr as [|f arr IH]; [done|]. cbn. by rewrite notBlank_filled, IH.
Qed.

Lemma getTotalFilledFields_spec st :
  getTotalFilledFields st = filledFields (allFields (templateData st)).
Proof.
  unfold getTotalFilledFields, allFields.
  rewrite <- (Z.add_0_l (filledFields _)), <- AnalysisSpec.reduce_countFilled.
  generalize 0. induction (List.map snd (templateData st)) as [|v values IH]; intros n.
  - done.
  - cbn [List.fold_left]. rewrite IH. unfold countFilled. by rewrite filter_notBlank.
Qed.

Lemma twelveEach_allFields templateData :
  twelveEach templateData → List.length (allFields templateData) = 96%nat.
Proof.
  intros [Hkeys Hlen]. unfold allFields.
  assert (Hn : List.length templateData = 8%nat).
  { rewrite <- (length_map fst), Hkeys. reflexivity. }
  do 9 (destruct templateData as [|[? ?] templateData]; try discriminate).
  repeat match goal with
         | H : Forall _ (_ :: _) |- _ => apply Forall_cons in H as [? H]
         end.
  cbn [List.map List.concat snd] in *. rewrite !length_app. cbn [List.length]. lia.
Qed.

(** The progress shown by [GenerateButton] and [TemplateForm] in any
    state the hook reaches: the number of filled fields, the one
    [analyzeInputData] grades, lies between 0 and 96, that of a
    category between 0 and 12, and the button is disabled exactly when
    no field holds anything and no document has been uploaded. *)
Theorem progress_of_the_form (os : list operation) (st : state) :
  steps os initialState = Some st →
  0 ≤ getTotalFilledFields st ≤ 96
  ∧ getTotalFilledFields st = filledFields (allFields (templateData st))
  ∧ (∀ category, category ∈ categories →
       ∃ n, getFilledCount category st = Some n ∧ 0 ≤ n ≤ 12)
  ∧ (canGenerate st = false
     ↔ Forall (λ f, ¬ nonBlank f) (allFields (templateData st)) ∧ documents st = []).
Proof.
  intros Hrun.
  assert (Hst : twelveEach (templateData st)).
  { apply (FormStateSpec.steps_twelveEach os initialState);
      [apply FormStateSpec.twelveEach_empty | done]. }
  pose proof (getTotalFilledFields_spec st) as Htotal.
  pose proof (twelveEach_allFields _ Hst) as H96.
  pose proof (length_filter nonBlank (allFields (templateData st))) as Hle.
  assert (Hrange : 0 ≤ getTotalFilledFields st ≤ 96).
  { rewrite Htotal. unfold filledFields, jslength. lia. }
  split; [done|]. split; [done|]. split.
  - intros category Hc.
    destruct (FormStateSpec.twelveEach_get _ _ Hst Hc) as (arr & Harr & Hlen).
    unfold getFilledCount. rewrite Harr. cbn [mbind option_bind].
    eexists. split; [reflexivity|].
    pose proof (List.filter_length_le notBlank arr). unfold jslength. lia.
  - unfold canGenerate. rewrite orb_false_iff, !Z.ltb_ge, Htotal.
    unfold filledFields, jslength. split.
    + intros [Hf Hd]. split.
      * apply Forall_forall. intros f Hf' Hnb.
        assert (Hin : f ∈ filter nonBlank (allFields (templateData st)))
          by (by apply list_elem_of_filter).
        destruct (filter nonBlank (allFields (templateData st)));
          [by apply elem_of_nil in Hin | cbn in Hf; lia].
      * destruct (documents st); [done | cbn in Hd; lia].
    + intros [Hf ->]. split; [|done].
      by rewrite (filter_none nonBlank _ Hf).
Qed.

Lemma progress_of_the_form_witness :
  ∃ st,
    steps [ UpdateTemplateField (lit "coreFunctions") 0 (lit "Handle API requests");
            UpdateTemplateField (lit "coreFunctions") 1 (lit "   ");
            UpdateTemplateField (lit "styleGuide") 11 (lit "PEP 8") ] initialState
    = Some st
    ∧ getTotalFilledFields st = 2
    ∧ 0 ≤ getTotalFilledFields st ≤ 96
    ∧ canGenerate st = true.
Proof.
  eexists. split; [reflexivity|]. split; [reflexivity|]. split; [|reflexivity].
  match goal with
  | |- 0 ≤ getTotalFilledFields ?s ≤ 96 =>
      exact (proj1 (progress_of_the_form
        [ UpdateTemplateField (lit "coreFunctions") 0 (lit "Handle API requests");
          UpdateTemplateField (lit "coreFunctions") 1 (lit "   ");
          UpdateTemplateField (lit "styleGuide") 11 (lit "PEP 8") ] s eq_refl))
  end.
Defined.

End FormStateFacts.

(** ** The hook [useTheme] and the settings handlers *)

Module ThemeSpec.
Import RateLimiter IpcHandlers UseTheme.

Lemma toggleTheme_settings themeAtRender st :
  ∃ newTheme,
    (newTheme = lit "light" ∨ newTheme = lit "dark")
    ∧ toggleTheme themeAtRender st
      = ({| theme := JString newTheme; initialLoad := false |},
         JObject [ (lit "theme", JString newTheme) ]).
Proof.
  unfold toggleTheme. cbn zeta.
  destruct (isText themeAtRender (lit "dark")); eexists; (split; [|reflexivity]);
    [by left | by right].
Qed.

(** What [toggleTheme] sends is always accepted: the theme it sets is
    ['light'] or ['dark'], dark mode is switched when the callback is
    that of the current render, and the settings it asks [save-settings]
    to store pass [validateSettings], so that the handler, unless the
    limiter rejects the request, hands them to the file manager. *)
Theorem toggleTheme_is_accepted (themeAtRender : jsval) (st : UseTheme.themeState)
    (isAbsolute : jsstring → bool) (now : Z) (w : world) :
  let st' := fst (toggleTheme themeAtRender st) in
  let settings := snd (toggleTheme themeAtRender st) in
  (theme st' = JString (lit "light") ∨ theme st' = JString (lit "dark"))
  ∧ isDarkMode st' = negb (isText themeAtRender (lit "dark"))
  ∧ validateSettings settings = Return true
  ∧ (fst (isRateLimited now (lit "save-settings") (limits w)) = false →
     handle isAbsolute now (SaveSettings settings (Return tt)) w
     = (Return (JObject [ (lit "success", JBoolean true) ]),
        {| limits := snd (isRateLimited now (lit "save-settings") (limits w));
           effects := effects w ++ [Called "fileManager.saveSettings"] |})).
Proof.
  cbn zeta. destruct (toggleTheme_settings themeAtRender st) as (newTheme & Hn & Ht).
  assert (Hv : validateSettings (snd (toggleTheme themeAtRender st)) = Return true).
  { rewrite Ht. destruct Hn as [->| ->]; reflexivity. }
  split_and!.
  - rewrite Ht. destruct Hn as [->| ->]; [by left | by right].
  - unfold toggleTheme, isDarkMode. cbn zeta.
    by destruct (isText themeAtRender (lit "dark")).
  - done.
  - intros Hl. rewrite HandlersSpec.handle_attempt. HandlersSpec.run_attempt.
    rewrite Hl, Hv. cbn [fst snd limits effects]. by rewrite app_nil_r.
Qed.

Lemma loadTheme_ignored reply st :
  initialLoad st = false → loadTheme reply st = st.
Proof.
  intros Hi. unfold loadTheme. destruct st as [t i]. cbn in Hi. subst i.
  destruct reply as [[success [stored|]]|]; cbn; try done.
  - destruct success; [|done]. by rewrite andb_false_r.
  - by destruct success.
Qed.

Lemma replay_after_toggle os : ∀ st,
  initialLoad st = false →
  initialLoad (replay os st) = false
  ∧ ((theme st = JString (lit "light") ∨ theme st = JString (lit "dark")) →
     theme (replay os st) = JString (lit "light") ∨ theme (replay os st) = JString (lit "dark")).
Proof.
  induction os as [|[reply|] os IH]; intros st Hi; [done| |].
  - cbn [replay]. rewrite loadTheme_ignored by done. by apply IH.
  - cbn [replay]. destruct (toggleTheme_settings (theme st) st) as (newTheme & Hn & Ht).
    rewrite Ht. cbn [fst]. destruct (IH {| theme := JString newTheme; initialLoad := false |} eq_refl)
      as [IH1 IH2].
    split; [done|]. intros _. apply IH2. cbn. destruct Hn as [->| ->]; [by left | by right].
Qed.

Lemma replay_app os1 os2 st : replay (os1 ++ os2) st = replay os2 (replay os1 st).
Proof.
  revert st. induction os1 as [|[reply|] os1 IH]; intros st; cbn [replay app]; by rewrite ?IH.
Qed.

(** Once the user has toggled, the settings no longer overwrite the
    choice: a load that settles after a toggle, whatever it brings,
    changes nothing, and from the first toggle on the theme is
    ['light'] or ['dark']. *)
Theorem load_after_toggle_is_ignored (before between after : list occurrence)
    (reply : option settingsReply) (st : UseTheme.themeState) :
  let with_load := before ++ Toggled :: between ++ SettingsLoaded reply :: after in
  let without := before ++ Toggled :: between ++ after in
  replay with_load st = replay without st
  ∧ (theme (replay with_load st) = JString (lit "light")
     ∨ theme (replay with_load st) = JString (lit "dark")).
Proof.
  cbn zeta. rewrite !replay_app. cbn [replay].
  set (st1 := fst (toggleTheme (theme (replay before st)) (replay before st))).
  assert (H1 : initialLoad st1 = false ∧
               (theme st1 = JString (lit "light") ∨ theme st1 = JString (lit "dark"))).
  { subst st1. destruct (toggleTheme_settings (theme (replay before st)) (replay before st))
      as (newTheme & Hn & ->). cbn. split; [done|]. destruct Hn as [->| ->]; [by left | by right]. }
  destruct H1 as [Hi Ht]. rewrite !replay_app. cbn [replay].
  destruct (replay_after_toggle between st1 Hi) as [Hi2 Ht2].
  rewrite loadTheme_ignored by done. split; [done|].
  destruct (replay_after_toggle after (replay between st1) Hi2) as [_ Ht3]. auto.
Qed.

End ThemeSpec.

(** ** The channels of the preload script *)

Module PreloadSpec.
Import RateLimiter IpcHandlers.

(** The three tables agree: every channel the preload script invokes
    has a quota of its own in [RATE_LIMITS], so that none falls back on
    the default and none bears an inherited name; every handler limits
    its requests under one of these channels; and no two methods share
    a channel. *)
Theorem every_channel_has_its_quota :
  (∀ method channel, (method, channel) ∈ Preload.exposed →
     inherited channel = false
     ∧ ∃ quota, ownProperty channel RATE_LIMITS = Some quota
                ∧ limitOf channel = Quota quota)
  ∧ (∀ channel, channel ∈ List.map fst RATE_LIMITS →
       channel ∈ List.map snd Preload.exposed)
  ∧ (∀ i, channelOf i ∈ List.map snd Preload.exposed)
  ∧ NoDup (List.map snd Preload.exposed).
Proof.
  split_and!.
  - intros method channel Hin. unfold Preload.exposed in Hin.
    repeat (apply elem_of_cons in Hin as [[= -> ->]|Hin];
            [split; [reflexivity | eexists; split; reflexivity]|]).
    by apply elem_of_nil in Hin.
  - intros channel Hin. cbn in Hin.
    repeat (apply elem_of_cons in Hin as [->|Hin];
            [apply (bool_decide_unpack _); by vm_compute|]).
    by apply elem_of_nil in Hin.
  - intros i. destruct i; apply (bool_decide_unpack _); by vm_compute.
  - apply (bool_decide_unpack _). by vm_compute.
Qed.

End PreloadSpec.
